(** * proj2_nps: a cache-backed scraper of national sites

    A shallow embedding of [src/proj2_nps.py] and the proofs of its
    specification.  The program keeps a JSON file as a cache of web pages,
    extracts records from parsed HTML and asks a places API for the
    surroundings of one site.

    Conventions of the embedding.
    - A Python [str] is a [string]; each [ascii] stands for the code point
      of the same number (0..255).
    - A Python [dict] is an insertion-ordered association list without
      duplicate keys ([Dict.set] keeps it so); the order matters because
      [json.dumps] writes the members in insertion order.
    - A JSON document is a [json] value: its numbers are integers and its
      strings are strings as above.  [json.loads] reads more than that
      (numbers with a fraction or an exponent, [NaN] and the infinities,
      escapes of code points above 255).  [Json.loads] tells a text of that
      kind, for which it answers [Json.Outside], from a text that is not
      JSON, for which it answers [Json.DecodeError]; a run of the program
      that decodes a text of the first kind ends with [Unrepresented], and
      the embedding says nothing of what Python does from there.  The limits
      of the interpreter (the depth of recursion, the length of an integer
      literal) are not modelled.
    - The modules [json], [bs4] and [requests] are libraries, not code of
      the repository: [Json] and [Soup] follow their documented behaviour
      on the operations the program calls, the network is a pair of
      functions in the world, and the HTML parser and the API key are
      parameters of the program.
    - Effects (the cache file, the process-global [CACHE_DICT], the network,
      the standard output) live in a [World]; a computation is a function
      from the world to an outcome and the next world, and a Python
      exception is the outcome [Raise].

    The file has the embedding first, then the vocabulary of the
    specification and the worlds of the examples, then the lemmas, and the
    claims of the specification last. *)

From Stdlib Require Import String Ascii List ZArith NArith Lia Bool Sorted.
From Stdlib Require Import Decimal DecimalString DecimalN.
Import ListNotations.
Open Scope string_scope.

(* ================================================================== *)
(** ** Python dictionaries *)

Module Dict.

Definition dict (V : Type) := list (string * V).

Definition empty {V : Type} : dict V := [].

(** [d[k]], [None] standing for [KeyError]. *)
Fixpoint get {V : Type} (k : string) (d : dict V) : option V :=
  match d with
  | [] => None
  | (k', v) :: d' => if String.eqb k k' then Some v else get k d'
  end.

(** [k in d.keys()] *)
Definition mem {V : Type} (k : string) (d : dict V) : bool :=
  match get k d with Some _ => true | None => false end.

(** [d[k] = v]: an existing key keeps its place, a new one goes last. *)
Fixpoint set {V : Type} (k : string) (v : V) (d : dict V) : dict V :=
  match d with
  | [] => [(k, v)]
  | (k', v') :: d' =>
      if String.eqb k k' then (k', v) :: d' else (k', v') :: set k v d'
  end.

(** [dict(pairs)] *)
Definition of_pairs {V : Type} (ps : list (string * V)) : dict V :=
  fold_left (fun d kv => set (fst kv) (snd kv) d) ps empty.

End Dict.

(* ================================================================== *)
(** ** JSON documents and the [json] module *)

#[warnings="-register-all"]
Inductive json : Type :=
| JNull
| JBool (b : bool)
| JNum (z : Z)
| JStr (s : string)
| JArr (items : list json)
| JObj (members : list (string * json)).

Module Json.

(** *** Characters *)

Definition code (c : ascii) : N := N_of_ascii c.

(** The double quote, code 34. *)
Definition quote : ascii := "034"%char.

Definition hex_digit (n : N) : ascii :=
  if (n <? 10)%N then ascii_of_N (48 + n) else ascii_of_N (87 + n).

Definition hex_value (c : ascii) : option N :=
  let n := code c in
  if ((48 <=? n) && (n <=? 57))%N then Some (n - 48)%N
  else if ((97 <=? n) && (n <=? 102))%N then Some (n - 87)%N
  else if ((65 <=? n) && (n <=? 70))%N then Some (n - 55)%N
  else None.

Definition is_digit (c : ascii) : bool :=
  ((48 <=? code c) && (code c <=? 57))%N.

(** The whitespace of [json.decoder.WHITESPACE]: space, tab, LF, CR. *)
Definition is_ws (c : ascii) : bool :=
  let n := code c in
  ((n =? 32) || (n =? 9) || (n =? 10) || (n =? 13))%N.

Fixpoint skip_ws (s : string) : string :=
  match s with
  | String c r => if is_ws c then skip_ws r else s
  | EmptyString => s
  end.

(** *** [json.dumps] (default separators, [ensure_ascii=True]) *)

(** One character of [encode_basestring_ascii]. *)
Definition escape_char (c : ascii) : string :=
  let n := code c in
  if (n =? 34)%N then String "\" (String quote EmptyString)
  else if (n =? 92)%N then "\\"
  else if (n =? 10)%N then "\n"
  else if (n =? 13)%N then "\r"
  else if (n =? 9)%N then "\t"
  else if (n =? 8)%N then "\b"
  else if (n =? 12)%N then "\f"
  else if ((32 <=? n) && (n <=? 126))%N then String c EmptyString
  else "\u00" ++ String (hex_digit (n / 16)) (String (hex_digit (n mod 16)) EmptyString).

Fixpoint escape (s : string) : string :=
  match s with
  | EmptyString => EmptyString
  | String c r => escape_char c ++ escape r
  end.

Definition dumps_string (s : string) : string :=
  String quote (escape s ++ String quote EmptyString).

Definition dumps_int (z : Z) : string :=
  match z with
  | Z0 => "0"
  | Zpos p => NilEmpty.string_of_uint (Pos.to_uint p)
  | Zneg p => String "-" (NilEmpty.string_of_uint (Pos.to_uint p))
  end.

Fixpoint dumps (v : json) : string :=
  match v with
  | JNull => "null"
  | JBool true => "true"
  | JBool false => "false"
  | JNum z => dumps_int z
  | JStr s => dumps_string s
  | JArr items =>
      let fix go (l : list json) : string :=
        match l with
        | [] => "]"
        | [x] => dumps x ++ "]"
        | x :: l' => dumps x ++ ", " ++ go l'
        end in
      String "[" (go items)
  | JObj members =>
      let fix go (l : list (string * json)) : string :=
        match l with
        | [] => "}"
        | [(k, x)] => dumps_string k ++ ": " ++ dumps x ++ "}"
        | (k, x) :: l' => dumps_string k ++ ": " ++ dumps x ++ ", " ++ go l'
        end in
      String "{" (go members)
  end.

(** The members and items of [dumps], by themselves. *)
Fixpoint dumps_items (l : list json) : string :=
  match l with
  | [] => "]"
  | [x] => dumps x ++ "]"
  | x :: l' => dumps x ++ ", " ++ dumps_items l'
  end.

Fixpoint dumps_members (l : list (string * json)) : string :=
  match l with
  | [] => "}"
  | [(k, x)] => dumps_string k ++ ": " ++ dumps x ++ "}"
  | (k, x) :: l' => dumps_string k ++ ": " ++ dumps x ++ ", " ++ dumps_members l'
  end.

(** The documents that are Python values: the keys of every dict in them
    are distinct. *)
Fixpoint distinct (l : list string) : bool :=
  match l with
  | [] => true
  | k :: l' => negb (existsb (String.eqb k) l') && distinct l'
  end.

Fixpoint wf (v : json) : bool :=
  match v with
  | JArr l => forallb wf l
  | JObj m => distinct (map fst m) && forallb (fun kv => wf (snd kv)) m
  | _ => true
  end.

(** *** [json.loads] *)

(** [scanstring]: the text after an opening quote, up to the closing one. *)
Fixpoint scanstring (s : string) : option (string * string) :=
  match s with
  | EmptyString => None
  | String c r =>
      if (code c =? 34)%N then Some (EmptyString, r)
      else if (code c =? 92)%N then
        match r with
        | String e r1 =>
            let n := code e in
            let plain (d : ascii) :=
              match scanstring r1 with
              | Some (t, r') => Some (String d t, r')
              | None => None
              end in
            if (n =? 34)%N then plain quote
            else if (n =? 92)%N then plain "\"%char
            else if (n =? 47)%N then plain "/"%char
            else if (n =? 98)%N then plain (ascii_of_N 8)
            else if (n =? 102)%N then plain (ascii_of_N 12)
            else if (n =? 110)%N then plain (ascii_of_N 10)
            else if (n =? 114)%N then plain (ascii_of_N 13)
            else if (n =? 116)%N then plain (ascii_of_N 9)
            else if (n =? 117)%N then
              match r1 with
              | String h1 (String h2 (String h3 (String h4 r2))) =>
                  match hex_value h1, hex_value h2, hex_value h3, hex_value h4 with
                  | Some a, Some b, Some x, Some y =>
                      if ((a =? 0) && (b =? 0))%N then
                        match scanstring r2 with
                        | Some (t, r') => Some (String (ascii_of_N (16 * x + y)) t, r')
                        | None => None
                        end
                      else None
                  | _, _, _, _ => None
                  end
              | _ => None
              end
            else None
        | EmptyString => None
        end
      else if (code c <? 32)%N then None
      else
        match scanstring r with
        | Some (t, r') => Some (String c t, r')
        | None => None
        end
  end.

(** The longest prefix of decimal digits. *)
Fixpoint span_digits (s : string) : string * string :=
  match s with
  | String c r =>
      if is_digit c then let (d, r') := span_digits r in (String c d, r')
      else (EmptyString, s)
  | EmptyString => (EmptyString, EmptyString)
  end.

(** The integer part of [NUMBER_RE]: [0] or a digit string without a
    leading zero; its value as [int] reads it. *)
Definition scan_nat (s : string) : option (N * string) :=
  match s with
  | String c r =>
      if (code c =? 48)%N then Some (0%N, r)
      else if is_digit c then
        let (d, r') := span_digits s in
        match NilEmpty.uint_of_string d with
        | Some u => Some (N.of_uint u, r')
        | None => None
        end
      else None
  | EmptyString => None
  end.

Definition scan_int (s : string) : option (Z * string) :=
  match s with
  | String c r =>
      if (code c =? 45)%N then
        match scan_nat r with
        | Some (n, r') => Some (Z.opp (Z.of_N n), r')
        | None => None
        end
      else
        match scan_nat s with
        | Some (n, r') => Some (Z.of_N n, r')
        | None => None
        end
  | EmptyString => None
  end.

(** [s] starts with [p]: the rest. *)
Fixpoint strip_prefix (p s : string) : option string :=
  match p, s with
  | EmptyString, _ => Some s
  | String a p', String b s' => if Ascii.eqb a b then strip_prefix p' s' else None
  | String _ _, EmptyString => None
  end.

(** [scan_once] with the loops of [JSONArray] and [JSONObject]; the fuel
    bounds the number of nested calls. *)
Fixpoint scan_once (fuel : nat) (s : string) : option (json * string) :=
  match fuel with
  | O => None
  | S fuel' =>
      match s with
      | EmptyString => None
      | String c r =>
          let n := code c in
          if (n =? 34)%N then
            match scanstring r with
            | Some (t, r') => Some (JStr t, r')
            | None => None
            end
          else if (n =? 123)%N then
            match skip_ws r with
            | String c1 r1 =>
                if (code c1 =? 125)%N then Some (JObj Dict.empty, r1)
                else
                  match scan_members fuel' (String c1 r1) with
                  | Some (ps, r') => Some (JObj (Dict.of_pairs ps), r')
                  | None => None
                  end
            | EmptyString => None
            end
          else if (n =? 91)%N then
            match skip_ws r with
            | String c1 r1 =>
                if (code c1 =? 93)%N then Some (JArr [], r1)
                else
                  match scan_items fuel' (String c1 r1) with
                  | Some (vs, r') => Some (JArr vs, r')
                  | None => None
                  end
            | EmptyString => None
            end
          else if (n =? 110)%N then
            match strip_prefix "null" s with
            | Some r' => Some (JNull, r')
            | None => None
            end
          else if (n =? 116)%N then
            match strip_prefix "true" s with
            | Some r' => Some (JBool true, r')
            | None => None
            end
          else if (n =? 102)%N then
            match strip_prefix "false" s with
            | Some r' => Some (JBool false, r')
            | None => None
            end
          else
            match scan_int s with
            | Some (z, r') => Some (JNum z, r')
            | None => None
            end
      end
  end

with scan_items (fuel : nat) (s : string) : option (list json * string) :=
  match fuel with
  | O => None
  | S fuel' =>
      match scan_once fuel' s with
      | Some (v, r) =>
          match skip_ws r with
          | String c r1 =>
              if (code c =? 93)%N then Some ([v], r1)
              else if (code c =? 44)%N then
                match scan_items fuel' (skip_ws r1) with
                | Some (vs, r') => Some (v :: vs, r')
                | None => None
                end
              else None
          | EmptyString => None
          end
      | None => None
      end
  end

with scan_members (fuel : nat) (s : string) : option (list (string * json) * string) :=
  match fuel with
  | O => None
  | S fuel' =>
      match s with
      | String q r0 =>
          if (code q =? 34)%N then
            match scanstring r0 with
            | Some (k, r) =>
                match skip_ws r with
                | String c r1 =>
                    if (code c =? 58)%N then
                      match scan_once fuel' (skip_ws r1) with
                      | Some (v, r2) =>
                          match skip_ws r2 with
                          | String c2 r3 =>
                              if (code c2 =? 125)%N then Some ([(k, v)], r3)
                              else if (code c2 =? 44)%N then
                                match scan_members fuel' (skip_ws r3) with
                                | Some (ps, r') => Some ((k, v) :: ps, r')
                                | None => None
                                end
                              else None
                          | EmptyString => None
                          end
                      | None => None
                      end
                    else None
                | EmptyString => None
                end
            | None => None
            end
          else None
      | EmptyString => None
      end
  end.

(** [JSONDecoder.decode] as far as [json] holds the value: the whole text
    is one document between white space. *)
Definition decode (s : string) : option json :=
  let s0 := skip_ws s in
  match scan_once (S (String.length s0)) s0 with
  | Some (v, r) =>
      match skip_ws r with
      | EmptyString => Some v
      | String _ _ => None
      end
  | None => None
  end.

(** *** The texts that [json.loads] reads

    The grammar of the module in full: a number may have a fraction and
    an exponent, [NaN] and the two infinities are literals, and a [\u]
    escape is any four hexadecimal digits.  The functions follow
    [scan_once] and its loops and give the text after the document, not
    its value. *)

Definition is_hex (c : ascii) : bool :=
  match hex_value c with
  | Some _ => true
  | None => false
  end.

(** [scanstring]: the text after the closing quote. *)
Fixpoint skip_string (s : string) : option string :=
  match s with
  | EmptyString => None
  | String c r =>
      if (code c =? 34)%N then Some r
      else if (code c =? 92)%N then
        match r with
        | String e r1 =>
            let n := code e in
            if ((n =? 34) || (n =? 92) || (n =? 47) || (n =? 98) || (n =? 102)
                || (n =? 110) || (n =? 114) || (n =? 116))%N then skip_string r1
            else if (n =? 117)%N then
              match r1 with
              | String h1 (String h2 (String h3 (String h4 r2))) =>
                  if is_hex h1 && is_hex h2 && is_hex h3 && is_hex h4
                  then skip_string r2 else None
              | _ => None
              end
            else None
        | EmptyString => None
        end
      else if (code c <? 32)%N then None
      else skip_string r
  end.

(** One digit or more: the text after them. *)
Definition skip_digits (s : string) : option string :=
  match span_digits s with
  | (EmptyString, _) => None
  | (String _ _, r) => Some r
  end.

(** The fraction of [NUMBER_RE], [(\.\d+)?]. *)
Definition skip_frac (s : string) : string :=
  match s with
  | String c r =>
      if (code c =? 46)%N then
        match skip_digits r with
        | Some r' => r'
        | None => s
        end
      else s
  | EmptyString => s
  end.

(** The exponent of [NUMBER_RE], [([eE][-+]?\d+)?]. *)
Definition skip_exp (s : string) : string :=
  match s with
  | String c r =>
      if ((code c =? 101) || (code c =? 69))%N then
        let r0 :=
          match r with
          | String g r1 => if ((code g =? 43) || (code g =? 45))%N then r1 else r
          | EmptyString => r
          end in
        match skip_digits r0 with
        | Some r' => r'
        | None => s
        end
      else s
  | EmptyString => s
  end.

Definition skip_number (s : string) : option string :=
  match scan_int s with
  | Some (_, r) => Some (skip_exp (skip_frac r))
  | None => None
  end.

Fixpoint skip_once (fuel : nat) (s : string) : option string :=
  match fuel with
  | O => None
  | S fuel' =>
      match s with
      | EmptyString => None
      | String c r =>
          let n := code c in
          if (n =? 34)%N then skip_string r
          else if (n =? 123)%N then
            match skip_ws r with
            | String c1 r1 =>
                if (code c1 =? 125)%N then Some r1
                else skip_members fuel' (String c1 r1)
            | EmptyString => None
            end
          else if (n =? 91)%N then
            match skip_ws r with
            | String c1 r1 =>
                if (code c1 =? 93)%N then Some r1
                else skip_items fuel' (String c1 r1)
            | EmptyString => None
            end
          else if (n =? 110)%N then strip_prefix "null" s
          else if (n =? 116)%N then strip_prefix "true" s
          else if (n =? 102)%N then strip_prefix "false" s
          else
            match skip_number s with
            | Some r' => Some r'
            | None =>
                if (n =? 78)%N then strip_prefix "NaN" s
                else if (n =? 73)%N then strip_prefix "Infinity" s
                else if (n =? 45)%N then strip_prefix "-Infinity" s
                else None
            end
      end
  end

with skip_items (fuel : nat) (s : string) : option string :=
  match fuel with
  | O => None
  | S fuel' =>
      match skip_once fuel' s with
      | Some r =>
          match skip_ws r with
          | String c r1 =>
              if (code c =? 93)%N then Some r1
              else if (code c =? 44)%N then skip_items fuel' (skip_ws r1)
              else None
          | EmptyString => None
          end
      | None => None
      end
  end

with skip_members (fuel : nat) (s : string) : option string :=
  match fuel with
  | O => None
  | S fuel' =>
      match s with
      | String q r0 =>
          if (code q =? 34)%N then
            match skip_string r0 with
            | Some r =>
                match skip_ws r with
                | String c r1 =>
                    if (code c =? 58)%N then
                      match skip_once fuel' (skip_ws r1) with
                      | Some r2 =>
                          match skip_ws r2 with
                          | String c2 r3 =>
                              if (code c2 =? 125)%N then Some r3
                              else if (code c2 =? 44)%N then skip_members fuel' (skip_ws r3)
                              else None
                          | EmptyString => None
                          end
                      | None => None
                      end
                    else None
                | EmptyString => None
                end
            | None => None
            end
          else None
      | EmptyString => None
      end
  end.

(** The library reads the text into some value. *)
Definition valid (s : string) : bool :=
  let s0 := skip_ws s in
  match skip_once (S (String.length s0)) s0 with
  | Some r =>
      match skip_ws r with
      | EmptyString => true
      | String _ _ => false
      end
  | None => false
  end.

(** What [json.loads] does with a text: it returns a value that [json]
    holds, or it raises [JSONDecodeError], or it returns a value that
    [json] does not hold (one with a float, or with a character above
    255 in a string). *)
Inductive reading : Type :=
| Value (v : json)
| DecodeError
| Outside.

Definition loads (s : string) : reading :=
  match decode s with
  | Some v => Value v
  | None => if valid s then Outside else DecodeError
  end.

End Json.


(* ================================================================== *)
(** ** Python strings *)

Module PyStr.

Definition code (c : ascii) : N := N_of_ascii c.

(** [str.isspace] on one character of the Latin-1 range. *)
Definition isspace (c : ascii) : bool :=
  let n := code c in
  (((9 <=? n) && (n <=? 13)) || ((28 <=? n) && (n <=? 32))
   || (n =? 133) || (n =? 160))%N.

(** [str.lower] on one character of the Latin-1 range. *)
Definition lower_char (c : ascii) : ascii :=
  let n := code c in
  if (((65 <=? n) && (n <=? 90))
      || ((192 <=? n) && (n <=? 222) && negb (n =? 215)))%N
  then ascii_of_N (n + 32) else c.

Fixpoint lower (s : string) : string :=
  match s with
  | EmptyString => EmptyString
  | String c r => String (lower_char c) (lower r)
  end.

Fixpoint lstrip (s : string) : string :=
  match s with
  | String c r => if isspace c then lstrip r else s
  | EmptyString => s
  end.

Fixpoint rstrip (s : string) : string :=
  match s with
  | EmptyString => EmptyString
  | String c r =>
      match rstrip r with
      | EmptyString => if isspace c then EmptyString else String c EmptyString
      | r' => String c r'
      end
  end.

Definition strip (s : string) : string := rstrip (lstrip s).

End PyStr.

(* ================================================================== *)
(** ** Parsed HTML: the part of BeautifulSoup the program uses *)

Module Soup.

(** The value of an attribute: a string, or the list of the values of a
    multi-valued attribute such as [class]. *)
Inductive attr : Type :=
| AStr (s : string)
| AList (l : list string).

#[warnings="-register-all"]
Inductive node : Type :=
| NavigableString (s : string)
| Comment (s : string)
| Tag (name : string) (attrs : Dict.dict attr) (contents : list node).

(** The nodes below a node, in document order. *)
Fixpoint descendants (n : node) : list node :=
  match n with
  | Tag _ _ cs =>
      (fix go (l : list node) : list node :=
         match l with
         | [] => []
         | c :: l' => c :: (descendants c ++ go l')
         end) cs
  | _ => []
  end.

(** A search string against an attribute value: one of the values of a
    multi-valued attribute, or all of them joined by spaces. *)
Definition attr_matches (q : string) (a : attr) : bool :=
  match a with
  | AStr s => String.eqb s q
  | AList l => existsb (fun s => String.eqb s q) l || String.eqb (String.concat " " l) q
  end.

(** The tests of [find] and [find_all]: a tag name and attribute values. *)
Record criteria : Type := {
  by_name : option string;
  by_attrs : list (string * string)
}.

Definition matches (c : criteria) (n : node) : bool :=
  match n with
  | Tag t attrs _ =>
      match by_name c with
      | Some q => String.eqb t q
      | None => true
      end
      && forallb (fun kq =>
                    match Dict.get (fst kq) attrs with
                    | Some a => attr_matches (snd kq) a
                    | None => false
                    end) (by_attrs c)
  | _ => false
  end.

Definition find_all (c : criteria) (n : node) : list node :=
  filter (matches c) (descendants n).

Definition find (c : criteria) (n : node) : option node :=
  List.find (matches c) (descendants n).

Definition tag (t : string) : criteria := {| by_name := Some t; by_attrs := [] |}.
Definition class_ (q : string) : criteria := {| by_name := None; by_attrs := [("class", q)] |}.
Definition tag_class (t q : string) : criteria := {| by_name := Some t; by_attrs := [("class", q)] |}.
Definition attr_is (k q : string) : criteria := {| by_name := None; by_attrs := [(k, q)] |}.

(** [tag.get(key)] *)
Definition get (k : string) (n : node) : option attr :=
  match n with
  | Tag _ attrs _ => Dict.get k attrs
  | _ => None
  end.

(** [.text]: the strings below the node, comments left out. *)
Fixpoint text (n : node) : string :=
  match n with
  | NavigableString s => s
  | Comment _ => EmptyString
  | Tag _ _ cs => String.concat EmptyString (map text cs)
  end.

(** [.string]: the only string below a chain of only children. *)
Fixpoint string_ (n : node) : option string :=
  match n with
  | NavigableString s => Some s
  | Comment s => Some s
  | Tag _ _ [c] => string_ c
  | Tag _ _ _ => None
  end.

End Soup.

(* ================================================================== *)
(** ** Effects *)

(** The exceptions of Python that the program meets.  [Unrepresented] is
    none of them: it ends a run at a step whose result is a value that the
    types of the embedding do not hold (a cache file that decodes to a
    document with a float or with a character above 255).  Of such a run
    the embedding says nothing, instead of something that Python does not
    do; no handler of the program sees [Unrepresented]. *)
Inductive exn : Type :=
| AttributeError
| TypeError
| KeyError
| FileNotFoundError
| JSONDecodeError
| RequestException
| Unrepresented.

Inductive outcome (A : Type) : Type :=
| Ok (a : A)
| Raise (e : exn).
Arguments Ok {A} a.
Arguments Raise {A} e.

(** One call of [requests.get]. *)
Record request : Type := {
  req_url : string;
  req_params : Dict.dict json
}.

(** What the program can see and change.
    - [disk]: the contents of the file [CACHE_FILENAME], if it exists;
    - [CACHE_DICT]: the module-level dictionary of that name;
    - [web], [api]: what the network answers (the body of a page, the
      decoded JSON of an API response), [None] when the request fails;
    - [requests]: the requests sent so far, oldest first;
    - [stdout]: the lines printed so far, oldest first. *)
Record World : Type := {
  disk : option string;
  CACHE_DICT : Dict.dict json;
  web : string -> option string;
  api : string -> Dict.dict json -> option json;
  requests : list request;
  stdout : list string
}.

Definition M (A : Type) : Type := World -> outcome A * World.

Definition ret {A : Type} (a : A) : M A := fun w => (Ok a, w).

Definition bind {A B : Type} (m : M A) (k : A -> M B) : M B :=
  fun w =>
    match m w with
    | (Ok a, w') => k a w'
    | (Raise e, w') => (Raise e, w')
    end.

Notation "x <- m ;; k" := (bind m (fun x => k))
  (at level 61, m at next level, right associativity).
Notation "m ;;; k" := (bind m (fun _ => k))
  (at level 61, right associativity).

(** A pure step that may raise. *)
Definition lift {A : Type} (o : outcome A) : M A := fun w => (o, w).

Definition obind {A B : Type} (o : outcome A) (k : A -> outcome B) : outcome B :=
  match o with
  | Ok a => k a
  | Raise e => Raise e
  end.

Notation "x <~ o ;; k" := (obind o (fun x => k))
  (at level 61, o at next level, right associativity).

(** [try: body  except: handler] *)
Definition try_except {A : Type} (body : outcome A) (handler : A) : A :=
  match body with
  | Ok a => a
  | Raise _ => handler
  end.

Definition print (line : string) : M unit :=
  fun w =>
    (Ok tt, {| disk := disk w; CACHE_DICT := CACHE_DICT w; web := web w; api := api w;
               requests := requests w; stdout := stdout w ++ [line] |}).

Definition write_file (contents : string) : M unit :=
  fun w =>
    (Ok tt, {| disk := Some contents; CACHE_DICT := CACHE_DICT w; web := web w; api := api w;
               requests := requests w; stdout := stdout w |}).

Definition set_CACHE_DICT (d : Dict.dict json) : M unit :=
  fun w =>
    (Ok tt, {| disk := disk w; CACHE_DICT := d; web := web w; api := api w;
               requests := requests w; stdout := stdout w |}).

Definition send (r : request) (w : World) : World :=
  {| disk := disk w; CACHE_DICT := CACHE_DICT w; web := web w; api := api w;
     requests := requests w ++ [r]; stdout := stdout w |}.

(** [requests.get(url).text] *)
Definition requests_get_text (url : string) : M string :=
  fun w =>
    let w' := send {| req_url := url; req_params := Dict.empty |} w in
    match web w url with
    | Some body => (Ok body, w')
    | None => (Raise RequestException, w')
    end.

(** [requests.get(url, params=params).json()] *)
Definition requests_get_json (url : string) (params : Dict.dict json) : M json :=
  fun w =>
    let w' := send {| req_url := url; req_params := params |} w in
    match api w url params with
    | Some doc => (Ok doc, w')
    | None => (Raise RequestException, w')
    end.

(** The upstream site and API change; nothing else does. *)
Definition upstream_changes (web' : string -> option string)
    (api' : string -> Dict.dict json -> option json) (w : World) : World :=
  {| disk := disk w; CACHE_DICT := CACHE_DICT w; web := web'; api := api';
     requests := requests w; stdout := stdout w |}.

(** *** Operations on Python values *)

(** [v.keys()] *)
Definition py_keys (v : json) : outcome (Dict.dict json) :=
  match v with
  | JObj d => Ok d
  | _ => Raise AttributeError
  end.

(** [v[k]] for a string [k] *)
Definition py_getitem (v : json) (k : string) : outcome json :=
  match v with
  | JObj d =>
      match Dict.get k d with
      | Some x => Ok x
      | None => Raise KeyError
      end
  | _ => Raise TypeError
  end.

(** [for x in v]: the values the loop sees. *)
Definition py_iter (v : json) : outcome (list json) :=
  match v with
  | JArr l => Ok l
  | JObj d => Ok (map (fun kv => JStr (fst kv)) d)
  | JStr s => Ok (map (fun c => JStr (String c EmptyString)) (list_ascii_of_string s))
  | _ => Raise TypeError
  end.

(** A loop that appends one result per element and stops at the first
    exception. *)
Fixpoint for_each {A B : Type} (f : A -> M B) (l : list A) : M (list B) :=
  match l with
  | [] => ret []
  | x :: l' => y <- f x ;; ys <- for_each f l' ;; ret (y :: ys)
  end.

Fixpoint for_each_pure {A B : Type} (f : A -> outcome B) (l : list A) : outcome (list B) :=
  match l with
  | [] => Ok []
  | x :: l' => y <~ f x ;; ys <~ for_each_pure f l' ;; Ok (y :: ys)
  end.

(* ================================================================== *)
(** ** The program *)

Definition CACHE_FILENAME : string := "nps_cache.json".

Definition BASEURL : string := "https://www.nps.gov".

(** [class NationalSite] *)
Record NationalSite : Type := {
  category : string;
  name : string;
  address : string;
  zipcode : string;
  phone : string
}.

Definition info (self : NationalSite) : string :=
  name self ++ " (" ++ category self ++ "): " ++ address self ++ " " ++ zipcode self.

(** *** The cache file *)

(** [open(CACHE_FILENAME, 'r').read()] *)
Definition read_file (w : World) : outcome string :=
  match disk w with
  | Some contents => Ok contents
  | None => Raise FileNotFoundError
  end.

Definition json_loads (s : string) : outcome json :=
  match Json.loads s with
  | Json.Value v => Ok v
  | Json.DecodeError => Raise JSONDecodeError
  | Json.Outside => Raise Unrepresented
  end.

(** What [open_cache] finds in a world: the bare [except] gives the empty
    dictionary for a missing file and for a text that is not JSON. *)
Definition loaded (w : World) : outcome json :=
  match (cache_contents <~ read_file w ;; json_loads cache_contents) with
  | Ok cache_dict => Ok cache_dict
  | Raise Unrepresented => Raise Unrepresented
  | Raise _ => Ok (JObj Dict.empty)
  end.

Definition open_cache : M json := fun w => (loaded w, w).

Definition save_cache (cache_dict : json) : M unit :=
  let dumped_json_cache := Json.dumps cache_dict in
  write_file dumped_json_cache.

(** The name [CACHE_DICT] is assigned in the body, so it is a local
    variable of the function: the module-level dictionary is neither read
    nor written here. *)
Definition make_request_with_cache (baseurl : string) : M json :=
  local_CACHE_DICT <- open_cache ;;
  keys <- lift (py_keys local_CACHE_DICT) ;;
  if Dict.mem baseurl keys then
    print "Using cache" ;;;
    lift (py_getitem local_CACHE_DICT baseurl)
  else
    print "Fetching" ;;;
    body <- requests_get_text baseurl ;;
    let local_CACHE_DICT := JObj (Dict.set baseurl (JStr body) keys) in
    save_cache local_CACHE_DICT ;;;
    lift (py_getitem local_CACHE_DICT baseurl).

Definition make_request (baseurl : string) (params : Dict.dict json) : M json :=
  requests_get_json baseurl params.

(** *** Extraction from pages *)

Definition find_in (c : Soup.criteria) (o : option Soup.node) : outcome (option Soup.node) :=
  match o with
  | Some n => Ok (Soup.find c n)
  | None => Raise AttributeError
  end.

Definition find_all_in (c : Soup.criteria) (o : option Soup.node) : outcome (list Soup.node) :=
  match o with
  | Some n => Ok (Soup.find_all c n)
  | None => Raise AttributeError
  end.

Definition text_of (o : option Soup.node) : outcome string :=
  match o with
  | Some n => Ok (Soup.text n)
  | None => Raise AttributeError
  end.

(** [tag.get('href')] on the way into a string concatenation. *)
Definition href_of (o : option Soup.node) : outcome string :=
  match o with
  | Some n =>
      match Soup.get "href" n with
      | Some (Soup.AStr h) => Ok h
      | _ => Raise TypeError
      end
  | None => Raise AttributeError
  end.

(** [link.string.lower()] *)
Definition string_lower (link : Soup.node) : outcome string :=
  match Soup.string_ link with
  | Some t => Ok (PyStr.lower t)
  | None => Raise AttributeError
  end.

Fixpoint fold_outcome {A B : Type} (f : A -> B -> outcome A) (acc : A) (l : list B) : outcome A :=
  match l with
  | [] => Ok acc
  | x :: l' => acc' <~ f acc x ;; fold_outcome f acc' l'
  end.

(** The body of the loop of [build_state_url_dict]. *)
Definition state_link (state_dict : Dict.dict string) (link : Soup.node) : outcome (Dict.dict string) :=
  state_url <~ href_of (Some link) ;;
  let url := BASEURL ++ state_url in
  state <~ string_lower link ;;
  Ok (Dict.set state url state_dict).

Definition state_links (soup : Soup.node) : outcome (list Soup.node) :=
  let search_ul := Soup.find (Soup.tag_class "ul" "dropdown-menu SearchBar-keywordSearch") soup in
  find_all_in (Soup.tag "a") search_ul.

Definition state_dict_of_page (soup : Soup.node) : outcome (Dict.dict string) :=
  links_list <~ state_links soup ;;
  fold_outcome state_link Dict.empty links_list.

(** The fields of a detail page, after the page is parsed. *)
Definition site_of_page (soup : Soup.node) : outcome NationalSite :=
  let header := Soup.find (Soup.class_ "Hero-titleContainer clearfix") soup in
  let footer := Soup.find (Soup.class_ "vcard") soup in
  let category :=
    try_except
      (d <~ find_in (Soup.class_ "Hero-designation") header ;;
       t <~ text_of d ;; Ok (PyStr.strip t))
      "No category" in
  name <~ (d <~ find_in (Soup.class_ "Hero-title") header ;;
           t <~ text_of d ;; Ok (PyStr.strip t)) ;;
  locality <~ (d <~ find_in (Soup.attr_is "itemprop" "addressLocality") footer ;; text_of d) ;;
  region <~ (d <~ find_in (Soup.attr_is "itemprop" "addressRegion") footer ;; text_of d) ;;
  let address := locality ++ ", " ++ region in
  zipcode <~ (d <~ find_in (Soup.class_ "postal-code") footer ;;
              t <~ text_of d ;; Ok (PyStr.strip t)) ;;
  phone <~ (d <~ find_in (Soup.class_ "tel") footer ;;
            t <~ text_of d ;; Ok (PyStr.strip t)) ;;
  Ok {| category := category; name := name; address := address;
        zipcode := zipcode; phone := phone |}.

(** The headings of a state page and the address each one leads to. *)
Definition parks_of_page (soup : Soup.node) : outcome (list Soup.node) :=
  find_all_in (Soup.tag "h3") (Soup.find (Soup.attr_is "id" "list_parks") soup).

Definition park_url (park : Soup.node) : outcome string :=
  let park_a := Soup.find (Soup.tag "a") park in
  park_href <~ href_of park_a ;;
  Ok (BASEURL ++ park_href ++ "index.htm").

(** *** The results of the places API, as the main loop shows them *)

Record NearbyPlace : Type := {
  place_name : json;
  place_category : json;
  place_address : json;
  place_city : json
}.

(** [x if x != '' else sentinel] *)
Definition unless_blank (x : json) (sentinel : string) : json :=
  match x with
  | JStr EmptyString => JStr sentinel
  | _ => x
  end.

(** The body of the loop over the results: the four values that go into
    the printed line. *)
Definition nearby_place (info : json) : outcome NearbyPlace :=
  name <~ py_getitem info "name" ;;
  field <~ py_getitem info "fields" ;;
  c <~ py_getitem field "group_sic_code_name" ;;
  let category := unless_blank c "no category" in
  a <~ py_getitem field "address" ;;
  let address := unless_blank a "no address" in
  t <~ py_getitem field "city" ;;
  let city := unless_blank t "no city" in
  Ok {| place_name := name; place_category := category;
        place_address := address; place_city := city |}.

(** [state_dict[state.lower()]] guarded by [state.lower() in state_dict.keys()]. *)
Definition lookup_state (state : string) (state_dict : Dict.dict string) : option string :=
  Dict.get (PyStr.lower state) state_dict.

Section Program.

(** [secrets.API_KEY], from a file that is not part of the repository. *)
Variable API_KEY : string.

(** The parser behind [BeautifulSoup(markup, 'html.parser')]. *)
Variable html_parser : string -> Soup.node.

Definition BeautifulSoup (markup : json) : outcome Soup.node :=
  match markup with
  | JStr s => Ok (html_parser s)
  | _ => Raise TypeError
  end.

Definition build_state_url_dict : M (Dict.dict string) :=
  let extension := "/index.htm" in
  html <- make_request_with_cache (BASEURL ++ extension) ;;
  soup <- lift (BeautifulSoup html) ;;
  lift (state_dict_of_page soup).

Definition get_site_instance (site_url : string) : M NationalSite :=
  html <- make_request_with_cache site_url ;;
  soup <- lift (BeautifulSoup html) ;;
  lift (site_of_page soup).

Definition get_sites_for_state (state_url : string) : M (list NationalSite) :=
  response <- make_request_with_cache state_url ;;
  soup <- lift (BeautifulSoup response) ;;
  parks <- lift (parks_of_page soup) ;;
  for_each (fun park =>
              park_url <- lift (park_url park) ;;
              get_site_instance park_url) parks.

Definition places_url : string := "http://www.mapquestapi.com/search/v2/radius".

Definition places_params (site_object : NationalSite) : Dict.dict json :=
  [("key", JStr API_KEY);
   ("origin", JStr (zipcode site_object));
   ("radius", JNum 10);
   ("maxMatches", JNum 10);
   ("ambiguities", JStr "ignore");
   ("outFormat", JStr "json")].

Definition get_CACHE_DICT : M (Dict.dict json) := fun w => (Ok (CACHE_DICT w), w).

(** Here [CACHE_DICT] is the module-level dictionary. *)
Definition get_nearby_places (site_object : NationalSite) : M json :=
  let url := places_url in
  let params := places_params site_object in
  let unique_key := zipcode site_object in
  global_dict <- get_CACHE_DICT ;;
  if Dict.mem unique_key global_dict then
    print "Using Cache" ;;;
    lift (py_getitem (JObj global_dict) unique_key)
  else
    print "Fetching" ;;;
    doc <- make_request url params ;;
    global_dict <- get_CACHE_DICT ;;
    set_CACHE_DICT (Dict.set unique_key doc global_dict) ;;;
    global_dict <- get_CACHE_DICT ;;
    save_cache (JObj global_dict) ;;;
    lift (py_getitem (JObj global_dict) unique_key).

(** The places near a site, as the main loop goes through them. *)
Definition nearby_places (place : NationalSite) : M (list NearbyPlace) :=
  doc <- get_nearby_places place ;;
  result <- lift (py_getitem doc "searchResults") ;;
  infos <- lift (py_iter result) ;;
  lift (for_each_pure nearby_place infos).

(** The last line of the main block, reached when the user leaves at the
    first prompt: [save_cache(CACHE_DICT)], with the module-level
    dictionary. *)
Definition save_at_exit : M unit :=
  global_dict <- get_CACHE_DICT ;;
  save_cache (JObj global_dict).

End Program.

(* ================================================================== *)
(** ** The vocabulary of the specification *)

(** *** The store *)

(** The URL is a key of the store on disk. *)
Definition in_store (url : string) (w : World) : bool :=
  match loaded w with
  | Ok (JObj d) => Dict.mem url d
  | _ => false
  end.

(** What the cache file binds a key to. *)
Definition stored (key : string) (w : World) : option json :=
  match loaded w with
  | Ok (JObj d) => Dict.get key d
  | _ => None
  end.

(** The request for a page. *)
Definition page_request (url : string) : request :=
  {| req_url := url; req_params := Dict.empty |}.

(** The number of requests sent between two worlds. *)
Definition requests_between (w w' : World) : nat :=
  List.length (requests w') - List.length (requests w).

(** What a fetch of the address returns as the world stands: the content
    in the cache file, or else the answer of the site. *)
Definition page_content (w : World) (url : string) : outcome json :=
  match loaded w with
  | Ok (JObj d) =>
      match Dict.get url d with
      | Some v => Ok v
      | None =>
          match web w url with
          | Some body => Ok (JStr body)
          | None => Raise RequestException
          end
      end
  | Ok _ => Raise AttributeError
  | Raise e => Raise e
  end.

(** A call of one of the functions that read pages. *)
Inductive page_call : Type :=
| Fetch (url : string)
| BuildIndex
| SiteInstance (site_url : string)
| SitesForState (state_url : string).

Definition run_page_call (html_parser : string -> Soup.node) (c : page_call) : M unit :=
  match c with
  | Fetch url => make_request_with_cache url ;;; ret tt
  | BuildIndex => build_state_url_dict html_parser ;;; ret tt
  | SiteInstance site_url => get_site_instance html_parser site_url ;;; ret tt
  | SitesForState state_url => get_sites_for_state html_parser state_url ;;; ret tt
  end.

(** The calls one after the other, up to the first exception. *)
Fixpoint run_page_calls (html_parser : string -> Soup.node) (cs : list page_call) : M unit :=
  match cs with
  | [] => ret tt
  | c :: cs' => run_page_call html_parser c ;;; run_page_calls html_parser cs'
  end.

(** C2 as the specification words it: two calls in a row, one request. *)
Definition two_calls_one_request : Prop :=
  forall (url : string) (w w1 w2 : World) (c1 c2 : json),
    make_request_with_cache url w = (Ok c1, w1) ->
    make_request_with_cache url w1 = (Ok c2, w2) ->
    requests_between w w2 = 1 /\ c2 = c1.

(** *** Detail pages *)

(** The block has an element that the search finds. *)
Definition has_marker (c : Soup.criteria) (block : option Soup.node) : bool :=
  match block with
  | Some n => match Soup.find c n with Some _ => true | None => false end
  | None => false
  end.

Definition header_of (soup : Soup.node) : option Soup.node :=
  Soup.find (Soup.class_ "Hero-titleContainer clearfix") soup.

Definition footer_of (soup : Soup.node) : option Soup.node :=
  Soup.find (Soup.class_ "vcard") soup.

(** The site that the detail page at the address describes. *)
Definition site_at (html_parser : string -> Soup.node) (w : World) (url : string) :
    outcome NationalSite :=
  html <~ page_content w url ;;
  soup <~ BeautifulSoup html_parser html ;;
  site_of_page soup.

(** C3 as the specification words it: without a telephone in the contact
    block of an otherwise complete page, a record with an empty [phone]. *)
Definition phone_defaults_to_empty : Prop :=
  forall (html_parser : string -> Soup.node) (site_url html : string) (w w1 : World),
    make_request_with_cache site_url w = (Ok (JStr html), w1) ->
    let soup := html_parser html in
    has_marker (Soup.class_ "Hero-title") (header_of soup) = true ->
    has_marker (Soup.attr_is "itemprop" "addressLocality") (footer_of soup) = true ->
    has_marker (Soup.attr_is "itemprop" "addressRegion") (footer_of soup) = true ->
    has_marker (Soup.class_ "postal-code") (footer_of soup) = true ->
    has_marker (Soup.class_ "tel") (footer_of soup) = false ->
    exists site,
      fst (get_site_instance html_parser site_url w) = Ok site /\ phone site = EmptyString.

(** *** The listing of a state *)

(** The place of a node below another: the indices of the children to go
    through on the way down. *)
Definition place : Type := list nat.

Fixpoint node_at (n : Soup.node) (p : place) : option Soup.node :=
  match p with
  | [] => Some n
  | i :: p' =>
      match n with
      | Soup.Tag _ _ cs =>
          match nth_error cs i with
          | Some c => node_at c p'
          | None => None
          end
      | _ => None
      end
  end.

(** Document order: a node comes before the nodes below it, and with them
    before its later siblings and the nodes below those. *)
Fixpoint precedes (p q : place) : bool :=
  match p, q with
  | [], _ :: _ => true
  | i :: p', j :: q' => (i <? j)%nat || ((i =? j)%nat && precedes p' q')
  | _, _ => false
  end.

Definition is_heading (n : Soup.node) : bool :=
  match n with
  | Soup.Tag t _ _ => String.eqb t "h3"
  | _ => false
  end.

(** The places of the headings below a node, from the first to the last of
    the document. *)
Definition headings_at (container : Soup.node) (places : list place) : Prop :=
  StronglySorted (fun p q => precedes p q = true) places /\
  forall p, In p places <->
            p <> [] /\ exists h, node_at container p = Some h /\ is_heading h = true.

(** The record that belongs to a heading: the site of the page that the
    first anchor of the heading leads to. *)
Definition site_of_heading (html_parser : string -> Soup.node) (w : World)
    (heading : Soup.node) (site : NationalSite) : Prop :=
  exists a href,
    Soup.find (Soup.tag "a") heading = Some a /\
    Soup.get "href" a = Some (Soup.AStr href) /\
    site_at html_parser w (BASEURL ++ href ++ "index.htm") = Ok site.

(** *** Nearby places *)

Definition is_blank (x : json) : bool :=
  match x with
  | JStr s => String.eqb s EmptyString
  | _ => false
  end.

(** A result of the API and the four values shown for it: the name as it
    is, each of the other three replaced by its sentinel when it is blank. *)
Definition normalised (info : json) (p : NearbyPlace) : Prop :=
  exists n f c a t,
    py_getitem info "name" = Ok n /\
    py_getitem info "fields" = Ok f /\
    py_getitem f "group_sic_code_name" = Ok c /\
    py_getitem f "address" = Ok a /\
    py_getitem f "city" = Ok t /\
    place_name p = n /\
    place_category p = (if is_blank c then JStr "no category" else c) /\
    place_address p = (if is_blank a then JStr "no address" else a) /\
    place_city p = (if is_blank t then JStr "no city" else t).

(** *** The index of the states *)

Definition index_url : string := BASEURL ++ "/index.htm".

(** The key and the value that an anchor of the menu stands for: its text
    in lower case, its [href] after the base address. *)
Definition binds (link : Soup.node) (state url : string) : Prop :=
  string_lower link = Ok state /\
  exists href, href_of (Some link) = Ok href /\ url = BASEURL ++ href.

(** C8 as the specification words it: every anchor of the menu is bound in
    the result, its text in lower case to its own address. *)
Definition every_anchor_bound : Prop :=
  forall (html_parser : string -> Soup.node) (w w' : World) (state_dict : Dict.dict string)
         (html : string) (links : list Soup.node),
    build_state_url_dict html_parser w = (Ok state_dict, w') ->
    page_content w index_url = Ok (JStr html) ->
    state_links (html_parser html) = Ok links ->
    forall link state url,
      In link links -> binds link state url -> Dict.get state state_dict = Some url.

(* ================================================================== *)
(** ** Worlds and pages for the examples *)

Definition example_store : Dict.dict json :=
  [("https://www.nps.gov/index.htm", JStr "<html><body>National Park Service</body></html>");
   ("49931", JObj [("searchResults", JArr [JObj [("name", JStr "Keweenaw Co-op")]]);
                   ("resultsCount", JNum 1)])].

Definition fresh_world : World :=
  {| disk := None; CACHE_DICT := Dict.empty;
     web := fun url => Some ("<html>" ++ url ++ "</html>");
     api := fun _ _ => Some (JObj [("searchResults", JArr [])]);
     requests := []; stdout := [] |}.

(** A world whose cache file was written by an earlier run. *)
Definition warm_world : World :=
  {| disk := Some (Json.dumps (JObj example_store)); CACHE_DICT := Dict.empty;
     web := fun url => Some ("<html>" ++ url ++ "</html>");
     api := fun _ _ => Some (JObj [("searchResults", JArr [])]);
     requests := []; stdout := [] |}.

Definition isle_royale : NationalSite :=
  {| category := "National Park"; name := "Isle Royale"; address := "Houghton, MI";
     zipcode := "49931"; phone := "(906) 482-0984" |}.

Module Pages.

Definition el (t : string) (attrs : Dict.dict Soup.attr) (cs : list Soup.node) : Soup.node :=
  Soup.Tag t attrs cs.

Definition classes (l : list string) : Dict.dict Soup.attr := [("class", Soup.AList l)].

Definition span_class (c text : string) : Soup.node :=
  el "span" (classes [c]) [Soup.NavigableString text].

Definition span_prop (p text : string) : Soup.node :=
  el "span" [("itemprop", Soup.AStr p)] [Soup.NavigableString text].

Definition document (cs : list Soup.node) : Soup.node := el "[document]" [] cs.

(** A detail page; the designation and the telephone can be left out. *)
Definition detail (title : string) (designation : option string) (locality region zip : string)
    (tel : option string) : Soup.node :=
  document
    [el "div" (classes ["Hero-titleContainer"; "clearfix"])
       (el "a" (classes ["Hero-title"]) [Soup.NavigableString title]
        :: match designation with
           | Some d => [span_class "Hero-designation" d]
           | None => []
           end);
     el "div" (classes ["vcard"])
       ([span_prop "addressLocality" locality;
         span_prop "addressRegion" region;
         span_class "postal-code" zip]
        ++ match tel with
           | Some t => [span_class "tel" t]
           | None => []
           end)%list].

(** The text of a page, attribute values between apostrophes. *)
Definition render_attr (kv : string * Soup.attr) : string :=
  " " ++ fst kv ++ "='" ++
  match snd kv with
  | Soup.AStr v => v
  | Soup.AList l => String.concat " " l
  end ++ "'".

Fixpoint render (n : Soup.node) : string :=
  match n with
  | Soup.NavigableString t => t
  | Soup.Comment t => "<!--" ++ t ++ "-->"
  | Soup.Tag t attrs cs =>
      let inner := String.concat EmptyString (map render cs) in
      if String.eqb t "[document]" then inner
      else "<" ++ t ++ String.concat EmptyString (map render_attr attrs) ++ ">"
           ++ inner ++ "</" ++ t ++ ">"
  end.

Definition isle_royale_page : Soup.node :=
  detail "Isle Royale" (Some " National Park ") "Houghton" "MI" " 49931 " (Some "(906) 482-0984").

Definition no_designation_page : Soup.node :=
  detail "North Country" None "Lowell" "MI" "49331" (Some "(616) 319-7906").

Definition no_phone_page : Soup.node :=
  detail "Keweenaw" (Some "National Historical Park") "Calumet" "MI" "49913" None.

(** A state page with its list of parks. *)
Definition park_heading (href title : string) : Soup.node :=
  el "h3" [] [el "a" [("href", Soup.AStr href)] [Soup.NavigableString title]].

Definition michigan_page : Soup.node :=
  document
    [el "h3" [] [Soup.NavigableString "Parks"];
     el "ul" [("id", Soup.AStr "list_parks")]
       [el "li" [] [park_heading "/kewe/" "Keweenaw"];
        el "li" [] [park_heading "/isro/" "Isle Royale"];
        el "li" [] [park_heading "/noco/" "North Country"]]].

(** The front page with its menu of states. *)
Definition state_anchor (href title : string) : Soup.node :=
  el "li" [] [el "a" [("href", Soup.AStr href)] [Soup.NavigableString title]].

Definition index_page : Soup.node :=
  document
    [el "ul" (classes ["dropdown-menu"; "SearchBar-keywordSearch"])
       [state_anchor "/state/mi/index.htm" "Michigan";
        state_anchor "/state/mn/index.htm" "Minnesota"]].

(** A menu that names one state twice, in two spellings. *)
Definition twice_page : Soup.node :=
  document
    [el "ul" (classes ["dropdown-menu"; "SearchBar-keywordSearch"])
       [state_anchor "/state/mi/index.htm" "Michigan";
        state_anchor "/state/mi/list.htm" "MICHIGAN"]].

(** A complete detail page stands in for the pages of the parks that the
    examples fetch. *)
Definition keweenaw_page : Soup.node :=
  detail "Keweenaw" (Some "National Historical Park") "Calumet" "MI" "49913"
    (Some "(906) 337-3168").

Definition site_pages : list (string * Soup.node) :=
  [("https://www.nps.gov/index.htm", index_page);
   ("https://www.nps.gov/state/mi/index.htm", michigan_page);
   ("https://www.nps.gov/isro/index.htm", isle_royale_page);
   ("https://www.nps.gov/noco/index.htm", no_designation_page);
   ("https://www.nps.gov/kewe/index.htm", keweenaw_page);
   ("https://www.nps.gov/kewe/contact.htm", no_phone_page);
   ("https://www.nps.gov/twice.htm", twice_page)].

(** The site: every page above at its address, as text. *)
Definition site_web (url : string) : option string :=
  match Dict.get url site_pages with
  | Some page => Some (render page)
  | None => None
  end.

(** A parser for the pages above: the tree whose text the markup is. *)
Definition parser (markup : string) : Soup.node :=
  match List.find (fun kv => String.eqb (render (snd kv)) markup) site_pages with
  | Some kv => snd kv
  | None => document []
  end.

(** The front page has become the menu that names Michigan twice. *)
Definition twice_world : World :=
  {| disk := None; CACHE_DICT := Dict.empty;
     web := fun _ => Some (render twice_page);
     api := fun _ _ => None; requests := []; stdout := [] |}.

(** A later run: the cache file of an earlier run is there, the
    module-level dictionary is empty again. *)
Definition later_world : World :=
  {| disk := Some (Json.dumps (JObj example_store)); CACHE_DICT := Dict.empty;
     web := site_web;
     api := fun _ _ => Some (JObj [("searchResults", JArr [])]);
     requests := []; stdout := [] |}.

(** A process that starts without a cache file. *)
Definition cold_world : World :=
  {| disk := None; CACHE_DICT := Dict.empty; web := site_web;
     api := fun _ _ => None; requests := []; stdout := [] |}.

End Pages.

Definition michigan_sites : list NationalSite :=
  [{| category := "National Historical Park"; name := "Keweenaw";
      address := "Calumet, MI"; zipcode := "49913"; phone := "(906) 337-3168" |};
   isle_royale;
   {| category := "No category"; name := "North Country";
      address := "Lowell, MI"; zipcode := "49331"; phone := "(616) 319-7906" |}].

Definition places_doc : json :=
  JObj [("searchResults",
         JArr [JObj [("name", JStr "Keweenaw Co-op");
                     ("fields", JObj [("group_sic_code_name", JStr "Grocers");
                                      ("address", JStr EmptyString);
                                      ("city", JStr EmptyString)])];
               JObj [("name", JStr "Quincy Mine");
                     ("fields", JObj [("group_sic_code_name", JStr EmptyString);
                                      ("address", JStr "49750 US-41");
                                      ("city", JStr "Hancock")])]])].

Definition places_world : World :=
  {| disk := None; CACHE_DICT := Dict.empty; web := fun _ => None;
     api := fun _ _ => Some places_doc; requests := []; stdout := [] |}.

Definition places_shown : list NearbyPlace :=
  [{| place_name := JStr "Keweenaw Co-op"; place_category := JStr "Grocers";
      place_address := JStr "no address"; place_city := JStr "no city" |};
   {| place_name := JStr "Quincy Mine"; place_category := JStr "no category";
      place_address := JStr "49750 US-41"; place_city := JStr "Hancock" |}].

(* ================================================================== *)
(** ** Facts about the [json] module *)

Module JsonFacts.
Import Json.

(** Induction over documents, with the nested lists unfolded. *)
Section JsonInd.
  Variable P : json -> Prop.
  Hypothesis HNull : P JNull.
  Hypothesis HBool : forall b, P (JBool b).
  Hypothesis HNum : forall z, P (JNum z).
  Hypothesis HStr : forall s, P (JStr s).
  Hypothesis HArr : forall l, Forall P l -> P (JArr l).
  Hypothesis HObj : forall m, Forall (fun kv => P (snd kv)) m -> P (JObj m).

Fixpoint json_rect' (v : json) : P v :=
    match v with
    | JNull => HNull
    | JBool b => HBool b
    | JNum z => HNum z
    | JStr s => HStr s
    | JArr l =>
        HArr l ((fix go (l : list json) : Forall P l :=
                   match l with
                   | [] => Forall_nil _
                   | x :: l' => Forall_cons x (json_rect' x) (go l')
                   end) l)
    | JObj m =>
        HObj m ((fix go (m : list (string * json)) : Forall (fun kv => P (snd kv)) m :=
                   match m with
                   | [] => Forall_nil _
                   | kv :: m' => Forall_cons kv (json_rect' (snd kv)) (go m')
                   end) m)
    end.
End JsonInd.

(** *** Strings *)

Lemma scanstring_escape_char (c : ascii) (t : string) :
  scanstring (escape_char c ++ t) =
  match scanstring t with
  | Some (u, r) => Some (String c u, r)
  | None => None
  end.
Proof.
  destruct c as [[] [] [] [] [] [] [] []]; reflexivity.
Qed.

Lemma append_assoc (a b c : string) : (a ++ b) ++ c = a ++ (b ++ c).
Proof.
  induction a as [|x a IH]; simpl; [reflexivity | now rewrite IH].
Qed.

Lemma scanstring_escape (s rest : string) :
  scanstring (escape s ++ String quote rest) = Some (s, rest).
Proof.
  induction s as [|c s IH]; simpl.
  - reflexivity.
  - rewrite append_assoc, scanstring_escape_char, IH. reflexivity.
Qed.

(** *** Integers *)

Definition starts_digit (s : string) : bool :=
  match s with
  | String c _ => is_digit c
  | EmptyString => false
  end.

Lemma span_digits_stop (s : string) :
  starts_digit s = false -> span_digits s = (EmptyString, s).
Proof.
  destruct s as [|c s]; simpl; [reflexivity | intros ->; reflexivity].
Qed.

Lemma span_digits_uint (u : uint) (rest : string) :
  starts_digit rest = false ->
  span_digits (NilEmpty.string_of_uint u ++ rest) = (NilEmpty.string_of_uint u, rest).
Proof.
  intros Hr. induction u; simpl;
    try (rewrite IHu; reflexivity).
  now apply span_digits_stop.
Qed.

(** The decimal digits of a positive number do not start with a zero. *)
Lemma to_uint_head (p : positive) :
  match Pos.to_uint p with
  | Nil | D0 _ => False
  | _ => True
  end.
Proof.
  pose proof (DecimalPos.Unsigned.to_of (Pos.to_uint p)) as H.
  rewrite DecimalPos.Unsigned.of_to in H. simpl in H.
  pose proof (DecimalPos.Unsigned.to_uint_nonnil p) as Hn.
  pose proof (DecimalPos.Unsigned.to_uint_nonzero p) as Hz.
  destruct (Pos.to_uint p) as [|u|u|u|u|u|u|u|u|u|u] eqn:E; try exact I.
  - now apply Hn.
  - rewrite DecimalFacts.unorm_D0 in H.
    unfold unorm in H.
    pose proof (DecimalFacts.nzhead_nonzero u) as Hh.
    destruct (nzhead u) eqn:Eu.
    + apply Hz. rewrite H. reflexivity.
    + now apply (Hh u0).
    + discriminate. + discriminate. + discriminate. + discriminate.
    + discriminate. + discriminate. + discriminate. + discriminate.
    + discriminate.
Qed.

Definition nonzero_head (u : uint) : Prop :=
  match u with
  | Nil | D0 _ => False
  | _ => True
  end.

Lemma scan_nat_uint (u : uint) (rest : string) :
  nonzero_head u ->
  starts_digit rest = false ->
  scan_nat (NilEmpty.string_of_uint u ++ rest) = Some (N.of_uint u, rest).
Proof.
  intros Hu Hr.
  pose proof (span_digits_uint u rest Hr) as Hs.
  pose proof (NilEmpty.usu u) as Hu2.
  destruct u; try contradiction;
    cbn [NilEmpty.string_of_uint append] in *;
    unfold scan_nat; rewrite Hs, Hu2; reflexivity.
Qed.

Lemma scan_nat_pos (p : positive) (rest : string) :
  starts_digit rest = false ->
  scan_nat (NilEmpty.string_of_uint (Pos.to_uint p) ++ rest) = Some (Npos p, rest).
Proof.
  intros Hr. rewrite scan_nat_uint; trivial.
  - unfold N.of_uint. now rewrite DecimalPos.Unsigned.of_to.
  - apply to_uint_head.
Qed.

Lemma scan_int_dumps (z : Z) (rest : string) :
  starts_digit rest = false ->
  scan_int (dumps_int z ++ rest) = Some (z, rest).
Proof.
  intros Hr. destruct z as [|p|p]; cbn [dumps_int].
  - reflexivity.
  - pose proof (scan_nat_pos p rest Hr) as H.
    pose proof (to_uint_head p) as Hh.
    destruct (Pos.to_uint p); try contradiction;
      cbn [NilEmpty.string_of_uint append] in *;
      unfold scan_int; rewrite H; reflexivity.
  - cbn [append]. unfold scan_int. cbn [code N_of_ascii N.eqb].
    rewrite scan_nat_pos by trivial. reflexivity.
Qed.

(** *** Documents *)

Fixpoint size (v : json) : nat :=
  match v with
  | JArr l => S (list_sum (map (fun x => S (size x)) l))
  | JObj m => S (list_sum (map (fun kv => S (size (snd kv))) m))
  | _ => 1
  end.

Lemma dumps_arr (l : list json) : dumps (JArr l) = String "[" (dumps_items l).
Proof. reflexivity. Qed.

Lemma dumps_obj (m : list (string * json)) : dumps (JObj m) = String "{" (dumps_members m).
Proof. reflexivity. Qed.

(** What a value can start with: no blank, no closing bracket, no comma. *)
Definition opens_value (c : ascii) : bool :=
  negb (is_ws c) && negb (code c =? 93)%N && negb (code c =? 125)%N.

Lemma dumps_head (v : json) :
  exists c t, dumps v = String c t /\ opens_value c = true.
Proof.
  destruct v as [|[]|z|s|l|m]; try (do 2 eexists; split; reflexivity).
  destruct z as [|p|p]; try (do 2 eexists; split; reflexivity).
  pose proof (to_uint_head p) as H. cbn [dumps dumps_int].
  destruct (Pos.to_uint p); try contradiction;
    do 2 eexists; split; reflexivity.
Qed.

Lemma skip_ws_open (c : ascii) (t : string) :
  opens_value c = true -> skip_ws (String c t) = String c t.
Proof.
  unfold opens_value. intros H. simpl.
  destruct (is_ws c); [discriminate | reflexivity].
Qed.

Lemma skip_ws_dumps (v : json) (rest : string) :
  skip_ws (dumps v ++ rest) = dumps v ++ rest.
Proof.
  destruct (dumps_head v) as (c & t & -> & H). now apply skip_ws_open.
Qed.

(** *** Dictionaries with distinct keys *)

Lemma existsb_eqb_In (k : string) (l : list string) :
  existsb (String.eqb k) l = true <-> In k l.
Proof.
  rewrite existsb_exists. split.
  - intros (x & Hx & E). apply String.eqb_eq in E. now subst.
  - intros H. exists k. split; [assumption | apply String.eqb_refl].
Qed.

Lemma distinct_NoDup (l : list string) : distinct l = true <-> NoDup l.
Proof.
  induction l as [|k l IH]; simpl.
  - split; [constructor | reflexivity].
  - rewrite andb_true_iff, negb_true_iff, IH. split.
    + intros [H1 H2]. constructor; [|assumption].
      intros Hin. apply existsb_eqb_In in Hin. congruence.
    + intros H. inversion H as [|? ? Hn Hd]; subst. split; [|assumption].
      destruct (existsb (String.eqb k) l) eqn:E; [|reflexivity].
      apply existsb_eqb_In in E. contradiction.
Qed.

Lemma set_fresh {V : Type} (k : string) (v : V) (d : Dict.dict V) :
  ~ In k (map fst d) -> Dict.set k v d = (d ++ [(k, v)])%list.
Proof.
  induction d as [|[k' v'] d IH]; simpl; intros H.
  - reflexivity.
  - destruct (String.eqb k k') eqn:E.
    + apply String.eqb_eq in E. subst. tauto.
    + rewrite IH; tauto.
Qed.

Lemma of_pairs_acc {V : Type} (ps acc : list (string * V)) :
  NoDup (map fst (acc ++ ps)%list) ->
  fold_left (fun d kv => Dict.set (fst kv) (snd kv) d) ps acc = (acc ++ ps)%list.
Proof.
  revert acc. induction ps as [|[k v] ps IH]; intros acc H; simpl.
  - now rewrite app_nil_r.
  - rewrite set_fresh.
    + rewrite IH; rewrite <- app_assoc; [reflexivity | exact H].
    + rewrite map_app in H. simpl in H. apply NoDup_remove_2 in H.
      intros Hin. apply H. apply in_or_app. now left.
Qed.

Lemma of_pairs_distinct {V : Type} (ps : list (string * V)) :
  distinct (map fst ps) = true -> Dict.of_pairs ps = ps.
Proof.
  intros H. apply distinct_NoDup in H. unfold Dict.of_pairs.
  now rewrite of_pairs_acc.
Qed.

(** *** The scanner on the text of [dumps] *)

Lemma scan_once_int (f : nat) (z : Z) (rest : string) :
  scan_once (S f) (dumps_int z ++ rest) =
  match scan_int (dumps_int z ++ rest) with
  | Some (n, r) => Some (JNum n, r)
  | None => None
  end.
Proof.
  destruct z as [|p|p]; try reflexivity.
  pose proof (to_uint_head p) as H. cbn [dumps_int].
  destruct (Pos.to_uint p); try contradiction; reflexivity.
Qed.

Definition reads_back (v : json) : Prop :=
  forall fuel rest,
    size v <= fuel -> starts_digit rest = false ->
    scan_once fuel (dumps v ++ rest) = Some (v, rest).

Lemma scan_items_S (f : nat) (s : string) :
  scan_items (S f) s =
  match scan_once f s with
  | Some (v, r) =>
      match skip_ws r with
      | String c r1 =>
          if (code c =? 93)%N then Some ([v], r1)
          else if (code c =? 44)%N then
            match scan_items f (skip_ws r1) with
            | Some (vs, r') => Some (v :: vs, r')
            | None => None
            end
          else None
      | EmptyString => None
      end
  | None => None
  end.
Proof. reflexivity. Qed.

Lemma scan_items_last (f : nat) (s r : string) (x : json) :
  scan_once f s = Some (x, "]" ++ r) ->
  scan_items (S f) s = Some ([x], r).
Proof. intros H. rewrite scan_items_S, H. reflexivity. Qed.

Lemma scan_items_more (f : nat) (s r : string) (x : json) :
  scan_once f s = Some (x, ", " ++ r) ->
  skip_ws r = r ->
  scan_items (S f) s =
  match scan_items f r with
  | Some (vs, r') => Some (x :: vs, r')
  | None => None
  end.
Proof.
  intros H Hr. rewrite scan_items_S, H.
  change (skip_ws (", " ++ r)) with (String "," (String " " r)).
  cbv beta iota.
  change (skip_ws (String " " r)) with (skip_ws r).
  rewrite Hr. reflexivity.
Qed.

Lemma dumps_items_one (x : json) : dumps_items [x] = dumps x ++ "]".
Proof. reflexivity. Qed.

Lemma dumps_items_cons (x y : json) (l : list json) :
  dumps_items (x :: y :: l) = dumps x ++ ", " ++ dumps_items (y :: l).
Proof. reflexivity. Qed.

Lemma skip_ws_items (x : json) (l : list json) (rest : string) :
  skip_ws (dumps_items (x :: l) ++ rest) = dumps_items (x :: l) ++ rest.
Proof.
  destruct l as [|y l].
  - rewrite dumps_items_one, append_assoc. apply skip_ws_dumps.
  - rewrite dumps_items_cons, append_assoc. apply skip_ws_dumps.
Qed.

Lemma scan_items_dumps (l : list json) :
  l <> [] ->
  Forall reads_back l ->
  forall fuel rest,
    list_sum (map (fun x => S (size x)) l) <= fuel ->
    scan_items fuel (dumps_items l ++ rest) = Some (l, rest).
Proof.
  induction l as [|x l IH]; [congruence|].
  intros _ HF fuel rest Hfuel.
  inversion HF as [|? ? Hx Hl]; subst.
  cbn [map list_sum] in Hfuel.
  destruct fuel as [|f]; [simpl in Hfuel; lia|].
  destruct l as [|y l].
  - rewrite dumps_items_one, append_assoc.
    apply scan_items_last, Hx; [simpl in *; lia | reflexivity].
  - rewrite dumps_items_cons, !append_assoc.
    rewrite (scan_items_more f _ (dumps_items (y :: l) ++ rest) x).
    + rewrite IH; [reflexivity | congruence | assumption | simpl in *; lia].
    + apply Hx; [simpl in *; lia | reflexivity].
    + apply skip_ws_items.
Qed.

Lemma dumps_string_app (k t : string) :
  dumps_string k ++ t = String quote (escape k ++ String quote t).
Proof.
  unfold dumps_string. cbn [append]. now rewrite append_assoc.
Qed.

Lemma scan_member (f : nat) (k t r2 : string) (v : json) :
  skip_ws t = t ->
  scan_once f t = Some (v, r2) ->
  scan_members (S f) (dumps_string k ++ ": " ++ t) =
  match skip_ws r2 with
  | String c2 r3 =>
      if (code c2 =? 125)%N then Some ([(k, v)], r3)
      else if (code c2 =? 44)%N then
        match scan_members f (skip_ws r3) with
        | Some (ps, r') => Some ((k, v) :: ps, r')
        | None => None
        end
      else None
  | EmptyString => None
  end.
Proof.
  intros Ht Hv. rewrite dumps_string_app.
  change (scan_members (S f) (String quote ?r0)) with
    (match scanstring r0 with
     | Some (k, r) =>
         match skip_ws r with
         | String c r1 =>
             if (code c =? 58)%N then
               match scan_once f (skip_ws r1) with
               | Some (v, r2) =>
                   match skip_ws r2 with
                   | String c2 r3 =>
                       if (code c2 =? 125)%N then Some ([(k, v)], r3)
                       else if (code c2 =? 44)%N then
                         match scan_members f (skip_ws r3) with
                         | Some (ps, r') => Some ((k, v) :: ps, r')
                         | None => None
                         end
                       else None
                   | EmptyString => None
                   end
               | None => None
               end
             else None
         | EmptyString => None
         end
     | None => None
     end).
  rewrite scanstring_escape.
  change (skip_ws (": " ++ t)) with (String ":" (String " " t)).
  cbv beta iota.
  change (skip_ws (String " " t)) with (skip_ws t).
  rewrite Ht, Hv. reflexivity.
Qed.

Lemma dumps_members_one (k : string) (x : json) :
  dumps_members [(k, x)] = dumps_string k ++ ": " ++ dumps x ++ "}".
Proof. reflexivity. Qed.

Lemma dumps_members_cons (k : string) (x : json) (kv : string * json) (l : list (string * json)) :
  dumps_members ((k, x) :: kv :: l) =
  dumps_string k ++ ": " ++ dumps x ++ ", " ++ dumps_members (kv :: l).
Proof. reflexivity. Qed.

Lemma skip_ws_members (kv : string * json) (l : list (string * json)) (rest : string) :
  skip_ws (dumps_members (kv :: l) ++ rest) = dumps_members (kv :: l) ++ rest.
Proof.
  destruct kv as [k x]. destruct l as [|kv' l];
    [rewrite dumps_members_one | rewrite dumps_members_cons];
    rewrite dumps_string_app; reflexivity.
Qed.

Lemma scan_members_dumps (m : list (string * json)) :
  m <> [] ->
  Forall (fun kv => reads_back (snd kv)) m ->
  forall fuel rest,
    list_sum (map (fun kv => S (size (snd kv))) m) <= fuel ->
    scan_members fuel (dumps_members m ++ rest) = Some (m, rest).
Proof.
  induction m as [|[k x] m IH]; [congruence|].
  intros _ HF fuel rest Hfuel.
  inversion HF as [|? ? Hx Hl]; subst. cbn [snd] in Hx.
  cbn [map list_sum snd] in Hfuel.
  destruct fuel as [|f]; [simpl in Hfuel; lia|].
  destruct m as [|kv m].
  - rewrite dumps_members_one, !append_assoc.
    rewrite (scan_member f k _ ("}" ++ rest) x).
    + reflexivity.
    + apply skip_ws_dumps.
    + apply Hx; [simpl in *; lia | reflexivity].
  - rewrite dumps_members_cons, !append_assoc.
    rewrite (scan_member f k _ (", " ++ dumps_members (kv :: m) ++ rest) x).
    + change (skip_ws (", " ++ ?r)) with (String "," (String " " r)).
      cbv beta iota.
      change (skip_ws (String " " ?r)) with (skip_ws r).
      rewrite skip_ws_members.
      change (code "," =? 125)%N with false.
      change (code "," =? 44)%N with true.
      cbv beta iota.
      rewrite IH; [reflexivity | congruence | assumption | simpl in *; lia].
    + apply skip_ws_dumps.
    + apply Hx; [simpl in *; lia | reflexivity].
Qed.

Lemma scan_once_arr (f : nat) (c : ascii) (t : string) :
  opens_value c = true ->
  scan_once (S f) (String "[" (String c t)) =
  match scan_items f (String c t) with
  | Some (vs, r') => Some (JArr vs, r')
  | None => None
  end.
Proof.
  intros H.
  change (scan_once (S f) (String "[" (String c t))) with
    (match skip_ws (String c t) with
     | String c1 r1 =>
         if (code c1 =? 93)%N then Some (JArr [], r1)
         else
           match scan_items f (String c1 r1) with
           | Some (vs, r') => Some (JArr vs, r')
           | None => None
           end
     | EmptyString => None
     end).
  rewrite skip_ws_open by exact H.
  unfold opens_value in H. apply andb_true_iff in H as [H _].
  apply andb_true_iff in H as [_ H]. apply negb_true_iff in H.
  now rewrite H.
Qed.

Lemma scan_once_obj (f : nat) (t : string) :
  scan_once (S f) (String "{" (String quote t)) =
  match scan_members f (String quote t) with
  | Some (ps, r') => Some (JObj (Dict.of_pairs ps), r')
  | None => None
  end.
Proof. reflexivity. Qed.

Lemma scan_once_str (f : nat) (t : string) :
  scan_once (S f) (String quote t) =
  match scanstring t with
  | Some (u, r') => Some (JStr u, r')
  | None => None
  end.
Proof. reflexivity. Qed.

Lemma dumps_items_head (x : json) (l : list json) (rest : string) :
  exists c t, dumps_items (x :: l) ++ rest = String c t /\ opens_value c = true.
Proof.
  destruct (dumps_head x) as (c & t & E & H).
  destruct l; [rewrite dumps_items_one | rewrite dumps_items_cons];
    rewrite E; do 2 eexists; (split; [reflexivity | exact H]).
Qed.

Lemma Forall_wf_reads (A : Type) (g : A -> json) (l : list A) :
  Forall (fun a => wf (g a) = true -> reads_back (g a)) l ->
  forallb (fun a => wf (g a)) l = true ->
  Forall (fun a => reads_back (g a)) l.
Proof.
  induction 1 as [|a l Ha Hl IH]; simpl; intros Hw.
  - constructor.
  - apply andb_true_iff in Hw as [H1 H2]. constructor; auto.
Qed.

(** Reading back what [dumps] wrote, for any document that is a Python
    value, whatever follows it (a digit apart). *)
Lemma scan_once_dumps (v : json) : wf v = true -> reads_back v.
Proof.
  induction v as [|b|z|s|l IH|m IH] using json_rect';
    intros Hw fuel rest Hfuel Hrest;
    (destruct fuel as [|f]; [simpl in Hfuel; lia|]).
  - reflexivity.
  - destruct b; reflexivity.
  - cbn [dumps]. rewrite scan_once_int, scan_int_dumps by assumption. reflexivity.
  - cbn [dumps]. rewrite dumps_string_app, scan_once_str, scanstring_escape.
    reflexivity.
  - rewrite dumps_arr. cbn [append].
    destruct l as [|x l]; [reflexivity|].
    destruct (dumps_items_head x l rest) as (c & t & E & Hc).
    rewrite E, scan_once_arr by exact Hc. rewrite <- E.
    rewrite scan_items_dumps; [reflexivity | congruence | | simpl in *; lia].
    apply (Forall_wf_reads json (fun a => a)); assumption.
  - rewrite dumps_obj. cbn [append].
    cbn [wf] in Hw. apply andb_true_iff in Hw as [Hd Hw].
    destruct m as [|[k x] m]; [reflexivity|].
    assert (E : exists t, dumps_members ((k, x) :: m) ++ rest = String quote t).
    { destruct m; [rewrite dumps_members_one | rewrite dumps_members_cons];
        rewrite dumps_string_app; eexists; reflexivity. }
    destruct E as [t E]. rewrite E, scan_once_obj. rewrite <- E.
    rewrite scan_members_dumps; [| congruence | | simpl in *; lia].
    + now rewrite of_pairs_distinct.
    + apply (Forall_wf_reads _ snd); assumption.
Qed.

(** *** The fuel of [decode] is enough *)

Lemma length_append (a b : string) :
  String.length (a ++ b) = String.length a + String.length b.
Proof.
  induction a as [|c a IH]; simpl; [reflexivity | now rewrite IH].
Qed.

Lemma size_le_length (v : json) : size v <= String.length (dumps v).
Proof.
  induction v as [|b|z|s|l IH|m IH] using json_rect'.
  - simpl. lia.
  - destruct b; simpl; lia.
  - destruct (dumps_head (JNum z)) as (c & t & -> & _). simpl. lia.
  - simpl. lia.
  - rewrite dumps_arr. cbn [size String.length]. apply le_n_S.
    induction IH as [|x l Hx Hl IHl].
    + simpl. lia.
    + destruct l as [|y l].
      * rewrite dumps_items_one, length_append.
        unfold list_sum. cbn [map fold_right String.length]. lia.
      * rewrite dumps_items_cons, !length_append.
        unfold list_sum in *. cbn [map fold_right String.length] in *. lia.
  - rewrite dumps_obj. cbn [size String.length]. apply le_n_S.
    induction IH as [|[k x] m Hx Hm IHm].
    + simpl. lia.
    + cbn [snd] in Hx. destruct m as [|kv m].
      * rewrite dumps_members_one, !length_append.
        unfold list_sum. cbn [map fold_right snd String.length]. lia.
      * rewrite dumps_members_cons, !length_append.
        unfold list_sum in *. cbn [map fold_right snd String.length] in *. lia.
Qed.

Lemma append_empty (s : string) : s ++ EmptyString = s.
Proof.
  induction s as [|c s IH]; simpl; [reflexivity | now rewrite IH].
Qed.

Lemma decode_dumps (v : json) : wf v = true -> decode (dumps v) = Some v.
Proof.
  intros Hw. unfold decode.
  pose proof (skip_ws_dumps v EmptyString) as Hs.
  rewrite append_empty in Hs. rewrite Hs.
  pose proof (scan_once_dumps v Hw (S (String.length (dumps v))) EmptyString) as H.
  rewrite append_empty in H. rewrite H.
  - reflexivity.
  - pose proof (size_le_length v). lia.
  - reflexivity.
Qed.

(** [json.loads(json.dumps(v)) == v] *)
Lemma loads_dumps (v : json) : wf v = true -> loads (dumps v) = Value v.
Proof.
  intros Hw. unfold loads. now rewrite decode_dumps.
Qed.

(** *** What [loads] returns is a Python value *)

Lemma set_keys_in {V : Type} (k k0 : string) (v : V) (d : Dict.dict V) :
  In k0 (map fst (Dict.set k v d)) -> k0 = k \/ In k0 (map fst d).
Proof.
  induction d as [|[k' v'] d IH]; simpl.
  - intros [H|[]]; auto.
  - destruct (String.eqb k k') eqn:E; simpl; intros [H|H]; auto.
    destruct (IH H); auto.
Qed.

Lemma set_NoDup {V : Type} (k : string) (v : V) (d : Dict.dict V) :
  NoDup (map fst d) -> NoDup (map fst (Dict.set k v d)).
Proof.
  induction d as [|[k' v'] d IH]; simpl; intros H.
  - constructor; [intros [] | constructor].
  - inversion H as [|? ? Hn Hd]; subst.
    destruct (String.eqb k k') eqn:E; simpl.
    + constructor; assumption.
    + constructor; [|auto].
      intros Hin. apply set_keys_in in Hin as [->|Hin]; [|contradiction].
      rewrite String.eqb_refl in E. discriminate.
Qed.

Lemma set_forallb {V : Type} (P : V -> bool) (k : string) (v : V) (d : Dict.dict V) :
  forallb (fun kv => P (snd kv)) d = true -> P v = true ->
  forallb (fun kv => P (snd kv)) (Dict.set k v d) = true.
Proof.
  induction d as [|[k' v'] d IH]; simpl; intros H Hv.
  - now rewrite Hv.
  - apply andb_true_iff in H as [H1 H2].
    destruct (String.eqb k k'); simpl.
    + now rewrite Hv, H2.
    + now rewrite H1, IH.
Qed.

Lemma of_pairs_wf (ps : list (string * json)) :
  forallb (fun kv => wf (snd kv)) ps = true ->
  wf (JObj (Dict.of_pairs ps)) = true.
Proof.
  unfold Dict.of_pairs.
  assert (G : forall acc,
             wf (JObj acc) = true ->
             forallb (fun kv => wf (snd kv)) ps = true ->
             wf (JObj (fold_left (fun d kv => Dict.set (fst kv) (snd kv) d) ps acc)) = true).
  { induction ps as [|[k v] ps IH]; simpl; intros acc Ha Hp; [exact Ha|].
    apply andb_true_iff in Hp as [Hv Hp].
    apply IH; [|exact Hp].
    apply andb_true_iff in Ha as [Hd Hf].
    apply andb_true_iff. split.
    - apply distinct_NoDup, set_NoDup, distinct_NoDup, Hd.
    - now apply set_forallb. }
  intros H. now apply G.
Qed.

Ltac break_match H :=
  repeat match type of H with
         | context [match ?x with _ => _ end] =>
             destruct x eqn:?; try discriminate H
         end.

Lemma scan_wf (fuel : nat) :
  (forall s v r, scan_once fuel s = Some (v, r) -> wf v = true) /\
  (forall s vs r, scan_items fuel s = Some (vs, r) -> forallb wf vs = true) /\
  (forall s ps r, scan_members fuel s = Some (ps, r) ->
                  forallb (fun kv => wf (snd kv)) ps = true).
Proof.
  induction fuel as [|f (IH1 & IH2 & IH3)].
  - repeat split; intros; discriminate.
  - repeat split.
    + intros s v r H. cbn [scan_once] in H.
      break_match H; inversion H; subst; try reflexivity.
      * apply of_pairs_wf. eapply IH3; eassumption.
      * cbn [wf]. eapply IH2; eassumption.
    + intros s vs r H. cbn [scan_items] in H.
      break_match H; inversion H; subst; cbn [forallb].
      * erewrite IH1 by eassumption. reflexivity.
      * erewrite IH1, IH2 by eassumption. reflexivity.
    + intros s ps r H. cbn [scan_members] in H.
      break_match H; inversion H; subst; cbn [forallb snd].
      * erewrite IH1 by eassumption. reflexivity.
      * erewrite IH1, IH3 by eassumption. reflexivity.
Qed.

Lemma decode_wf (s : string) (v : json) : decode s = Some v -> wf v = true.
Proof.
  unfold decode. intros H. break_match H. inversion H; subst.
  eapply (proj1 (scan_wf _)); eassumption.
Qed.

Lemma loads_wf (s : string) (v : json) : loads s = Value v -> wf v = true.
Proof.
  unfold loads. intros H.
  destruct (decode s) as [v0|] eqn:E.
  - injection H as <-. exact (decode_wf s v0 E).
  - destruct (valid s); discriminate H.
Qed.

(** *** The grammar covers what [decode] reads *)

Ltac use_tests :=
  repeat match goal with
         | H : (_ =? _)%N = _ |- _ => rewrite H
         | H : (_ <? _)%N = _ |- _ => rewrite H
         | H : hex_value _ = _ |- _ => rewrite H
         | H : skip_ws _ = _ |- _ => rewrite H
         end.

Ltac side :=
  use_tests; rewrite ?orb_true_r, ?orb_false_r, ?orb_true_r; reflexivity.

Lemma skip_string_scan (n : nat) :
  forall s t r, String.length s <= n -> scanstring s = Some (t, r) -> skip_string s = Some r.
Proof.
  induction n as [|n IH]; intros s t r Hn H.
  - destruct s; [discriminate H | cbn [String.length] in Hn; lia].
  - destruct s as [|c s]; [discriminate H|].
    cbn [String.length] in Hn. cbn [scanstring] in H. cbn [skip_string].
    break_match H; inversion H; subst; clear H; unfold is_hex; use_tests;
      cbn [orb andb]; try reflexivity;
      (eapply IH; [|eassumption]); cbn [String.length] in *; lia.
Qed.

(** After a number that [decode] reads, no fraction and no exponent. *)
Lemma no_tail (r : string) (c : ascii) (r1 : string) :
  skip_ws r = String c r1 ->
  ((code c =? 93) || (code c =? 44) || (code c =? 125))%N = true ->
  skip_exp (skip_frac r) = r.
Proof.
  intros Hs Hc. destruct r as [|c0 r0]; [reflexivity|].
  cbn [skip_ws] in Hs.
  destruct (is_ws c0) eqn:Ew.
  - unfold skip_frac, skip_exp. unfold is_ws in Ew.
    destruct (code c0 =? 46)%N eqn:E1.
    { apply N.eqb_eq in E1. rewrite E1 in Ew. discriminate Ew. }
    destruct ((code c0 =? 101) || (code c0 =? 69))%N eqn:E2; [|reflexivity].
    apply orb_true_iff in E2 as [E2|E2]; apply N.eqb_eq in E2; rewrite E2 in Ew;
      discriminate Ew.
  - injection Hs as -> ->. unfold skip_frac, skip_exp.
    destruct (code c =? 46)%N eqn:E1.
    { apply N.eqb_eq in E1. rewrite E1 in Hc. discriminate Hc. }
    destruct ((code c =? 101) || (code c =? 69))%N eqn:E2; [|reflexivity].
    apply orb_true_iff in E2 as [E2|E2]; apply N.eqb_eq in E2; rewrite E2 in Hc;
      discriminate Hc.
Qed.

Lemma no_tail_end (r : string) : skip_ws r = EmptyString -> skip_exp (skip_frac r) = r.
Proof.
  intros Hs. destruct r as [|c0 r0]; [reflexivity|].
  cbn [skip_ws] in Hs.
  destruct (is_ws c0) eqn:Ew; [|discriminate Hs].
  unfold skip_frac, skip_exp. unfold is_ws in Ew.
  destruct (code c0 =? 46)%N eqn:E1.
  { apply N.eqb_eq in E1. rewrite E1 in Ew. discriminate Ew. }
  destruct ((code c0 =? 101) || (code c0 =? 69))%N eqn:E2; [|reflexivity].
  apply orb_true_iff in E2 as [E2|E2]; apply N.eqb_eq in E2; rewrite E2 in Ew;
    discriminate Ew.
Qed.

(** What is left of the text after a value, by the grammar in full. *)
Definition rest_of (v : json) (r : string) : string :=
  match v with
  | JNum _ => skip_exp (skip_frac r)
  | _ => r
  end.

Lemma rest_of_same (v : json) (r : string) (c : ascii) (r1 : string) :
  skip_ws r = String c r1 ->
  ((code c =? 93) || (code c =? 44) || (code c =? 125))%N = true ->
  rest_of v r = r.
Proof.
  intros Hs Hc. destruct v; try reflexivity. exact (no_tail r c r1 Hs Hc).
Qed.

Lemma skip_scan (fuel : nat) :
  (forall s v r, scan_once fuel s = Some (v, r) -> skip_once fuel s = Some (rest_of v r)) /\
  (forall s vs r, scan_items fuel s = Some (vs, r) -> skip_items fuel s = Some r) /\
  (forall s ps r, scan_members fuel s = Some (ps, r) -> skip_members fuel s = Some r).
Proof.
  induction fuel as [|f (IH1 & IH2 & IH3)].
  - repeat split; intros; discriminate.
  - repeat split.
    + intros s v r H. cbn [scan_once] in H. cbn [skip_once].
      break_match H; inversion H; subst; clear H; cbv zeta; use_tests; cbn [rest_of].
      all: try reflexivity.
      all: try (erewrite skip_string_scan by (try eassumption; apply le_n); reflexivity).
      all: try (erewrite IH3 by eassumption; reflexivity).
      all: try (erewrite IH2 by eassumption; reflexivity).
      all: try assumption.
      unfold skip_number.
      match goal with H : scan_int _ = _ |- _ => rewrite H end. reflexivity.
    + intros s vs r H. cbn [scan_items] in H. cbn [skip_items].
      break_match H; inversion H; subst; clear H.
      * erewrite IH1 by eassumption.
        erewrite rest_of_same by (try eassumption; side).
        use_tests. reflexivity.
      * erewrite IH1 by eassumption.
        erewrite rest_of_same by (try eassumption; side).
        use_tests. eapply IH2. eassumption.
    + intros s ps r H. cbn [scan_members] in H. cbn [skip_members].
      break_match H; inversion H; subst; clear H; use_tests.
      * erewrite skip_string_scan by (try eassumption; apply le_n).
        use_tests. erewrite IH1 by eassumption.
        erewrite rest_of_same by (try eassumption; side).
        use_tests. reflexivity.
      * erewrite skip_string_scan by (try eassumption; apply le_n).
        use_tests. erewrite IH1 by eassumption.
        erewrite rest_of_same by (try eassumption; side).
        use_tests. eapply IH3. eassumption.
Qed.

(** A text that [decode] reads is a text of the grammar. *)
Lemma decode_valid (s : string) (v : json) : decode s = Some v -> valid s = true.
Proof.
  unfold decode, valid. intros H.
  destruct (scan_once (S (String.length (skip_ws s))) (skip_ws s)) as [[v0 r]|] eqn:E;
    [|discriminate H].
  destruct (skip_ws r) eqn:Er; [|discriminate H].
  rewrite (proj1 (skip_scan _) _ _ _ E).
  assert (Hr : rest_of v0 r = r).
  { destruct v0; try reflexivity. now apply no_tail_end. }
  now rewrite Hr, Er.
Qed.

(** [json.loads] raises exactly on the texts outside the grammar. *)
Lemma loads_error (s : string) : loads s = DecodeError <-> valid s = false.
Proof.
  unfold loads. split.
  - destruct (decode s); [discriminate|]. destruct (valid s); [discriminate | reflexivity].
  - intros H. destruct (decode s) as [v|] eqn:E.
    + apply decode_valid in E. congruence.
    + now rewrite H.
Qed.

End JsonFacts.

(* ================================================================== *)
(** ** Facts about the cache *)

Module CacheFacts.

Lemma get_set_same {V : Type} (k : string) (v : V) (d : Dict.dict V) :
  Dict.get k (Dict.set k v d) = Some v.
Proof.
  induction d as [|[k' v'] d IH]; simpl.
  - now rewrite String.eqb_refl.
  - destruct (String.eqb k k') eqn:E; simpl; now rewrite E.
Qed.

Lemma get_set_other {V : Type} (k k0 : string) (v : V) (d : Dict.dict V) :
  k0 <> k -> Dict.get k0 (Dict.set k v d) = Dict.get k0 d.
Proof.
  intros Hk. induction d as [|[k' v'] d IH]; simpl.
  - destruct (String.eqb k0 k) eqn:E; [|reflexivity].
    apply String.eqb_eq in E. contradiction.
  - destruct (String.eqb k k') eqn:E; simpl.
    + apply String.eqb_eq in E. subst k'.
      destruct (String.eqb k0 k) eqn:E0; [|reflexivity].
      apply String.eqb_eq in E0. contradiction.
    + now rewrite IH.
Qed.

Lemma mem_get {V : Type} (k : string) (d : Dict.dict V) :
  Dict.mem k d = match Dict.get k d with Some _ => true | None => false end.
Proof. reflexivity. Qed.

(** The file that [save_cache] wrote is what [open_cache] finds. *)
Lemma loaded_after_save (v : json) (w : World) :
  Json.wf v = true -> loaded (snd (save_cache v w)) = Ok v.
Proof.
  intros Hw. unfold loaded, save_cache, write_file, read_file, json_loads.
  cbn [snd disk obind]. now rewrite JsonFacts.loads_dumps.
Qed.

(** What [open_cache] finds is a Python value. *)
Lemma loaded_wf (w : World) (v : json) : loaded w = Ok v -> Json.wf v = true.
Proof.
  unfold loaded, read_file, json_loads.
  destruct (disk w) as [c|]; cbn [obind].
  - destruct (Json.loads c) as [v0| |] eqn:E; intros H; try discriminate H.
    + injection H as <-. now apply JsonFacts.loads_wf in E.
    + now injection H as <-.
  - intros H. now injection H as <-.
Qed.

(** The only exception of [open_cache]. *)
Lemma loaded_raise (w : World) (e : exn) : loaded w = Raise e -> e = Unrepresented.
Proof.
  unfold loaded.
  destruct (cache_contents <~ read_file w ;; json_loads cache_contents) as [v|e0].
  - discriminate.
  - destruct e0; intros H; try discriminate H; now injection H as <-.
Qed.

Lemma set_wf (k : string) (v : json) (d : Dict.dict json) :
  Json.wf (JObj d) = true -> Json.wf v = true -> Json.wf (JObj (Dict.set k v d)) = true.
Proof.
  cbn [Json.wf]. intros H Hv. apply andb_true_iff in H as [Hd Hf].
  apply andb_true_iff. split.
  - apply JsonFacts.distinct_NoDup, JsonFacts.set_NoDup, JsonFacts.distinct_NoDup, Hd.
  - now apply JsonFacts.set_forallb.
Qed.

(** The three ways [make_request_with_cache] can go. *)
Lemma make_request_with_cache_eq (url : string) (w : World) :
  make_request_with_cache url w =
  match loaded w with
  | Ok (JObj d) =>
      match Dict.get url d with
      | Some v => (Ok v, snd (print "Using cache" w))
      | None =>
          let w1 := send (page_request url) (snd (print "Fetching" w)) in
          match web w url with
          | Some body =>
              (Ok (JStr body),
               snd (save_cache (JObj (Dict.set url (JStr body) d)) w1))
          | None => (Raise RequestException, w1)
          end
      end
  | Ok _ => (Raise AttributeError, w)
  | Raise e => (Raise e, w)
  end.
Proof.
  unfold make_request_with_cache, bind, open_cache, lift.
  destruct (loaded w) as [[| | | |l|d]|e]; try reflexivity.
  cbn [py_keys]. rewrite mem_get.
  destruct (Dict.get url d) as [v|] eqn:E.
  - cbn [print py_getitem snd]. now rewrite E.
  - unfold print, requests_get_text. cbn [web snd].
    destruct (web w url) as [body|]; [|reflexivity].
    unfold save_cache, write_file. cbn [py_getitem snd]. now rewrite get_set_same.
Qed.

Lemma loaded_disk (w w' : World) : disk w = disk w' -> loaded w = loaded w'.
Proof. unfold loaded, read_file. now intros ->. Qed.

(** [make_request_with_cache] leaves the module-level dictionary alone. *)
Lemma make_request_with_cache_global (url : string) (w : World) :
  CACHE_DICT (snd (make_request_with_cache url w)) = CACHE_DICT w.
Proof.
  rewrite make_request_with_cache_eq.
  destruct (loaded w) as [[| | | |l|d]|e]; try reflexivity.
  destruct (Dict.get url d); [reflexivity|].
  cbv zeta. destruct (web w url); reflexivity.
Qed.

(** Computations that leave the module-level dictionary alone. *)
Definition keeps_global {A : Type} (m : M A) : Prop :=
  forall w, CACHE_DICT (snd (m w)) = CACHE_DICT w.

Lemma keeps_ret {A : Type} (a : A) : keeps_global (ret a).
Proof. intros w. reflexivity. Qed.

Lemma keeps_lift {A : Type} (o : outcome A) : keeps_global (lift o).
Proof. intros w. reflexivity. Qed.

Lemma keeps_bind {A B : Type} (m : M A) (k : A -> M B) :
  keeps_global m -> (forall a, keeps_global (k a)) -> keeps_global (bind m k).
Proof.
  intros Hm Hk w. unfold bind. specialize (Hm w).
  destruct (m w) as [[a|e] w1]; cbn [snd] in *; [|exact Hm].
  now rewrite Hk.
Qed.

Lemma keeps_for_each {A B : Type} (f : A -> M B) (l : list A) :
  (forall a, keeps_global (f a)) -> keeps_global (for_each f l).
Proof.
  intros Hf. induction l as [|a l IH]; cbn [for_each].
  - apply keeps_ret.
  - apply keeps_bind; [apply Hf|]. intros b.
    apply keeps_bind; [exact IH|]. intros bs. apply keeps_ret.
Qed.

Lemma keeps_make_request_with_cache (url : string) :
  keeps_global (make_request_with_cache url).
Proof. intros w. apply make_request_with_cache_global. Qed.

Lemma keeps_get_site_instance (html_parser : string -> Soup.node) (site_url : string) :
  keeps_global (get_site_instance html_parser site_url).
Proof.
  unfold get_site_instance.
  apply keeps_bind; [apply keeps_make_request_with_cache|]. intros html.
  apply keeps_bind; [apply keeps_lift|]. intros soup. apply keeps_lift.
Qed.

(** No function that reads pages touches the module-level dictionary. *)
Lemma keeps_run_page_calls (html_parser : string -> Soup.node) (cs : list page_call) :
  keeps_global (run_page_calls html_parser cs).
Proof.
  induction cs as [|c cs IH]; cbn [run_page_calls]; [apply keeps_ret|].
  apply keeps_bind; [|intros _; exact IH].
  destruct c as [url| |site_url|state_url]; cbn [run_page_call];
    (apply keeps_bind; [|intros ?; apply keeps_ret]).
  - apply keeps_make_request_with_cache.
  - unfold build_state_url_dict.
    apply keeps_bind; [apply keeps_make_request_with_cache|]. intros html.
    apply keeps_bind; [apply keeps_lift|]. intros soup. apply keeps_lift.
  - apply keeps_get_site_instance.
  - unfold get_sites_for_state.
    apply keeps_bind; [apply keeps_make_request_with_cache|]. intros html.
    apply keeps_bind; [apply keeps_lift|]. intros soup.
    apply keeps_bind; [apply keeps_lift|]. intros parks.
    apply keeps_for_each. intros park.
    apply keeps_bind; [apply keeps_lift|]. intros url.
    apply keeps_get_site_instance.
Qed.

End CacheFacts.

(* ================================================================== *)
(** ** Facts about the extraction *)

Module SiteFacts.

Lemma get_site_instance_eq (html_parser : string -> Soup.node) (site_url : string) (w : World) :
  get_site_instance html_parser site_url w =
  (html <~ fst (make_request_with_cache site_url w) ;;
   soup <~ BeautifulSoup html_parser html ;;
   site_of_page soup,
   snd (make_request_with_cache site_url w)).
Proof.
  unfold get_site_instance, bind, lift.
  destruct (make_request_with_cache site_url w) as [[v|e] w1]; cbn [fst snd obind];
    [|reflexivity].
  destruct (BeautifulSoup html_parser v); reflexivity.
Qed.

Ltac split_finds :=
  repeat match goal with
         | |- context [Soup.find ?c ?n] => destruct (Soup.find c n)
         | H : context [Soup.find ?c ?n] |- _ => destruct (Soup.find c n)
         end.

(** A page without one of the five fields that are read outside a [try]
    gives no record. *)
Lemma site_of_page_required (soup : Soup.node) :
  has_marker (Soup.class_ "Hero-title") (header_of soup) = false \/
  has_marker (Soup.attr_is "itemprop" "addressLocality") (footer_of soup) = false \/
  has_marker (Soup.attr_is "itemprop" "addressRegion") (footer_of soup) = false \/
  has_marker (Soup.class_ "postal-code") (footer_of soup) = false \/
  has_marker (Soup.class_ "tel") (footer_of soup) = false ->
  site_of_page soup = Raise AttributeError.
Proof.
  unfold site_of_page, header_of, footer_of, has_marker.
  intros H.
  destruct (Soup.find (Soup.class_ "Hero-titleContainer clearfix") soup) as [header|];
    destruct (Soup.find (Soup.class_ "vcard") soup) as [footer|];
    cbn [find_in obind];
    split_finds; cbn [text_of obind];
    try reflexivity;
    repeat (destruct H as [H|H]; try discriminate H); discriminate H.
Qed.

(** With those five fields there, the record is made, and the category is
    the sentinel when the designation is not there. *)
Lemma site_of_page_category (soup : Soup.node) :
  has_marker (Soup.class_ "Hero-title") (header_of soup) = true ->
  has_marker (Soup.attr_is "itemprop" "addressLocality") (footer_of soup) = true ->
  has_marker (Soup.attr_is "itemprop" "addressRegion") (footer_of soup) = true ->
  has_marker (Soup.class_ "postal-code") (footer_of soup) = true ->
  has_marker (Soup.class_ "tel") (footer_of soup) = true ->
  exists site,
    site_of_page soup = Ok site /\
    (has_marker (Soup.class_ "Hero-designation") (header_of soup) = false ->
     category site = "No category").
Proof.
  unfold site_of_page, header_of, footer_of, has_marker.
  destruct (Soup.find (Soup.class_ "Hero-titleContainer clearfix") soup) as [header|];
    destruct (Soup.find (Soup.class_ "vcard") soup) as [footer|];
    try discriminate.
  cbn [find_in obind].
  intros H1 H2 H3 H4 H5.
  split_finds; try discriminate;
    cbn [text_of obind try_except]; eexists; (split; [reflexivity|]);
    cbn [category]; intros H; try reflexivity; discriminate H.
Qed.

End SiteFacts.

Module PlacesFacts.

Lemma unless_blank_eq (x : json) (sentinel : string) :
  unless_blank x sentinel = if is_blank x then JStr sentinel else x.
Proof.
  destruct x as [| | |s| |]; try reflexivity. destruct s; reflexivity.
Qed.

Lemma nearby_place_normalised (info : json) (p : NearbyPlace) :
  nearby_place info = Ok p -> normalised info p.
Proof.
  unfold nearby_place, normalised. intros H.
  destruct (py_getitem info "name") as [n|] eqn:En; [|discriminate H].
  destruct (py_getitem info "fields") as [f|] eqn:Ef; [|discriminate H].
  cbn [obind] in H.
  destruct (py_getitem f "group_sic_code_name") as [c|] eqn:Ec; [|discriminate H].
  destruct (py_getitem f "address") as [a|] eqn:Ea; [|discriminate H].
  destruct (py_getitem f "city") as [t|] eqn:Et; [|discriminate H].
  cbn [obind] in H. injection H as <-.
  exists n, f, c, a, t. cbn [place_name place_category place_address place_city].
  rewrite !unless_blank_eq. repeat split; assumption.
Qed.

Lemma for_each_pure_Forall2 {A B : Type} (f : A -> outcome B) (R : A -> B -> Prop) :
  (forall a b, f a = Ok b -> R a b) ->
  forall l bs, for_each_pure f l = Ok bs -> Forall2 R l bs.
Proof.
  intros Hf. induction l as [|a l IH]; cbn [for_each_pure]; intros bs H.
  - injection H as <-. constructor.
  - destruct (f a) as [b|] eqn:E; [|discriminate H]. cbn [obind] in H.
    destruct (for_each_pure f l) as [bs'|]; [|discriminate H].
    cbn [obind] in H. injection H as <-. constructor; auto.
Qed.

End PlacesFacts.

Module ListingFacts.

Lemma fetch_content (url : string) (w : World) :
  fst (make_request_with_cache url w) = page_content w url.
Proof.
  rewrite CacheFacts.make_request_with_cache_eq. unfold page_content.
  destruct (loaded w) as [[| | | |l|d]|e0]; try reflexivity.
  destruct (Dict.get url d); [reflexivity|].
  cbv zeta. destruct (web w url); reflexivity.
Qed.

(** A fetch that returns changes the content of no address. *)
Lemma fetch_stable (url : string) (w w1 : World) (v : json) :
  make_request_with_cache url w = (Ok v, w1) ->
  forall u, page_content w1 u = page_content w u.
Proof.
  intros H u. rewrite CacheFacts.make_request_with_cache_eq in H.
  unfold page_content.
  destruct (loaded w) as [[| | | |l|d]|e0] eqn:El; try discriminate H.
  pose proof (CacheFacts.loaded_wf w _ El) as Hwf.
  destruct (Dict.get url d) as [x|] eqn:E.
  - pose proof (f_equal snd H) as H2. cbn [snd] in H2. subst w1.
    rewrite (CacheFacts.loaded_disk _ w) by reflexivity. now rewrite El.
  - cbv zeta in H. destruct (web w url) as [body|] eqn:Ew; [|discriminate H].
    pose proof (f_equal snd H) as H2. cbn [snd] in H2. subst w1.
    rewrite CacheFacts.loaded_after_save
      by (apply CacheFacts.set_wf; [exact Hwf | reflexivity]).
    destruct (String.eqb u url) eqn:Eu.
    + apply String.eqb_eq in Eu. subst u.
      now rewrite CacheFacts.get_set_same, E, Ew.
    + apply String.eqb_neq in Eu.
      rewrite CacheFacts.get_set_other by exact Eu. reflexivity.
Qed.

Lemma site_at_stable (html_parser : string -> Soup.node) (w w1 : World) :
  (forall u, page_content w1 u = page_content w u) ->
  forall u, site_at html_parser w1 u = site_at html_parser w u.
Proof. intros H u. unfold site_at. now rewrite H. Qed.

Lemma get_site_instance_at (html_parser : string -> Soup.node) (url : string) (w : World) :
  fst (get_site_instance html_parser url w) = site_at html_parser w url.
Proof.
  rewrite SiteFacts.get_site_instance_eq. cbn [fst].
  now rewrite fetch_content.
Qed.

Lemma get_site_instance_stable (html_parser : string -> Soup.node) (url : string)
    (w w1 : World) (site : NationalSite) :
  get_site_instance html_parser url w = (Ok site, w1) ->
  forall u, page_content w1 u = page_content w u.
Proof.
  rewrite SiteFacts.get_site_instance_eq. intros H.
  destruct (make_request_with_cache url w) as [[v|e] w0] eqn:E;
    cbn [fst snd obind] in H; [|discriminate H].
  pose proof (f_equal snd H) as H2. cbn [snd] in H2. subst w0.
  now apply (fetch_stable url w w1 v).
Qed.

(** The loop of [get_sites_for_state]: one site per heading, in the order
    of the headings. *)
Lemma sites_loop (html_parser : string -> Soup.node) (parks : list Soup.node) :
  forall (w w' : World) (sites : list NationalSite),
    for_each (fun park =>
                url <- lift (park_url park) ;;
                get_site_instance html_parser url) parks w = (Ok sites, w') ->
    (forall u, page_content w' u = page_content w u) /\
    exists urls,
      for_each_pure park_url parks = Ok urls /\
      Forall2 (fun url site => site_at html_parser w url = Ok site) urls sites.
Proof.
  induction parks as [|park parks IH]; intros w w' sites H.
  - cbn [for_each] in H. injection H as <- <-.
    split; [reflexivity|]. exists []. split; [reflexivity | constructor].
  - cbn [for_each for_each_pure] in H |- *. unfold bind at 1 2 in H. unfold lift in H.
    destruct (park_url park) as [url|]; [|discriminate H].
    destruct (get_site_instance html_parser url w) as [[site|e] w1] eqn:E;
      [|discriminate H].
    unfold bind in H.
    destruct (for_each _ parks w1) as [[rest|e] w2] eqn:Er; [|discriminate H].
    cbn [ret] in H. injection H as <- <-.
    destruct (IH w1 w2 rest Er) as (Hst & urls & Hu & HF).
    pose proof (get_site_instance_stable _ _ _ _ _ E) as Hst1.
    split.
    + intros u. now rewrite Hst, Hst1.
    + exists (url :: urls). cbn [obind]. rewrite Hu. split; [reflexivity|].
      constructor.
      * rewrite <- get_site_instance_at, E. reflexivity.
      * eapply Forall2_impl; [|exact HF].
        intros u s0 Hs. now rewrite <- (site_at_stable html_parser w w1 Hst1).
Qed.

(** And the loop returns whenever every heading leads to a site. *)
Lemma sites_loop_returns (html_parser : string -> Soup.node) (parks : list Soup.node) :
  forall (w : World) (urls : list string) (sites : list NationalSite),
    for_each_pure park_url parks = Ok urls ->
    Forall2 (fun url site => site_at html_parser w url = Ok site) urls sites ->
    exists w',
      for_each (fun park =>
                  url <- lift (park_url park) ;;
                  get_site_instance html_parser url) parks w = (Ok sites, w').
Proof.
  induction parks as [|park parks IH]; intros w urls sites Hu HF.
  - cbn [for_each_pure] in Hu. injection Hu as <-. inversion HF; subst.
    exists w. reflexivity.
  - cbn [for_each_pure] in Hu.
    destruct (park_url park) as [url|] eqn:Eu; [|discriminate Hu].
    cbn [obind] in Hu.
    destruct (for_each_pure park_url parks) as [urls'|] eqn:Eus; [|discriminate Hu].
    cbn [obind] in Hu. injection Hu as <-.
    inversion HF as [|? site ? rest Hs HF']; subst.
    rewrite <- get_site_instance_at in Hs.
    destruct (get_site_instance html_parser url w) as [r w1] eqn:E.
    cbn [fst] in Hs. subst r.
    pose proof (get_site_instance_stable _ _ _ _ _ E) as Hst1.
    destruct (IH w1 urls' rest eq_refl) as [w2 H2].
    { eapply Forall2_impl; [|exact HF'].
      intros u s0 Hs. now rewrite (site_at_stable html_parser w w1 Hst1). }
    exists w2. cbn [for_each]. unfold bind at 1 2. unfold lift at 1.
    rewrite Eu, E. cbv beta iota. unfold bind at 1. rewrite H2. reflexivity.
Qed.

(** [get_sites_for_state] returns exactly when the state page has its
    list and every heading that [find_all] gives leads to a site; the
    records are in the order of these headings. *)
Lemma sites_returned (html_parser : string -> Soup.node) (state_url : string)
    (w : World) (sites : list NationalSite) :
  fst (get_sites_for_state html_parser state_url w) = Ok sites <->
  exists html parks urls,
    page_content w state_url = Ok (JStr html) /\
    parks_of_page (html_parser html) = Ok parks /\
    for_each_pure park_url parks = Ok urls /\
    Forall2 (fun url site => site_at html_parser w url = Ok site) urls sites.
Proof.
  unfold get_sites_for_state. unfold bind at 1 2 3. unfold lift at 1 2.
  rewrite <- fetch_content. split.
  - intros H.
    destruct (make_request_with_cache state_url w) as [[v|e] w1] eqn:E; [|discriminate H].
    destruct v as [| | |html| |]; cbn [BeautifulSoup] in H; try discriminate H.
    destruct (parks_of_page (html_parser html)) as [parks|] eqn:Ep; [|discriminate H].
    match type of H with
    | fst (?loop w1) = _ => destruct (loop w1) as [r w'] eqn:El
    end.
    cbn [fst] in H. subst r.
    destruct (sites_loop html_parser parks w1 w' sites El)
      as (_ & urls & Hu & HF).
    exists html, parks, urls. repeat split; try assumption.
    eapply Forall2_impl; [|exact HF].
    intros u s0 Hs.
    rewrite <- (site_at_stable html_parser w w1); [exact Hs|].
    now apply (fetch_stable state_url w w1 (JStr html)).
  - intros (html & parks & urls & Hc & Hp & Hu & HF).
    destruct (make_request_with_cache state_url w) as [r w1] eqn:E.
    cbn [fst] in Hc. subst r. cbn [BeautifulSoup]. rewrite Hp.
    destruct (sites_loop_returns html_parser parks w1 urls sites Hu)
      as [w' Hl].
    + eapply Forall2_impl; [|exact HF].
      intros u s0 Hs.
      rewrite (site_at_stable html_parser w w1); [exact Hs|].
      now apply (fetch_stable state_url w w1 (JStr html)).
    + rewrite Hl. reflexivity.
Qed.

End ListingFacts.

(** The order of [find_all] is the order of the document. *)
Module OrderFacts.

Section NodeInd.
Variable P : Soup.node -> Prop.
Hypothesis HStr : forall s, P (Soup.NavigableString s).
Hypothesis HCom : forall s, P (Soup.Comment s).
Hypothesis HTag : forall t a cs, Forall P cs -> P (Soup.Tag t a cs).

Fixpoint node_ind' (n : Soup.node) : P n :=
  match n with
  | Soup.NavigableString s => HStr s
  | Soup.Comment s => HCom s
  | Soup.Tag t a cs =>
      HTag t a cs
        ((fix go (l : list Soup.node) : Forall P l :=
            match l with
            | [] => Forall_nil P
            | c :: l' => Forall_cons c (node_ind' c) (go l')
            end) cs)
  end.
End NodeInd.

(** The places below a node, as a walk of the tree meets them. *)
Fixpoint places_below (n : Soup.node) : list place :=
  match n with
  | Soup.Tag _ _ cs =>
      (fix go (i : nat) (l : list Soup.node) : list place :=
         match l with
         | [] => []
         | c :: l' => (([i] :: map (cons i) (places_below c)) ++ go (S i) l')%list
         end) 0 cs
  | _ => []
  end.

Fixpoint places_from (i : nat) (l : list Soup.node) : list place :=
  match l with
  | [] => []
  | c :: l' => (([i] :: map (cons i) (places_below c)) ++ places_from (S i) l')%list
  end.

Lemma places_below_tag (t : string) (a : Dict.dict Soup.attr) (cs : list Soup.node) :
  places_below (Soup.Tag t a cs) = places_from 0 cs.
Proof.
  cbn [places_below]. generalize 0. induction cs as [|c cs IH]; intros i.
  - reflexivity.
  - cbn [places_from]. now rewrite IH.
Qed.

Fixpoint below (l : list Soup.node) : list Soup.node :=
  match l with
  | [] => []
  | c :: l' => c :: (Soup.descendants c ++ below l')%list
  end.

Lemma descendants_tag (t : string) (a : Dict.dict Soup.attr) (cs : list Soup.node) :
  Soup.descendants (Soup.Tag t a cs) = below cs.
Proof.
  cbn [Soup.descendants]. induction cs as [|c cs IH].
  - reflexivity.
  - cbn [below]. now rewrite IH.
Qed.

(** The walk meets the nodes in the order of [descendants]. *)
Lemma nodes_at_places (n : Soup.node) :
  map (node_at n) (places_below n) = map Some (Soup.descendants n).
Proof.
  induction n as [s|s|t a cs IH] using node_ind'; try reflexivity.
  rewrite places_below_tag, descendants_tag.
  assert (G : forall l i,
             (forall j, nth_error l j = nth_error cs (i + j)) ->
             Forall (fun c => map (node_at c) (places_below c)
                              = map Some (Soup.descendants c)) l ->
             map (node_at (Soup.Tag t a cs)) (places_from i l) = map Some (below l)).
  { induction l as [|c l IHl]; intros i Hn Hl; [reflexivity|].
    inversion Hl as [|? ? Hc Hl']; subst.
    cbn [places_from below List.app List.map].
    rewrite !map_app, map_map. f_equal.
    - cbn [node_at]. rewrite <- (Nat.add_0_r i) at 1. rewrite <- Hn. reflexivity.
    - f_equal.
      + rewrite <- Hc. apply map_ext. intros p. cbn [node_at].
        rewrite <- (Nat.add_0_r i) at 1. rewrite <- Hn. reflexivity.
      + apply IHl; [|exact Hl'].
        intros j. rewrite Nat.add_succ_l, <- Nat.add_succ_r. exact (Hn (S j)). }
  apply G; [intros j; reflexivity | exact IH].
Qed.

Lemma places_from_In (l : list Soup.node) :
  forall i p,
    In p (places_from i l) <->
    exists j c p', p = (i + j) :: p' /\ nth_error l j = Some c /\
                   (p' = [] \/ In p' (places_below c)).
Proof.
  induction l as [|c l IH]; intros i p.
  - cbn [places_from]. split; [intros [] |].
    intros (j & c & p' & _ & H & _). destruct j; discriminate H.
  - cbn [places_from]. rewrite in_app_iff. cbn [In]. rewrite in_map_iff, IH. split.
    + intros [[H|(p' & H & Hin)]|(j & c' & p' & Hp & Hn & Hb)].
      * exists 0, c, []. rewrite Nat.add_0_r. repeat split; auto.
      * exists 0, c, p'. rewrite Nat.add_0_r. repeat split; auto.
      * exists (S j), c', p'. rewrite Nat.add_succ_r. repeat split; auto.
    + intros (j & c' & p' & Hp & Hn & Hb). destruct j as [|j].
      * cbn [nth_error] in Hn. injection Hn as <-. rewrite Nat.add_0_r in Hp.
        left. destruct Hb as [->|Hb]; [now left | right; now exists p'].
      * right. exists j, c', p'. rewrite Nat.add_succ_r in Hp. repeat split; auto.
Qed.

(** The walk meets every node below, and nothing else. *)
Lemma places_below_In (n : Soup.node) :
  forall p, In p (places_below n) <-> p <> [] /\ exists h, node_at n p = Some h.
Proof.
  induction n as [s|s|t a cs IH] using node_ind'; intros p.
  - cbn [places_below In]. split; [intros [] |].
    intros [Hp [h H]]. destruct p; [contradiction | discriminate H].
  - cbn [places_below In]. split; [intros [] |].
    intros [Hp [h H]]. destruct p; [contradiction | discriminate H].
  - rewrite places_below_tag, places_from_In. rewrite Forall_forall in IH. split.
    + intros (j & c & p' & -> & Hn & Hb). split; [discriminate|].
      cbn [node_at Nat.add]. rewrite Hn.
      destruct Hb as [->|Hb]; [now exists c|].
      apply IH in Hb; [|eapply nth_error_In; eassumption]. exact (proj2 Hb).
    + intros [Hp [h H]]. destruct p as [|j p']; [contradiction|].
      cbn [node_at] in H. destruct (nth_error cs j) as [c|] eqn:Hn; [|discriminate H].
      exists j, c, p'. repeat split; auto.
      destruct p' as [|k p'']; [now left | right].
      apply IH; [eapply nth_error_In; eassumption|].
      split; [discriminate | now exists h].
Qed.

Lemma sorted_app {A : Type} (R : A -> A -> Prop) (l1 l2 : list A) :
  StronglySorted R l1 -> StronglySorted R l2 ->
  (forall x y, In x l1 -> In y l2 -> R x y) ->
  StronglySorted R (l1 ++ l2)%list.
Proof.
  intros H1 H2 H. induction H1 as [|a l1 Hs IH Ha]; [exact H2|].
  cbn [app]. constructor.
  - apply IH. intros x y Hx Hy. apply H; [now right | exact Hy].
  - apply Forall_app. split; [exact Ha|].
    apply Forall_forall. intros y Hy. apply H; [now left | exact Hy].
Qed.

Lemma sorted_map {A B : Type} (R : A -> A -> Prop) (S : B -> B -> Prop) (f : A -> B)
    (l : list A) :
  (forall x y, R x y -> S (f x) (f y)) ->
  StronglySorted R l -> StronglySorted S (map f l).
Proof.
  intros Hf H. induction H as [|a l Hs IH Ha]; [constructor|].
  cbn [map]. constructor; [exact IH|].
  apply Forall_map. eapply Forall_impl; [|exact Ha]. intros y. apply Hf.
Qed.

Lemma sorted_filter {A : Type} (R : A -> A -> Prop) (f : A -> bool) (l : list A) :
  StronglySorted R l -> StronglySorted R (filter f l).
Proof.
  intros H. induction H as [|a l Hs IH Ha]; [constructor|].
  cbn [filter]. destruct (f a); [|exact IH].
  constructor; [exact IH|].
  apply Forall_forall. intros y Hy. apply filter_In in Hy as [Hy _].
  rewrite Forall_forall in Ha. now apply Ha.
Qed.

(** The walk goes in document order. *)
Lemma places_below_sorted (n : Soup.node) :
  StronglySorted (fun p q => precedes p q = true) (places_below n).
Proof.
  induction n as [s|s|t a cs IH] using node_ind'; try constructor.
  rewrite places_below_tag. generalize 0.
  induction IH as [|c l Hc Hl IHl]; intros i; [constructor|].
  cbn [places_from]. apply sorted_app.
  - constructor.
    + apply (sorted_map (fun p q => precedes p q = true)); [|exact Hc].
      intros x y H. cbn [precedes]. now rewrite Nat.eqb_refl, H, orb_true_r.
    + apply Forall_map, Forall_forall. intros p Hp.
      apply places_below_In in Hp as [Hp _].
      destruct p; [contradiction|]. cbn [precedes].
      now rewrite Nat.eqb_refl, orb_true_r.
  - apply IHl.
  - intros x y Hx Hy. apply places_from_In in Hy as (j & c' & p' & -> & _).
    assert (E : (i <? S i + j)%nat = true) by (apply Nat.ltb_lt; lia).
    destruct Hx as [<-|Hx].
    + cbn [precedes]. now rewrite E.
    + apply in_map_iff in Hx as (p & <- & _). cbn [precedes]. now rewrite E.
Qed.

Lemma precedes_asym (p : place) : forall q, precedes p q = true -> precedes q p = false.
Proof.
  induction p as [|i p IH]; intros [|j q] H; try discriminate H; try reflexivity.
  cbn [precedes] in *.
  apply orb_true_iff in H as [H|H].
  - apply Nat.ltb_lt in H.
    assert (E1 : (j <? i)%nat = false) by (apply Nat.ltb_ge; lia).
    assert (E2 : (j =? i)%nat = false) by (apply Nat.eqb_neq; lia).
    now rewrite E1, E2.
  - apply andb_true_iff in H as [H1 H2]. apply Nat.eqb_eq in H1. subst j.
    rewrite Nat.ltb_irrefl, Nat.eqb_refl. cbn [orb andb]. now apply IH.
Qed.

(** One order only lists given elements in document order. *)
Lemma sorted_unique (l1 : list place) :
  forall l2,
    StronglySorted (fun p q => precedes p q = true) l1 ->
    StronglySorted (fun p q => precedes p q = true) l2 ->
    (forall p, In p l1 <-> In p l2) ->
    l1 = l2.
Proof.
  induction l1 as [|a l1 IH]; intros l2 H1 H2 H.
  - destruct l2 as [|b l2]; [reflexivity|].
    destruct (proj2 (H b) (or_introl eq_refl)).
  - destruct l2 as [|b l2]; [destruct (proj1 (H a) (or_introl eq_refl))|].
    apply StronglySorted_inv in H1 as [H1 Ha]. apply StronglySorted_inv in H2 as [H2 Hb].
    rewrite Forall_forall in Ha, Hb.
    assert (E : a = b).
    { destruct (proj1 (H a) (or_introl eq_refl)) as [E|Hin]; [now symmetry|].
      destruct (proj2 (H b) (or_introl eq_refl)) as [E|Hin']; [exact E|].
      pose proof (precedes_asym _ _ (Ha _ Hin')) as C.
      rewrite (Hb _ Hin) in C. discriminate C. }
    subst b. f_equal. apply IH; [exact H1 | exact H2|].
    intros p. split; intros Hp.
    + destruct (proj1 (H p) (or_intror Hp)) as [E|Hin]; [|exact Hin].
      subst p. pose proof (precedes_asym _ _ (Ha _ Hp)) as C.
      rewrite (Ha _ Hp) in C. discriminate C.
    + destruct (proj2 (H p) (or_intror Hp)) as [E|Hin]; [|exact Hin].
      subst p. pose proof (precedes_asym _ _ (Hb _ Hp)) as C.
      rewrite (Hb _ Hp) in C. discriminate C.
Qed.

(** The places of the headings below a node, by a walk of the tree. *)
Definition heading_places (container : Soup.node) : list place :=
  filter (fun p => match node_at container p with
                   | Some h => is_heading h
                   | None => false
                   end) (places_below container).

Lemma heading_places_spec (container : Soup.node) :
  headings_at container (heading_places container).
Proof.
  split.
  - apply sorted_filter, places_below_sorted.
  - intros p. unfold heading_places. rewrite filter_In, places_below_In. split.
    + intros [[Hp [h Hh]] Hf]. rewrite Hh in Hf. split; [exact Hp|]. now exists h.
    + intros [Hp [h [Hh Hf]]]. split; [split; [exact Hp | now exists h]|].
      now rewrite Hh.
Qed.

Lemma headings_at_unique (container : Soup.node) (places : list place) :
  headings_at container places -> places = heading_places container.
Proof.
  intros [Hs Hm]. destruct (heading_places_spec container) as [Hs' Hm'].
  apply sorted_unique; [exact Hs | exact Hs'|].
  intros p. now rewrite Hm, Hm'.
Qed.

Lemma matches_h3 (n : Soup.node) : Soup.matches (Soup.tag "h3") n = is_heading n.
Proof.
  destruct n as [s|s|t a cs]; try reflexivity.
  cbn [Soup.matches Soup.tag Soup.by_name Soup.by_attrs forallb is_heading].
  apply andb_true_r.
Qed.

Lemma map_filter_some {A B : Type} (f : A -> option B) (g : B -> bool) (l : list A)
    (l' : list B) :
  map f l = map Some l' ->
  map f (filter (fun x => match f x with Some y => g y | None => false end) l)
  = map Some (filter g l').
Proof.
  revert l'. induction l as [|x l IH]; intros [|y l'] H; try discriminate H; [reflexivity|].
  cbn [map] in H. injection H as Hx Hl.
  cbn [filter]. rewrite Hx. destruct (g y); cbn [map]; [rewrite Hx; f_equal|]; now apply IH.
Qed.

(** The headings that [find_all] gives are the nodes at the places of the
    headings, in document order. *)
Lemma find_all_headings (container : Soup.node) :
  map (node_at container) (heading_places container)
  = map Some (Soup.find_all (Soup.tag "h3") container).
Proof.
  unfold heading_places, Soup.find_all.
  rewrite (filter_ext _ _ matches_h3).
  apply map_filter_some, nodes_at_places.
Qed.

Lemma Forall2_at {A B C : Type} (f : A -> option B) (R : B -> C -> Prop) (l : list A) :
  forall (l' : list B) (l'' : list C),
    map f l = map Some l' ->
    (Forall2 (fun x z => exists y, f x = Some y /\ R y z) l l'' <-> Forall2 R l' l'').
Proof.
  induction l as [|x l IH]; intros [|y l'] l'' H; try discriminate H.
  - split; intros HF; inversion HF; constructor.
  - cbn [map] in H. injection H as Hx Hl. split; intros HF.
    + inversion HF as [|? z ? l3 (y' & Hy & Hr) HF']; subst.
      rewrite Hx in Hy. injection Hy as <-.
      constructor; [exact Hr | now apply (IH l' l3 Hl)].
    + inversion HF as [|? z ? l3 Hr HF']; subst.
      constructor; [now exists y | now apply (IH l' l3 Hl)].
Qed.

Lemma park_url_Ok (park : Soup.node) (url : string) :
  park_url park = Ok url <->
  exists a href,
    Soup.find (Soup.tag "a") park = Some a /\
    Soup.get "href" a = Some (Soup.AStr href) /\
    url = BASEURL ++ href ++ "index.htm".
Proof.
  unfold park_url, href_of. split.
  - destruct (Soup.find (Soup.tag "a") park) as [a|]; [|discriminate].
    destruct (Soup.get "href" a) as [[href|l]|] eqn:Eg; try discriminate.
    cbn [obind]. intros H. injection H as <-. now exists a, href.
  - intros (a & href & -> & Hg & ->). rewrite Hg. reflexivity.
Qed.

Lemma urls_of_headings (html_parser : string -> Soup.node) (w : World)
    (parks : list Soup.node) :
  forall sites,
    Forall2 (site_of_heading html_parser w) parks sites <->
    exists urls,
      for_each_pure park_url parks = Ok urls /\
      Forall2 (fun url site => site_at html_parser w url = Ok site) urls sites.
Proof.
  induction parks as [|park parks IH]; intros sites.
  - split.
    + intros H. inversion H; subst. exists []. split; [reflexivity | constructor].
    + intros (urls & Hu & HF). cbn [for_each_pure] in Hu. injection Hu as <-.
      inversion HF; subst. constructor.
  - split.
    + intros H. inversion H as [|? site ? rest (a & href & Ha & Hg & Hs) HF]; subst.
      apply IH in HF as (urls & Hu & HF).
      exists ((BASEURL ++ href ++ "index.htm") :: urls). split.
      * cbn [for_each_pure].
        rewrite (proj2 (park_url_Ok park _)) by (now exists a, href).
        cbn [obind]. now rewrite Hu.
      * now constructor.
    + intros (urls & Hu & HF). cbn [for_each_pure] in Hu.
      destruct (park_url park) as [url|] eqn:Eu; [|discriminate Hu].
      cbn [obind] in Hu.
      destruct (for_each_pure park_url parks) as [urls'|]; [|discriminate Hu].
      cbn [obind] in Hu. injection Hu as <-.
      inversion HF as [|? site ? rest Hs HF']; subst.
      apply park_url_Ok in Eu as (a & href & Ha & Hg & ->).
      constructor; [now exists a, href|].
      apply IH. now exists urls'.
Qed.

End OrderFacts.

Module IndexFacts.

Definition assign (d : Dict.dict string) (kv : string * string) : Dict.dict string :=
  Dict.set (fst kv) (snd kv) d.

(** The loop over the anchors is a run of assignments. *)
Lemma fold_state_link (links : list Soup.node) :
  forall acc d,
    fold_outcome state_link acc links = Ok d ->
    exists pairs,
      Forall2 (fun link kv => binds link (fst kv) (snd kv)) links pairs /\
      d = fold_left assign pairs acc.
Proof.
  induction links as [|link links IH]; intros acc d H; cbn [fold_outcome] in H.
  - injection H as <-. exists []. split; [constructor | reflexivity].
  - unfold state_link at 1 in H.
    destruct (href_of (Some link)) as [href|] eqn:Eh; [|discriminate H].
    cbn [obind] in H.
    destruct (string_lower link) as [state|] eqn:Es; [|discriminate H].
    cbn [obind] in H.
    destruct (IH _ _ H) as (pairs & HF & ->).
    exists ((state, BASEURL ++ href) :: pairs). split; [|reflexivity].
    constructor; [|exact HF]. split; [exact Es|]. exists href. now split.
Qed.

Lemma fold_assign_other (pairs : list (string * string)) :
  forall acc k, ~ In k (map fst pairs) ->
    Dict.get k (fold_left assign pairs acc) = Dict.get k acc.
Proof.
  induction pairs as [|[k0 v0] pairs IH]; intros acc k Hk; [reflexivity|].
  cbn [fold_left map fst In] in *. rewrite IH by tauto.
  unfold assign. cbn [fst snd]. apply CacheFacts.get_set_other.
  intros ->. tauto.
Qed.

(** The last assignment to a key is the one that stays. *)
Lemma fold_assign_last (before after : list (string * string)) (k v : string)
    (acc : Dict.dict string) :
  ~ In k (map fst after) ->
  Dict.get k (fold_left assign (before ++ (k, v) :: after)%list acc) = Some v.
Proof.
  intros Hk. rewrite fold_left_app. cbn [fold_left].
  rewrite fold_assign_other by exact Hk.
  unfold assign at 1. cbn [fst snd]. apply CacheFacts.get_set_same.
Qed.

(** Every key that is assigned is bound in the end, to a value assigned to it. *)
Lemma fold_assign_bound (pairs : list (string * string)) :
  forall acc k v, In (k, v) pairs ->
    exists v', In (k, v') pairs /\ Dict.get k (fold_left assign pairs acc) = Some v'.
Proof.
  induction pairs as [|[k0 v0] pairs IH]; intros acc k v Hin; [destruct Hin|].
  destruct (in_dec string_dec k (map fst pairs)) as [Hlater|Hlater].
  - apply in_map_iff in Hlater as ([k1 v1] & Hk & Hin1). cbn [fst] in Hk. subst k1.
    destruct (IH (assign acc (k0, v0)) k v1 Hin1) as (v' & Hin' & Hget).
    exists v'. split; [now right | exact Hget].
  - destruct Hin as [Heq|Hin].
    + injection Heq as -> ->. exists v. split; [now left|].
      apply (fold_assign_last [] pairs k v acc Hlater).
    + exfalso. apply Hlater. apply in_map_iff. now exists (k, v).
Qed.

Lemma Forall2_split_left {A B : Type} (R : A -> B -> Prop) (l1 : list A) (a : A) (l2 : list A) :
  forall l', Forall2 R (l1 ++ a :: l2)%list l' ->
    exists l1' b l2', l' = (l1' ++ b :: l2')%list /\
                      Forall2 R l1 l1' /\ R a b /\ Forall2 R l2 l2'.
Proof.
  intros l' H. apply Forall2_app_inv_l in H as (l1' & r & H1 & H2 & ->).
  inversion H2 as [|? b ? l2' Hab H3]; subst.
  exists l1', b, l2'. repeat split; assumption.
Qed.

Lemma Forall2_In_left {A B : Type} (R : A -> B -> Prop) (l : list A) (l' : list B) (a : A) :
  Forall2 R l l' -> In a l -> exists b, In b l' /\ R a b.
Proof.
  induction 1 as [|x y l l' Hxy HF IH]; intros Hin; [destruct Hin|].
  destruct Hin as [->|Hin].
  - exists y. split; [now left | exact Hxy].
  - destruct (IH Hin) as (b & Hb & Hab). exists b. split; [now right | exact Hab].
Qed.

Lemma Forall2_In_right {A B : Type} (R : A -> B -> Prop) (l : list A) (l' : list B) (b : B) :
  Forall2 R l l' -> In b l' -> exists a, In a l /\ R a b.
Proof.
  induction 1 as [|x y l l' Hxy HF IH]; intros Hin; [destruct Hin|].
  destruct Hin as [->|Hin].
  - exists x. split; [now left | exact Hxy].
  - destruct (IH Hin) as (a & Ha & Hab). exists a. split; [now right | exact Hab].
Qed.

Lemma binds_functional (link : Soup.node) (state state' url url' : string) :
  binds link state url -> binds link state' url' -> state = state' /\ url = url'.
Proof.
  intros (Hs & href & Hh & ->) (Hs' & href' & Hh' & ->).
  rewrite Hs in Hs'. rewrite Hh in Hh'.
  injection Hs' as ->. injection Hh' as ->. now split.
Qed.

Lemma build_state_url_dict_eq (html_parser : string -> Soup.node) (w : World) :
  build_state_url_dict html_parser w =
  (html <~ fst (make_request_with_cache index_url w) ;;
   soup <~ BeautifulSoup html_parser html ;;
   state_dict_of_page soup,
   snd (make_request_with_cache index_url w)).
Proof.
  unfold build_state_url_dict, bind, lift. fold index_url.
  destruct (make_request_with_cache index_url w) as [[v|e] w1]; cbn [fst snd obind];
    [|reflexivity].
  destruct (BeautifulSoup html_parser v); reflexivity.
Qed.

End IndexFacts.

(* ================================================================== *)
(** ** The claims of the specification *)

(** C1. The invariant of the specification (a key written to the cache file
    stays, with its content) does not hold of the code: the page that
    [make_request_with_cache] wrote is gone from the file after the first
    [get_nearby_places], which saves the module-level dictionary only, and
    the next call for the page fetches it again and stores what the site
    answers by then.  The save at the end of the main block drops the page
    in the same way. *)
Theorem nearby_lookup_drops_cached_pages :
  let url := "https://www.nps.gov/index.htm" in
  let w1 := snd (make_request_with_cache url fresh_world) in
  let w2 := snd (get_nearby_places "KEY" isle_royale w1) in
  let w3 := snd (make_request_with_cache url
                   (upstream_changes (fun _ => Some "<html>moved</html>") (api w2) w2)) in
  stored url w1 = Some (JStr "<html>https://www.nps.gov/index.htm</html>") /\
  stored url w2 = None /\
  stored url w3 = Some (JStr "<html>moved</html>") /\
  stored url (snd (save_at_exit w1)) = None.
Proof. vm_compute. repeat split. Qed.

(** C2, as worded, fails: when the URL is in the store before the first
    call, both calls are hits and no request is sent at all. *)
Lemma two_calls_one_request_fails : ~ two_calls_one_request.
Proof.
  intros H.
  destruct (make_request_with_cache "https://www.nps.gov/index.htm" warm_world)
    as [r1 w1] eqn:E1.
  destruct (make_request_with_cache "https://www.nps.gov/index.htm" w1)
    as [r2 w2] eqn:E2.
  vm_compute in E1. injection E1 as <- <-.
  vm_compute in E2. injection E2 as <- <-.
  specialize (H "https://www.nps.gov/index.htm" warm_world _ _ _ _ eq_refl eq_refl)
    as [H _].
  vm_compute in H. discriminate H.
Qed.

(** C2 (amended). When a call of [make_request_with_cache] returns, a
    second call for the same URL returns the same content and sends no
    request, whatever the upstream site and API have become in between.
    The first call sent one request if the URL was not in the store, and
    none if it was: at most one request for the two calls. *)
Theorem fetch_twice_second_is_hit (url : string) (w w1 : World) (c1 : json)
    (web' : string -> option string) (api' : string -> Dict.dict json -> option json) :
  make_request_with_cache url w = (Ok c1, w1) ->
  exists w2,
    make_request_with_cache url (upstream_changes web' api' w1) = (Ok c1, w2) /\
    requests w2 = requests w1 /\
    requests w1 =
      (requests w ++ (if in_store url w then [] else [page_request url]))%list.
Proof.
  intros H. rewrite CacheFacts.make_request_with_cache_eq in H.
  rewrite CacheFacts.make_request_with_cache_eq.
  unfold in_store, Dict.mem.
  destruct (loaded w) as [[| | | |l|d]|e0] eqn:El; try discriminate H.
  pose proof (CacheFacts.loaded_wf w _ El) as Hwf.
  destruct (Dict.get url d) as [v|] eqn:E.
  - injection H as <- <-.
    rewrite (CacheFacts.loaded_disk _ w) by reflexivity.
    eexists. rewrite El, E. repeat split. cbn. now rewrite app_nil_r.
  - cbv zeta in H. destruct (web w url) as [body|]; [|discriminate H].
    pose proof (f_equal fst H) as H1. pose proof (f_equal snd H) as H2.
    cbn [fst snd] in H1, H2. injection H1 as <-. subst w1. clear H.
    match goal with
    | |- context [loaded (upstream_changes _ _ (snd (save_cache ?v ?w0)))] =>
        rewrite (CacheFacts.loaded_disk _ (snd (save_cache v w0))) by reflexivity;
        rewrite (CacheFacts.loaded_after_save v w0)
          by (apply CacheFacts.set_wf; [exact Hwf | reflexivity])
    end.
    rewrite CacheFacts.get_set_same.
    eexists. repeat split.
Qed.

(** C2 (amended), in a process without a cache file, with the site changed
    and the API gone between the two calls. *)
Lemma fetch_twice_second_is_hit_witness :
  exists w2,
    make_request_with_cache "https://www.nps.gov/index.htm"
      (upstream_changes (fun _ => Some "<html>moved</html>") (fun _ _ => None)
         (snd (make_request_with_cache "https://www.nps.gov/index.htm" fresh_world)))
    = (Ok (JStr "<html>https://www.nps.gov/index.htm</html>"), w2) /\
    requests w2 = requests (snd (make_request_with_cache "https://www.nps.gov/index.htm" fresh_world)) /\
    requests (snd (make_request_with_cache "https://www.nps.gov/index.htm" fresh_world)) =
      (requests fresh_world ++
       (if in_store "https://www.nps.gov/index.htm" fresh_world then []
        else [page_request "https://www.nps.gov/index.htm"]))%list.
Proof.
  apply (fetch_twice_second_is_hit "https://www.nps.gov/index.htm" fresh_world).
  reflexivity.
Defined.

(** C3, as worded, fails: the contact page of Keweenaw, complete but for
    the telephone, gives no record. *)
Lemma phone_defaults_to_empty_fails : ~ phone_defaults_to_empty.
Proof.
  intros H.
  destruct (make_request_with_cache "https://www.nps.gov/kewe/contact.htm" Pages.cold_world)
    as [r w1] eqn:E.
  vm_compute in E. injection E as <- <-.
  specialize (H Pages.parser "https://www.nps.gov/kewe/contact.htm" _ Pages.cold_world _ eq_refl
                eq_refl eq_refl eq_refl eq_refl eq_refl).
  destruct H as (site & H & _). vm_compute in H. discriminate H.
Qed.

(** C3 (amended). When the contact block of the detail page has no
    telephone marker, [get_site_instance] fails and returns no record; a
    record that it does return has for [phone] the stripped text of the
    marker, so an empty [phone] comes only from a marker with blank text. *)
Theorem phone_is_required (html_parser : string -> Soup.node) (site_url html : string)
    (w w1 : World) :
  make_request_with_cache site_url w = (Ok (JStr html), w1) ->
  let soup := html_parser html in
  (has_marker (Soup.class_ "tel") (footer_of soup) = false ->
   get_site_instance html_parser site_url w = (Raise AttributeError, w1)) /\
  (forall site,
     get_site_instance html_parser site_url w = (Ok site, w1) ->
     exists footer tel,
       footer_of soup = Some footer /\
       Soup.find (Soup.class_ "tel") footer = Some tel /\
       phone site = PyStr.strip (Soup.text tel)).
Proof.
  intros Hreq soup. rewrite SiteFacts.get_site_instance_eq, Hreq.
  cbn [fst snd obind BeautifulSoup]. fold soup. split.
  - intros H. rewrite SiteFacts.site_of_page_required; [reflexivity|]. tauto.
  - intros site H. injection H as H. revert H.
    unfold site_of_page, footer_of.
    destruct (Soup.find (Soup.class_ "Hero-titleContainer clearfix") soup) as [header|];
      destruct (Soup.find (Soup.class_ "vcard") soup) as [footer|];
      cbn [find_in obind];
      try (destruct (Soup.find (Soup.class_ "tel") footer) as [tel|] eqn:Et);
      repeat match goal with
             | |- context [Soup.find ?c ?n] => destruct (Soup.find c n)
             end;
      cbn [text_of obind]; try discriminate;
      intros H; injection H as <-; exists footer, tel; repeat split; exact Et.
Qed.

(** C3 (amended), on the contact page of Keweenaw. *)
Lemma phone_is_required_witness :
  get_site_instance Pages.parser "https://www.nps.gov/kewe/contact.htm" Pages.cold_world
  = (Raise AttributeError,
     snd (make_request_with_cache "https://www.nps.gov/kewe/contact.htm" Pages.cold_world)).
Proof.
  apply (phone_is_required Pages.parser "https://www.nps.gov/kewe/contact.htm"
           (Pages.render Pages.no_phone_page) Pages.cold_world); reflexivity.
Defined.

(** C4. The fields are not treated alike.  A detail page without the
    postal code, or without the name (or the locality, the region, the
    telephone), makes [get_site_instance] fail: no record is returned.  A
    page that lacks the category only gives a record, whose category is
    [No category]. *)
Theorem category_is_the_only_soft_field (html_parser : string -> Soup.node)
    (site_url html : string) (w w1 : World) :
  make_request_with_cache site_url w = (Ok (JStr html), w1) ->
  let soup := html_parser html in
  (has_marker (Soup.class_ "postal-code") (footer_of soup) = false \/
   has_marker (Soup.class_ "Hero-title") (header_of soup) = false \/
   has_marker (Soup.attr_is "itemprop" "addressLocality") (footer_of soup) = false \/
   has_marker (Soup.attr_is "itemprop" "addressRegion") (footer_of soup) = false \/
   has_marker (Soup.class_ "tel") (footer_of soup) = false ->
   get_site_instance html_parser site_url w = (Raise AttributeError, w1)) /\
  (has_marker (Soup.class_ "Hero-designation") (header_of soup) = false ->
   has_marker (Soup.class_ "Hero-title") (header_of soup) = true ->
   has_marker (Soup.attr_is "itemprop" "addressLocality") (footer_of soup) = true ->
   has_marker (Soup.attr_is "itemprop" "addressRegion") (footer_of soup) = true ->
   has_marker (Soup.class_ "postal-code") (footer_of soup) = true ->
   has_marker (Soup.class_ "tel") (footer_of soup) = true ->
   exists site,
     get_site_instance html_parser site_url w = (Ok site, w1) /\
     category site = "No category").
Proof.
  intros Hreq soup. rewrite SiteFacts.get_site_instance_eq, Hreq.
  cbn [fst snd obind BeautifulSoup]. fold soup. split.
  - intros H. rewrite SiteFacts.site_of_page_required; [reflexivity|]. tauto.
  - intros Hc H1 H2 H3 H4 H5.
    destruct (SiteFacts.site_of_page_category soup H1 H2 H3 H4 H5) as (site & -> & Hs).
    exists site. split; [reflexivity | exact (Hs Hc)].
Qed.

(** C4, on the page of North Country, which has no designation. *)
Lemma category_is_the_only_soft_field_witness :
  exists site,
    get_site_instance Pages.parser "https://www.nps.gov/noco/index.htm" Pages.cold_world
    = (Ok site, snd (make_request_with_cache "https://www.nps.gov/noco/index.htm" Pages.cold_world)) /\
    category site = "No category".
Proof.
  apply (category_is_the_only_soft_field Pages.parser "https://www.nps.gov/noco/index.htm"
           (Pages.render Pages.no_designation_page) Pages.cold_world); reflexivity.
Defined.

(** C5. Every result of the nearby-places lookup is shown with its name
    unchanged and with a blank category, address or city replaced by
    [no category], [no address], [no city]. *)
Theorem nearby_places_normalised (API_KEY : string) (place : NationalSite) (w w' : World)
    (shown : list NearbyPlace) :
  nearby_places API_KEY place w = (Ok shown, w') ->
  exists doc result infos,
    get_nearby_places API_KEY place w = (Ok doc, w') /\
    py_getitem doc "searchResults" = Ok result /\
    py_iter result = Ok infos /\
    Forall2 normalised infos shown.
Proof.
  unfold nearby_places, bind, lift. intros H.
  destruct (get_nearby_places API_KEY place w) as [[doc|e] w1]; [|discriminate H].
  destruct (py_getitem doc "searchResults") as [result|] eqn:Er; [|discriminate H].
  destruct (py_iter result) as [infos|] eqn:Ei; [|discriminate H].
  destruct (for_each_pure nearby_place infos) as [ps|] eqn:E; [|discriminate H].
  injection H as <- <-.
  exists doc, result, infos. repeat split; try assumption.
  apply (PlacesFacts.for_each_pure_Forall2 nearby_place); [|exact E].
  apply PlacesFacts.nearby_place_normalised.
Qed.

(** C5, on two results: one without address and city, one without
    category. *)
Lemma nearby_places_normalised_witness :
  exists doc result infos,
    get_nearby_places "KEY" isle_royale places_world
    = (Ok doc, snd (nearby_places "KEY" isle_royale places_world)) /\
    py_getitem doc "searchResults" = Ok result /\
    py_iter result = Ok infos /\
    Forall2 normalised infos places_shown.
Proof.
  apply (nearby_places_normalised "KEY" isle_royale places_world). reflexivity.
Defined.

(** C6. For any mapping of string keys to JSON values (strings and objects
    among them), [save_cache] followed by [open_cache] yields the mapping
    that was saved. *)
Theorem save_then_open_round_trip (cache_dict : Dict.dict json) (w : World) :
  Json.wf (JObj cache_dict) = true ->
  fst ((save_cache (JObj cache_dict) ;;; open_cache) w) = Ok (JObj cache_dict).
Proof.
  intros Hw. unfold bind.
  pose proof (CacheFacts.loaded_after_save (JObj cache_dict) w Hw) as H.
  destruct (save_cache (JObj cache_dict) w) as [[[]|e] w1] eqn:E.
  - unfold open_cache. cbn [fst snd] in *. now rewrite H.
  - discriminate E.
Qed.

(** C6, on a store with a page and an API response. *)
Lemma save_then_open_round_trip_witness :
  Json.wf (JObj example_store) = true /\
  fst ((save_cache (JObj example_store) ;;; open_cache) fresh_world) = Ok (JObj example_store).
Proof.
  split; [reflexivity|].
  apply (save_then_open_round_trip example_store fresh_world). reflexivity.
Defined.

(** C7. [get_sites_for_state] returns one record per heading of the list of
    parks, in the order of the headings in the document: with the places of
    the [h3] elements below the container listed from the first to the last
    of the document, the record at place [i] of the result is the site of
    the detail page that the first anchor of heading [i] leads to.  It
    returns exactly when the state page has the list and every heading
    leads to a site. *)
Theorem sites_in_document_order (html_parser : string -> Soup.node) (state_url : string)
    (w : World) (sites : list NationalSite) :
  fst (get_sites_for_state html_parser state_url w) = Ok sites <->
  exists html container places,
    page_content w state_url = Ok (JStr html) /\
    Soup.find (Soup.attr_is "id" "list_parks") (html_parser html) = Some container /\
    headings_at container places /\
    Forall2 (fun p site =>
               exists heading,
                 node_at container p = Some heading /\
                 site_of_heading html_parser w heading site) places sites.
Proof.
  rewrite ListingFacts.sites_returned. split.
  - intros (html & parks & urls & Hc & Hp & Hu & HF).
    unfold parks_of_page, find_all_in in Hp.
    destruct (Soup.find (Soup.attr_is "id" "list_parks") (html_parser html))
      as [container|] eqn:Ef; [|discriminate Hp].
    injection Hp as <-.
    exists html, container, (OrderFacts.heading_places container).
    split; [exact Hc|]. split; [exact Ef|].
    split; [apply OrderFacts.heading_places_spec|].
    apply (OrderFacts.Forall2_at _ _ _ _ _ (OrderFacts.find_all_headings container)).
    apply OrderFacts.urls_of_headings. now exists urls.
  - intros (html & container & places & Hc & Ef & Hh & HF).
    apply OrderFacts.headings_at_unique in Hh. subst places.
    apply (OrderFacts.Forall2_at _ _ _ _ _ (OrderFacts.find_all_headings container)) in HF.
    apply OrderFacts.urls_of_headings in HF as (urls & Hu & HF).
    exists html, (Soup.find_all (Soup.tag "h3") container), urls.
    split; [exact Hc|]. split; [|split; assumption].
    unfold parks_of_page. now rewrite Ef.
Qed.

(** C7, on the state page of the examples: the headings of Keweenaw, Isle
    Royale and North Country are the first element of the first, second and
    third item of the list, and that is the order of the records. *)
Lemma sites_in_document_order_witness :
  exists container,
    Soup.find (Soup.attr_is "id" "list_parks") Pages.michigan_page = Some container /\
    headings_at container [[0; 0]; [1; 0]; [2; 0]] /\
    fst (get_sites_for_state Pages.parser "https://www.nps.gov/state/mi/index.htm"
           Pages.cold_world) = Ok michigan_sites.
Proof.
  eexists. split; [reflexivity|].
  split; [exact (OrderFacts.heading_places_spec _)|].
  apply (proj2 (sites_in_document_order Pages.parser
                  "https://www.nps.gov/state/mi/index.htm" Pages.cold_world michigan_sites)).
  exists (Pages.render Pages.michigan_page). eexists. exists [[0; 0]; [1; 0]; [2; 0]].
  split; [vm_compute; reflexivity|].
  split; [vm_compute; reflexivity|].
  split; [exact (OrderFacts.heading_places_spec _)|].
  repeat constructor;
    (eexists; split; [reflexivity|]; eexists; eexists;
     split; [reflexivity|]; split; [reflexivity|]; vm_compute; reflexivity).
Defined.

(** The state page of the examples lists Keweenaw, Isle Royale and North
    Country, and that is the order of the records. *)
Lemma michigan_sites_in_order :
  fst (get_sites_for_state Pages.parser "https://www.nps.gov/state/mi/index.htm"
         Pages.cold_world) = Ok michigan_sites.
Proof. vm_compute. reflexivity. Qed.

(** C8, as worded, fails: a menu with the anchors Michigan and MICHIGAN, to
    two addresses, binds the key to the second address, not to the first. *)
Lemma every_anchor_bound_fails : ~ every_anchor_bound.
Proof.
  intros H.
  destruct (build_state_url_dict Pages.parser Pages.twice_world) as [r w'] eqn:E.
  vm_compute in E. injection E as <- <-.
  specialize (H Pages.parser Pages.twice_world _ _
                (Pages.render Pages.twice_page)
                [Pages.el "a" [("href", Soup.AStr "/state/mi/index.htm")]
                   [Soup.NavigableString "Michigan"];
                 Pages.el "a" [("href", Soup.AStr "/state/mi/list.htm")]
                   [Soup.NavigableString "MICHIGAN"]]
                eq_refl eq_refl eq_refl
                (Pages.el "a" [("href", Soup.AStr "/state/mi/index.htm")]
                   [Soup.NavigableString "Michigan"])
                "michigan" "https://www.nps.gov/state/mi/index.htm").
  assert (Hget : Dict.get "michigan" [("michigan", "https://www.nps.gov/state/mi/list.htm")]
                 = Some "https://www.nps.gov/state/mi/index.htm").
  { apply H.
    - now left.
    - split; [reflexivity|]. exists "/state/mi/index.htm". split; reflexivity. }
  vm_compute in Hget. discriminate Hget.
Qed.

(** C8 (amended). In the result of [build_state_url_dict] the text of
    every anchor of the menu, in lower case, is a key; it is bound to the
    [href], after the base address, of the last anchor with that text in
    lower case, hence to the anchor's own when no later anchor has the same
    text up to case.  A lookup after lower-casing the query gives the same
    for [Michigan] and [michigan]. *)
Theorem state_dict_binds_last_anchor (html_parser : string -> Soup.node) (w w' : World)
    (state_dict : Dict.dict string) :
  build_state_url_dict html_parser w = (Ok state_dict, w') ->
  exists html links,
    page_content w index_url = Ok (JStr html) /\
    state_links (html_parser html) = Ok links /\
    (forall before link after state url,
       links = (before ++ link :: after)%list ->
       binds link state url ->
       (forall later, In later after -> string_lower later <> Ok state) ->
       Dict.get state state_dict = Some url) /\
    (forall link state url,
       In link links -> binds link state url ->
       exists link' url',
         In link' links /\ binds link' state url' /\
         Dict.get state state_dict = Some url') /\
    (forall q1 q2, PyStr.lower q1 = PyStr.lower q2 ->
                   lookup_state q1 state_dict = lookup_state q2 state_dict) /\
    lookup_state "Michigan" state_dict = lookup_state "michigan" state_dict.
Proof.
  rewrite IndexFacts.build_state_url_dict_eq, ListingFacts.fetch_content. intros H.
  destruct (page_content w index_url) as [v|] eqn:Ec; [|discriminate H].
  destruct v as [| | |html| |]; cbn [fst obind BeautifulSoup] in H; try discriminate H.
  unfold state_dict_of_page in H.
  destruct (state_links (html_parser html)) as [links|] eqn:El;
    cbn [obind] in H; [|discriminate H].
  destruct (fold_outcome state_link Dict.empty links) as [d|] eqn:Ef; [|discriminate H].
  injection H as -> _.
  destruct (IndexFacts.fold_state_link links _ _ Ef) as (pairs & HF & ->).
  exists html, links.
  split; [reflexivity|]. split; [exact El|].
  split; [|split; [|split; [|reflexivity]]].
  - intros before link after state url -> Hb Hlast.
    apply IndexFacts.Forall2_split_left in HF
      as (before' & [k v] & after' & -> & _ & Hkv & Hafter).
    cbn [fst snd] in Hkv.
    destruct (IndexFacts.binds_functional _ _ _ _ _ Hkv Hb) as [-> ->].
    apply IndexFacts.fold_assign_last.
    intros Hin. apply in_map_iff in Hin as ([k1 v1] & Hk & Hin). cbn [fst] in Hk. subst k1.
    destruct (IndexFacts.Forall2_In_right _ _ _ _ Hafter Hin) as (later & Hl & Hs & _).
    exact (Hlast later Hl Hs).
  - intros link state url Hin Hb.
    destruct (IndexFacts.Forall2_In_left _ _ _ _ HF Hin) as ([k v] & Hp & Hkv).
    cbn [fst snd] in Hkv.
    destruct (IndexFacts.binds_functional _ _ _ _ _ Hkv Hb) as [-> ->].
    destruct (IndexFacts.fold_assign_bound pairs Dict.empty state url Hp)
      as (url' & Hp' & Hget).
    destruct (IndexFacts.Forall2_In_right _ _ _ _ HF Hp') as (link' & Hin' & Hb').
    exists link', url'. split; [assumption | split; assumption].
  - intros q1 q2 Hq. unfold lookup_state. now rewrite Hq.
Qed.

(** C8 (amended), on the menu that names Michigan twice. *)
Lemma state_dict_binds_last_anchor_witness :
  exists html links,
    page_content Pages.twice_world index_url = Ok (JStr html) /\
    state_links (Pages.parser html) = Ok links /\
    (forall before link after state url,
       links = (before ++ link :: after)%list ->
       binds link state url ->
       (forall later, In later after -> string_lower later <> Ok state) ->
       Dict.get state [("michigan", "https://www.nps.gov/state/mi/list.htm")] = Some url) /\
    (forall link state url,
       In link links -> binds link state url ->
       exists link' url',
         In link' links /\ binds link' state url' /\
         Dict.get state [("michigan", "https://www.nps.gov/state/mi/list.htm")] = Some url') /\
    (forall q1 q2, PyStr.lower q1 = PyStr.lower q2 ->
                   lookup_state q1 [("michigan", "https://www.nps.gov/state/mi/list.htm")]
                   = lookup_state q2 [("michigan", "https://www.nps.gov/state/mi/list.htm")]) /\
    lookup_state "Michigan" [("michigan", "https://www.nps.gov/state/mi/list.htm")]
    = lookup_state "michigan" [("michigan", "https://www.nps.gov/state/mi/list.htm")].
Proof.
  apply (state_dict_binds_last_anchor Pages.parser Pages.twice_world
           (snd (build_state_url_dict Pages.parser Pages.twice_world))).
  reflexivity.
Defined.

(** C9. On a cache hit, that is when the URL is a key of the store that
    [open_cache] loads, [make_request_with_cache] returns the stored content
    and leaves the cache file as it was: nothing is saved, and nothing is
    requested. *)
Theorem cache_hit_leaves_file_unchanged (baseurl : string) (w : World) (store : Dict.dict json) :
  fst (open_cache w) = Ok (JObj store) ->
  Dict.mem baseurl store = true ->
  exists content w',
    make_request_with_cache baseurl w = (Ok content, w') /\
    Dict.get baseurl store = Some content /\
    disk w' = disk w /\ requests w' = requests w /\ CACHE_DICT w' = CACHE_DICT w.
Proof.
  unfold open_cache. cbn [fst]. intros Hl Hm.
  rewrite CacheFacts.make_request_with_cache_eq, Hl.
  rewrite CacheFacts.mem_get in Hm.
  destruct (Dict.get baseurl store) as [v|]; [|discriminate].
  exists v. eexists. repeat split.
Qed.

(** C9, on the front page in the cache file of an earlier run. *)
Lemma cache_hit_leaves_file_unchanged_witness :
  exists content w',
    make_request_with_cache "https://www.nps.gov/index.htm" warm_world = (Ok content, w') /\
    Dict.get "https://www.nps.gov/index.htm" example_store = Some content /\
    disk w' = disk warm_world /\ requests w' = requests warm_world /\
    CACHE_DICT w' = CACHE_DICT warm_world.
Proof.
  apply (cache_hit_leaves_file_unchanged "https://www.nps.gov/index.htm" warm_world
           example_store);
    reflexivity.
Defined.

(** C10. No function that reads pages touches the module-level
    [CACHE_DICT] ([make_request_with_cache] works on a local of the same
    name), and [get_nearby_places] looks nowhere else: in a process whose
    [CACHE_DICT] is still empty, after any calls of the page functions, the
    first [get_nearby_places] sends its request to the places API, whatever
    the cache file holds. *)
Theorem first_nearby_lookup_asks_the_api (API_KEY : string)
    (html_parser : string -> Soup.node) (calls : list page_call)
    (site_object : NationalSite) (w : World) :
  CACHE_DICT w = Dict.empty ->
  let w1 := snd (run_page_calls html_parser calls w) in
  let w2 := snd (get_nearby_places API_KEY site_object w1) in
  CACHE_DICT w1 = Dict.empty /\
  requests w2 =
    (requests w1 ++ [{| req_url := places_url;
                        req_params := places_params API_KEY site_object |}])%list.
Proof.
  intros Hfresh w1 w2.
  assert (H1 : CACHE_DICT w1 = Dict.empty).
  { unfold w1. now rewrite CacheFacts.keeps_run_page_calls. }
  split; [exact H1|].
  unfold w2, get_nearby_places, bind, get_CACHE_DICT. rewrite H1.
  cbn [Dict.mem Dict.get Dict.empty print].
  unfold make_request, requests_get_json. cbn [api].
  destruct (api w1 places_url (places_params API_KEY site_object)); reflexivity.
Qed.

(** C10, in a later run: the cache file has the key 49931, the postal code
    of Isle Royale, and the request is sent all the same. *)
Lemma first_nearby_lookup_asks_the_api_witness :
  let calls := [SitesForState "https://www.nps.gov/state/mi/index.htm"] in
  let w1 := snd (run_page_calls Pages.parser calls Pages.later_world) in
  let w2 := snd (get_nearby_places "KEY" isle_royale w1) in
  CACHE_DICT w1 = Dict.empty /\
  requests w2 =
    (requests w1 ++ [{| req_url := places_url;
                        req_params := places_params "KEY" isle_royale |}])%list.
Proof.
  apply (first_nearby_lookup_asks_the_api "KEY" Pages.parser
           [SitesForState "https://www.nps.gov/state/mi/index.htm"]
           isle_royale Pages.later_world).
  reflexivity.
Defined.

(* ================================================================== *)
(** ** Further facts about the store *)

Module StoreFacts.

(** A property of the world that a computation keeps, whatever its
    outcome. *)
Definition preserves {A : Type} (P : World -> Prop) (m : M A) : Prop :=
  forall w, P w -> P (snd (m w)).

Lemma preserves_ret {A : Type} (P : World -> Prop) (a : A) : preserves P (ret a).
Proof. intros w H. exact H. Qed.

Lemma preserves_lift {A : Type} (P : World -> Prop) (o : outcome A) : preserves P (lift o).
Proof. intros w H. exact H. Qed.

Lemma preserves_bind {A B : Type} (P : World -> Prop) (m : M A) (k : A -> M B) :
  preserves P m -> (forall a, preserves P (k a)) -> preserves P (bind m k).
Proof.
  intros Hm Hk w Hw. unfold bind. specialize (Hm w Hw).
  destruct (m w) as [[a|e] w1]; cbn [snd] in *; [|exact Hm].
  now apply Hk.
Qed.

Lemma preserves_for_each {A B : Type} (P : World -> Prop) (f : A -> M B) (l : list A) :
  (forall a, preserves P (f a)) -> preserves P (for_each f l).
Proof.
  intros Hf. induction l as [|a l IH]; cbn [for_each].
  - apply preserves_ret.
  - apply preserves_bind; [apply Hf|]. intros b.
    apply preserves_bind; [exact IH|]. intros bs. apply preserves_ret.
Qed.

(** Every page function is [make_request_with_cache] and steps without
    effect. *)
Lemma preserves_page_calls (P : World -> Prop) (html_parser : string -> Soup.node) :
  (forall url, preserves P (make_request_with_cache url)) ->
  forall cs, preserves P (run_page_calls html_parser cs).
Proof.
  intros Hf.
  assert (Hsite : forall u, preserves P (get_site_instance html_parser u)).
  { intros u. unfold get_site_instance.
    apply preserves_bind; [apply Hf|]. intros html.
    apply preserves_bind; [apply preserves_lift|]. intros soup. apply preserves_lift. }
  induction cs as [|c cs IH]; cbn [run_page_calls]; [apply preserves_ret|].
  apply preserves_bind; [|intros _; exact IH].
  destruct c as [url| |site_url|state_url]; cbn [run_page_call];
    (apply preserves_bind; [|intros ?; apply preserves_ret]).
  - apply Hf.
  - unfold build_state_url_dict.
    apply preserves_bind; [apply Hf|]. intros html.
    apply preserves_bind; [apply preserves_lift|]. intros soup. apply preserves_lift.
  - apply Hsite.
  - unfold get_sites_for_state.
    apply preserves_bind; [apply Hf|]. intros html.
    apply preserves_bind; [apply preserves_lift|]. intros soup.
    apply preserves_bind; [apply preserves_lift|]. intros parks.
    apply preserves_for_each. intros park.
    apply preserves_bind; [apply preserves_lift|]. intros url. apply Hsite.
Qed.

Lemma stored_disk (k : string) (w w' : World) : disk w = disk w' -> stored k w = stored k w'.
Proof. intros H. unfold stored. now rewrite (CacheFacts.loaded_disk w w' H). Qed.

(** One fetch keeps what the file binds. *)
Lemma fetch_keeps_stored (k : string) (v : json) (url : string) :
  preserves (fun w => stored k w = Some v) (make_request_with_cache url).
Proof.
  intros w H. rewrite CacheFacts.make_request_with_cache_eq.
  unfold stored in H.
  destruct (loaded w) as [[| | | |l|d]|e0] eqn:El; try discriminate H.
  pose proof (CacheFacts.loaded_wf w _ El) as Hwf.
  destruct (Dict.get url d) as [x|] eqn:E.
  - cbn [snd]. unfold stored. rewrite (CacheFacts.loaded_disk _ w) by reflexivity.
    now rewrite El.
  - cbv zeta. destruct (web w url) as [body|]; cbn [snd].
    + unfold stored. rewrite CacheFacts.loaded_after_save
        by (apply CacheFacts.set_wf; [exact Hwf | reflexivity]).
      rewrite CacheFacts.get_set_other; [exact H|].
      intros ->. congruence.
    + unfold stored. rewrite (CacheFacts.loaded_disk _ w) by reflexivity.
      now rewrite El.
Qed.

(** What a fetch returns is in the file afterwards. *)
Lemma fetch_stores (url : string) (w w1 : World) (c : json) :
  make_request_with_cache url w = (Ok c, w1) -> stored url w1 = Some c.
Proof.
  rewrite CacheFacts.make_request_with_cache_eq. intros H.
  destruct (loaded w) as [[| | | |l|d]|e0] eqn:El; try discriminate H.
  pose proof (CacheFacts.loaded_wf w _ El) as Hwf.
  destruct (Dict.get url d) as [x|] eqn:E.
  - pose proof (f_equal fst H) as H1. pose proof (f_equal snd H) as H2.
    cbn [fst snd] in H1, H2. injection H1 as <-. subst w1.
    unfold stored. rewrite (CacheFacts.loaded_disk _ w) by reflexivity.
    now rewrite El.
  - cbv zeta in H. destruct (web w url) as [body|]; [|discriminate H].
    pose proof (f_equal fst H) as H1. pose proof (f_equal snd H) as H2.
    cbn [fst snd] in H1, H2. injection H1 as <-. subst w1.
    unfold stored. rewrite CacheFacts.loaded_after_save
      by (apply CacheFacts.set_wf; [exact Hwf | reflexivity]).
    apply CacheFacts.get_set_same.
Qed.

(** A fetch of an address that the file binds: the bound content, no
    request, the file as it was. *)
Lemma fetch_hit (url : string) (w : World) (c : json) :
  stored url w = Some c ->
  make_request_with_cache url w = (Ok c, snd (print "Using cache" w)).
Proof.
  intros H. rewrite CacheFacts.make_request_with_cache_eq.
  unfold stored in H.
  destruct (loaded w) as [[| | | |l|d]|e0]; try discriminate H.
  now rewrite H.
Qed.

End StoreFacts.

(* ================================================================== *)
(** ** Further facts about the places lookup *)

Module NearbyFacts.

Definition places_request (API_KEY : string) (site_object : NationalSite) : request :=
  {| req_url := places_url; req_params := places_params API_KEY site_object |}.

(** The three ways [get_nearby_places] can go. *)
Lemma get_nearby_places_eq (API_KEY : string) (site_object : NationalSite) (w : World) :
  get_nearby_places API_KEY site_object w =
  match Dict.get (zipcode site_object) (CACHE_DICT w) with
  | Some doc => (Ok doc, snd (print "Using Cache" w))
  | None =>
      let w1 := send (places_request API_KEY site_object) (snd (print "Fetching" w)) in
      match api w places_url (places_params API_KEY site_object) with
      | Some doc =>
          let d := Dict.set (zipcode site_object) doc (CACHE_DICT w) in
          (Ok doc, snd (save_cache (JObj d) (snd (set_CACHE_DICT d w1))))
      | None => (Raise RequestException, w1)
      end
  end.
Proof.
  unfold get_nearby_places, bind, get_CACHE_DICT, lift. rewrite CacheFacts.mem_get.
  destruct (Dict.get (zipcode site_object) (CACHE_DICT w)) as [doc|] eqn:E.
  - cbn [print py_getitem snd]. unfold print. cbn [py_getitem]. now rewrite E.
  - unfold print, make_request, requests_get_json. cbn [api snd].
    destruct (api w places_url (places_params API_KEY site_object)) as [doc|];
      [|reflexivity].
    unfold set_CACHE_DICT, save_cache, write_file. cbn [CACHE_DICT py_getitem snd].
    now rewrite CacheFacts.get_set_same.
Qed.


Lemma for_each_pure_In {A B : Type} (f : A -> outcome B) (l : list A) (bs : list B) (a : A) :
  for_each_pure f l = Ok bs -> In a l -> exists b, f a = Ok b.
Proof.
  revert bs. induction l as [|x l IH]; intros bs H Hin; [destruct Hin|].
  cbn [for_each_pure] in H.
  destruct (f x) as [b|] eqn:E; [|discriminate H]. cbn [obind] in H.
  destruct (for_each_pure f l) as [bs'|]; [|discriminate H].
  destruct Hin as [->|Hin]; [now exists b | exact (IH bs' eq_refl Hin)].
Qed.

End NearbyFacts.

(* ================================================================== *)
(** ** Facts about Python strings *)

Module PyStrFacts.
Import PyStr.

Lemma lower_char_idem (c : ascii) : lower_char (lower_char c) = lower_char c.
Proof. destruct c as [[] [] [] [] [] [] [] []]; reflexivity. Qed.

Lemma lower_idem (s : string) : lower (lower s) = lower s.
Proof.
  induction s as [|c s IH]; cbn [lower]; [reflexivity|].
  now rewrite lower_char_idem, IH.
Qed.

(** What [lstrip] leaves does not start with a blank. *)
Lemma lstrip_head (s : string) :
  lstrip s = EmptyString \/ exists c r, lstrip s = String c r /\ isspace c = false.
Proof.
  induction s as [|c s IH]; cbn [lstrip]; [now left|].
  destruct (isspace c) eqn:E; [exact IH|].
  right. exists c, s. now split.
Qed.

Lemma rstrip_idem (s : string) : rstrip (rstrip s) = rstrip s.
Proof.
  induction s as [|c s IH]; [reflexivity|].
  cbn [rstrip]. destruct (rstrip s) as [|a t] eqn:E.
  - destruct (isspace c) eqn:Ec; [reflexivity|].
    cbn [rstrip]. now rewrite Ec.
  - cbn [rstrip]. cbn [rstrip] in IH. rewrite IH. reflexivity.
Qed.

(** [rstrip] keeps a first character that is not a blank. *)
Lemma rstrip_head (c : ascii) (r : string) :
  isspace c = false -> exists r', rstrip (String c r) = String c r'.
Proof.
  intros Hc. cbn [rstrip]. destruct (rstrip r) as [|a t].
  - rewrite Hc. now exists EmptyString.
  - now exists (String a t).
Qed.

Lemma strip_idem (s : string) : strip (strip s) = strip s.
Proof.
  unfold strip.
  assert (H : lstrip (rstrip (lstrip s)) = rstrip (lstrip s)).
  { destruct (lstrip_head s) as [E|(c & r & E & Hc)]; rewrite E; [reflexivity|].
    destruct (rstrip_head c r Hc) as [r' Er]. rewrite Er.
    cbn [lstrip]. now rewrite Hc. }
  rewrite H. apply rstrip_idem.
Qed.

End PyStrFacts.

(* ================================================================== *)
(** ** Further facts about the index of the states *)

Module IndexMore.

(** What a run of assignments binds was assigned, or was there before. *)
Lemma fold_assign_inv (pairs : list (string * string)) :
  forall acc k v,
    Dict.get k (fold_left IndexFacts.assign pairs acc) = Some v ->
    In (k, v) pairs \/ Dict.get k acc = Some v.
Proof.
  induction pairs as [|[k0 v0] pairs IH]; intros acc k v H; [now right|].
  cbn [fold_left] in H. destruct (IH _ _ _ H) as [Hin|Hget].
  - left. now right.
  - unfold IndexFacts.assign in Hget. cbn [fst snd] in Hget.
    destruct (string_dec k k0) as [->|Hne].
    + rewrite CacheFacts.get_set_same in Hget. injection Hget as ->. left. now left.
    + rewrite CacheFacts.get_set_other in Hget by exact Hne. now right.
Qed.

Lemma string_lower_is_lower (link : Soup.node) (state : string) :
  string_lower link = Ok state -> PyStr.lower state = state.
Proof.
  unfold string_lower. destruct (Soup.string_ link) as [t|]; [|discriminate].
  intros H. injection H as <-. apply PyStrFacts.lower_idem.
Qed.

End IndexMore.

(* ================================================================== *)
(** ** The second prompt of the main block *)

Module Menu.

(** [str.isnumeric] on one character of the Latin-1 range: the ten digits,
    the superscripts two, three and one, and the three fractions. *)
Definition isnumeric_char (c : ascii) : bool :=
  let n := PyStr.code c in
  (((48 <=? n) && (n <=? 57)) || (n =? 178) || (n =? 179) || (n =? 185)
   || ((188 <=? n) && (n <=? 190)))%N.

(** The characters that [int] reads as decimal digits. *)
Definition isdecimal_char (c : ascii) : bool :=
  let n := PyStr.code c in ((48 <=? n) && (n <=? 57))%N.

Fixpoint all_chars (p : ascii -> bool) (s : string) : bool :=
  match s with
  | EmptyString => true
  | String c r => p c && all_chars p r
  end.

(** [num.isnumeric()]: at least one character, and all of them numeric. *)
Definition isnumeric (num : string) : bool :=
  match num with
  | EmptyString => false
  | String _ _ => all_chars isnumeric_char num
  end.

Definition isdecimal (num : string) : bool :=
  match num with
  | EmptyString => false
  | String _ _ => all_chars isdecimal_char num
  end.

(** [int(num)] for a string that passed [isnumeric]: the value in base ten
    when every character is a decimal digit, [None] for [ValueError]
    otherwise.  (The bound of recent interpreters on the length of the
    literal is left out.) *)
Definition int_of_numeric (num : string) : option N :=
  match NilEmpty.uint_of_string num with
  | Some u => Some (N.of_uint u)
  | None => None
  end.

(** What the answer to the second prompt leads to. *)
Inductive choice : Type :=
| Quit
| Back
| Place (place : NationalSite)
| Invalid
| RaisesValueError
| RaisesIndexError.

(** The tests on the answer, in the order of the source. *)
Definition choose (num : string) (sites_dict : list NationalSite) : choice :=
  if String.eqb (PyStr.lower num) "exit" then Quit
  else if String.eqb (PyStr.lower num) "back" then Back
  else if isnumeric num then
    match int_of_numeric num with
    | None => RaisesValueError
    | Some n =>
        if ((1 <=? n) && (n <=? N.of_nat (List.length sites_dict)))%N then
          match nth_error sites_dict (N.to_nat n - 1) with
          | Some place => Place place
          | None => RaisesIndexError
          end
        else Invalid
    end
  else Invalid.

(** The number printed before the site at place [i] of the list:
    [str(i+1)]. *)
Definition item_number (i : nat) : string :=
  NilEmpty.string_of_uint (N.to_uint (N.of_nat (S i))).

End Menu.

Module MenuFacts.
Import Menu.

Lemma numeric_char_not_word (c : ascii) :
  isnumeric_char c = true ->
  Ascii.eqb (PyStr.lower_char c) "e" = false /\ Ascii.eqb (PyStr.lower_char c) "b" = false.
Proof.
  destruct c as [[] [] [] [] [] [] [] []]; intros H;
    first [discriminate H | split; reflexivity].
Qed.

(** A numeric answer is neither [exit] nor [back]. *)
Lemma numeric_not_word (num : string) :
  isnumeric num = true ->
  String.eqb (PyStr.lower num) "exit" = false /\
  String.eqb (PyStr.lower num) "back" = false.
Proof.
  destruct num as [|c r]; [discriminate|].
  cbn [isnumeric all_chars]. intros H. apply andb_true_iff in H as [Hc _].
  destruct (numeric_char_not_word c Hc) as [He Hb].
  cbn [PyStr.lower String.eqb]. now rewrite He, Hb.
Qed.

Lemma uint_of_char_decimal (c : ascii) (d : option uint) :
  uint_of_char c d = None <-> d = None \/ isdecimal_char c = false.
Proof.
  destruct d as [d|]; [|split; [now left | reflexivity]].
  destruct c as [[] [] [] [] [] [] [] []]; cbn;
    (split; [intros H; first [discriminate H | now right]
            | intros [H|H]; first [discriminate H | reflexivity]]).
Qed.

Lemma uint_of_string_decimal (s : string) :
  NilEmpty.uint_of_string s = None <-> all_chars isdecimal_char s = false.
Proof.
  induction s as [|c s IH]; cbn [NilEmpty.uint_of_string all_chars].
  - split; discriminate.
  - rewrite uint_of_char_decimal, IH, andb_false_iff. tauto.
Qed.

Lemma digits_numeric (u : uint) :
  all_chars isnumeric_char (NilEmpty.string_of_uint u) = true.
Proof. induction u; cbn; trivial. Qed.

Lemma digits_not_word (u : uint) :
  JsonFacts.nonzero_head u ->
  isnumeric (NilEmpty.string_of_uint u) = true /\
  String.eqb (PyStr.lower (NilEmpty.string_of_uint u)) "exit" = false /\
  String.eqb (PyStr.lower (NilEmpty.string_of_uint u)) "back" = false.
Proof.
  intros H. pose proof (digits_numeric u) as Hn.
  destruct u; try contradiction; cbn [NilEmpty.string_of_uint] in *;
    (split; [exact Hn | split; reflexivity]).
Qed.

Lemma item_number_pos (i : nat) :
  item_number i = NilEmpty.string_of_uint (Pos.to_uint (Pos.of_succ_nat i)).
Proof. reflexivity. Qed.

Lemma int_of_item_number (i : nat) :
  int_of_numeric (item_number i) = Some (N.of_nat (S i)).
Proof.
  rewrite item_number_pos. unfold int_of_numeric. rewrite NilEmpty.usu.
  unfold N.of_uint. now rewrite DecimalPos.Unsigned.of_to.
Qed.

End MenuFacts.

(* ================================================================== *)
(** ** Facts about pages that are fetched again *)

Module RevisitFacts.

(** The record that a cached content gives. *)
Definition extract (html_parser : string -> Soup.node) (content : json) : outcome NationalSite :=
  soup <~ BeautifulSoup html_parser content ;; site_of_page soup.

(** After a fetch that returned, the next one is a hit, whatever the
    network has become. *)
Lemma refetch (url : string) (w w1 : World) (c : json)
    (web' : string -> option string) (api' : string -> Dict.dict json -> option json) :
  make_request_with_cache url w = (Ok c, w1) ->
  make_request_with_cache url (upstream_changes web' api' w1)
  = (Ok c, snd (print "Using cache" (upstream_changes web' api' w1))).
Proof.
  intros H. apply StoreFacts.fetch_hit.
  rewrite (StoreFacts.stored_disk url _ w1) by reflexivity.
  exact (StoreFacts.fetch_stores _ _ _ _ H).
Qed.

Lemma get_site_instance_hit (html_parser : string -> Soup.node) (url : string) (w : World)
    (c : json) :
  stored url w = Some c ->
  get_site_instance html_parser url w
  = (extract html_parser c, snd (print "Using cache" w)).
Proof.
  intros H. rewrite SiteFacts.get_site_instance_eq.
  rewrite (StoreFacts.fetch_hit url w c H). reflexivity.
Qed.

Lemma get_site_instance_fetch (html_parser : string -> Soup.node) (url : string)
    (w w1 : World) (site : NationalSite) :
  get_site_instance html_parser url w = (Ok site, w1) ->
  exists c, make_request_with_cache url w = (Ok c, w1) /\ extract html_parser c = Ok site.
Proof.
  rewrite SiteFacts.get_site_instance_eq. intros H.
  destruct (make_request_with_cache url w) as [[c|e] w0]; cbn [fst snd obind] in H;
    [|discriminate H].
  pose proof (f_equal fst H) as H1. pose proof (f_equal snd H) as H2.
  cbn [fst snd] in H1, H2. subst w0. exists c. now split.
Qed.

(** The loop of [get_sites_for_state] leaves every page it read in the
    file. *)
Lemma loop_stores (html_parser : string -> Soup.node) (parks : list Soup.node) :
  forall (w w' : World) (sites : list NationalSite),
    for_each (fun park =>
                url <- lift (park_url park) ;;
                get_site_instance html_parser url) parks w = (Ok sites, w') ->
    (forall k v, stored k w = Some v -> stored k w' = Some v) /\
    exists urls,
      for_each_pure park_url parks = Ok urls /\
      Forall2 (fun url site =>
                 exists c, stored url w' = Some c /\ extract html_parser c = Ok site)
              urls sites.
Proof.
  induction parks as [|park parks IH]; intros w w' sites H.
  - cbn [for_each] in H. injection H as <- <-.
    split; [auto|]. exists []. split; [reflexivity | constructor].
  - cbn [for_each for_each_pure] in H |- *. unfold bind at 1 2 in H. unfold lift at 1 in H.
    destruct (park_url park) as [url|]; [|discriminate H].
    destruct (get_site_instance html_parser url w) as [[site|e] wa] eqn:E;
      [|discriminate H].
    cbv beta iota in H. unfold bind at 1 in H.
    destruct (for_each _ parks wa) as [[rest|e] wb] eqn:Er; [|discriminate H].
    cbn [ret] in H. injection H as <- <-.
    destruct (IH wa wb rest Er) as (Hk & urls & Hu & HF).
    destruct (get_site_instance_fetch _ _ _ _ _ E) as (c & Hc & Hx).
    assert (Hka : forall k v, stored k w = Some v -> stored k wa = Some v).
    { intros k v Hs. pose proof (StoreFacts.fetch_keeps_stored k v url w Hs) as Hp.
      now rewrite Hc in Hp. }
    split; [auto|].
    exists (url :: urls). cbn [obind]. rewrite Hu. split; [reflexivity|].
    constructor; [|exact HF].
    exists c. split; [|exact Hx].
    apply Hk. exact (StoreFacts.fetch_stores _ _ _ _ Hc).
Qed.

(** The loop over pages that are all in the file: the same records, no
    request, no write. *)
Lemma loop_from_file (html_parser : string -> Soup.node) (parks : list Soup.node) :
  forall (w : World) (urls : list string) (sites : list NationalSite),
    for_each_pure park_url parks = Ok urls ->
    Forall2 (fun url site =>
               exists c, stored url w = Some c /\ extract html_parser c = Ok site)
            urls sites ->
    exists w2,
      for_each (fun park =>
                  url <- lift (park_url park) ;;
                  get_site_instance html_parser url) parks w = (Ok sites, w2) /\
      disk w2 = disk w /\ requests w2 = requests w.
Proof.
  induction parks as [|park parks IH]; intros w urls sites Hu HF.
  - cbn [for_each_pure] in Hu. injection Hu as <-. inversion HF; subst.
    exists w. repeat split.
  - cbn [for_each_pure] in Hu.
    destruct (park_url park) as [url|] eqn:Eu; [|discriminate Hu].
    cbn [obind] in Hu.
    destruct (for_each_pure park_url parks) as [urls'|] eqn:Eus; [|discriminate Hu].
    cbn [obind] in Hu. injection Hu as <-.
    inversion HF as [|? site ? rest (c & Hs & Hx) HF']; subst.
    destruct (IH (snd (print "Using cache" w)) urls' rest eq_refl) as (w2 & H2 & Hd & Hr).
    { eapply Forall2_impl; [|exact HF'].
      intros u s0 (c0 & Hs0 & Hx0). exists c0. split; [|exact Hx0].
      now rewrite (StoreFacts.stored_disk u _ w) by reflexivity. }
    exists w2. split; [|split; [exact Hd | exact Hr]].
    cbn [for_each]. unfold bind at 1 2. unfold lift at 1.
    rewrite Eu, (get_site_instance_hit html_parser url w c Hs), Hx.
    cbv beta iota. unfold bind at 1. rewrite H2. reflexivity.
Qed.

(** One call is a sequence of one. *)
Lemma one_page_call (html_parser : string -> Soup.node) (c : page_call) (w : World) :
  snd (run_page_calls html_parser [c] w) = snd (run_page_call html_parser c w).
Proof.
  cbn [run_page_calls]. unfold bind.
  destruct (run_page_call html_parser c w) as [[u|e] w1]; reflexivity.
Qed.

End RevisitFacts.

(* ================================================================== *)
(** ** Facts about the text of the cache file *)

Module AsciiFacts.
Import Json.

(** Every character is below 128. *)
Fixpoint ascii_only (s : string) : bool :=
  match s with
  | EmptyString => true
  | String c r => (code c <? 128)%N && ascii_only r
  end.

Lemma ascii_only_app (a b : string) :
  ascii_only (a ++ b) = ascii_only a && ascii_only b.
Proof.
  induction a as [|c a IH]; cbn [append ascii_only]; [reflexivity|].
  now rewrite IH, andb_assoc.
Qed.

Lemma escape_char_ascii (c : ascii) : ascii_only (escape_char c) = true.
Proof. destruct c as [[] [] [] [] [] [] [] []]; reflexivity. Qed.

Lemma escape_ascii (s : string) : ascii_only (escape s) = true.
Proof.
  induction s as [|c s IH]; cbn [escape]; [reflexivity|].
  now rewrite ascii_only_app, escape_char_ascii, IH.
Qed.

Lemma dumps_string_ascii (s : string) : ascii_only (dumps_string s) = true.
Proof.
  unfold dumps_string. cbn [ascii_only]. rewrite ascii_only_app, escape_ascii.
  reflexivity.
Qed.

Lemma digits_ascii (u : uint) : ascii_only (NilEmpty.string_of_uint u) = true.
Proof. induction u; cbn; trivial. Qed.

Lemma dumps_int_ascii (z : Z) : ascii_only (dumps_int z) = true.
Proof.
  destruct z as [|p|p]; cbn [dumps_int]; [reflexivity | apply digits_ascii |].
  cbn [ascii_only]. now rewrite digits_ascii.
Qed.

Lemma dumps_ascii (v : json) : ascii_only (dumps v) = true.
Proof.
  induction v as [|b|z|s|l IH|m IH] using JsonFacts.json_rect'.
  - reflexivity.
  - destruct b; reflexivity.
  - apply dumps_int_ascii.
  - apply dumps_string_ascii.
  - rewrite JsonFacts.dumps_arr. cbn [ascii_only].
    change ((code "[" <? 128)%N) with true. cbn [andb].
    induction IH as [|x l Hx Hl IHl]; [reflexivity|].
    destruct l as [|y l].
    + rewrite JsonFacts.dumps_items_one, ascii_only_app, Hx. reflexivity.
    + rewrite JsonFacts.dumps_items_cons, !ascii_only_app, Hx, IHl. reflexivity.
  - rewrite JsonFacts.dumps_obj. cbn [ascii_only].
    change ((code "{" <? 128)%N) with true. cbn [andb].
    induction IH as [|[k x] m Hx Hm IHm]; [reflexivity|].
    cbn [snd] in Hx. destruct m as [|kv m].
    + rewrite JsonFacts.dumps_members_one, !ascii_only_app, dumps_string_ascii, Hx.
      reflexivity.
    + rewrite JsonFacts.dumps_members_cons, !ascii_only_app, dumps_string_ascii, Hx, IHm.
      reflexivity.
Qed.

End AsciiFacts.

(* ================================================================== *)
(** ** Further properties of the code *)

(** *** The fetcher and the cache file *)

(** A cache file cut short in the middle of a write. *)
Definition torn_world : World :=
  {| disk := Some (String.substring 0 40 (Json.dumps (JObj example_store)));
     CACHE_DICT := Dict.empty; web := Pages.site_web;
     api := fun _ _ => None; requests := []; stdout := [] |}.

(** A cache file that holds a JSON array. *)
Definition array_world : World :=
  {| disk := Some (Json.dumps (JArr [JStr "https://www.nps.gov/index.htm"]));
     CACHE_DICT := Dict.empty; web := Pages.site_web;
     api := fun _ _ => None; requests := []; stdout := [] |}.

(** The site does not answer. *)
Definition offline_world : World :=
  {| disk := Some (Json.dumps (JObj example_store)); CACHE_DICT := Dict.empty;
     web := fun _ => None; api := fun _ _ => None; requests := []; stdout := [] |}.

(** X1. No page function ([make_request_with_cache],
    [build_state_url_dict], [get_site_instance], [get_sites_for_state]),
    in any sequence and whether it returns or raises, removes a key from
    the cache file or changes what the key is bound to. *)
Theorem page_functions_keep_cached_entries (html_parser : string -> Soup.node)
    (calls : list page_call) (w : World) (key : string) (content : json) :
  stored key w = Some content ->
  stored key (snd (run_page_calls html_parser calls w)) = Some content.
Proof.
  apply (StoreFacts.preserves_page_calls (fun w0 => stored key w0 = Some content)).
  intros url. apply StoreFacts.fetch_keeps_stored.
Qed.

Lemma page_functions_keep_cached_entries_witness :
  stored "49931"
    (snd (run_page_calls Pages.parser
            [BuildIndex; SitesForState "https://www.nps.gov/state/mi/index.htm";
             SiteInstance "https://www.nps.gov/kewe/contact.htm"]
            Pages.later_world))
  = Dict.get "49931" example_store.
Proof.
  apply (page_functions_keep_cached_entries Pages.parser
           [BuildIndex; SitesForState "https://www.nps.gov/state/mi/index.htm";
            SiteInstance "https://www.nps.gov/kewe/contact.htm"]
           Pages.later_world "49931").
  reflexivity.
Defined.

(** X2. Whenever [make_request_with_cache] returns, the cache file binds
    the URL to the content that was returned: on a hit as before, on a miss
    because the whole store was saved before the return. *)
Theorem fetch_result_is_in_the_file (baseurl : string) (w w1 : World) (content : json) :
  make_request_with_cache baseurl w = (Ok content, w1) ->
  stored baseurl w1 = Some content.
Proof. apply StoreFacts.fetch_stores. Qed.

Lemma fetch_result_is_in_the_file_witness :
  stored "https://www.nps.gov/isro/index.htm"
    (snd (make_request_with_cache "https://www.nps.gov/isro/index.htm" Pages.later_world))
  = Some (JStr (Pages.render Pages.isle_royale_page)).
Proof.
  apply (fetch_result_is_in_the_file "https://www.nps.gov/isro/index.htm" Pages.later_world).
  reflexivity.
Defined.

(** X3. When the cache file holds valid JSON that is not an object (an
    array, a string, a number), [open_cache] returns that value and
    [make_request_with_cache] raises [AttributeError] at [.keys()]: nothing
    is requested, nothing is written, for every URL. *)
Theorem non_object_cache_file_fails_fetch (baseurl contents : string) (v : json) (w : World) :
  disk w = Some contents ->
  Json.loads contents = Json.Value v ->
  (forall d, v <> JObj d) ->
  make_request_with_cache baseurl w = (Raise AttributeError, w).
Proof.
  intros Hd Hl Hv. rewrite CacheFacts.make_request_with_cache_eq.
  unfold loaded, read_file, json_loads. rewrite Hd. cbn [obind]. rewrite Hl.
  destruct v; try reflexivity. now destruct (Hv members).
Qed.

Lemma non_object_cache_file_fails_fetch_witness :
  make_request_with_cache "https://www.nps.gov/index.htm" array_world
  = (Raise AttributeError, array_world).
Proof.
  apply (non_object_cache_file_fails_fetch "https://www.nps.gov/index.htm"
           (Json.dumps (JArr [JStr "https://www.nps.gov/index.htm"]))
           (JArr [JStr "https://www.nps.gov/index.htm"]) array_world).
  - reflexivity.
  - reflexivity.
  - intros d H. discriminate H.
Defined.

(** X4. When the text of the cache file is not JSON, so that [json.loads]
    raises [JSONDecodeError], [open_cache] gives the empty dictionary
    without a word, and the next fetch that succeeds writes a file that
    holds the fetched page and nothing else: whatever the file held is
    gone.  (A file of valid JSON is not concerned, whatever its values.) *)
Theorem undecodable_cache_file_is_overwritten (baseurl contents body : string) (w : World) :
  disk w = Some contents ->
  Json.loads contents = Json.DecodeError ->
  web w baseurl = Some body ->
  exists w1,
    make_request_with_cache baseurl w = (Ok (JStr body), w1) /\
    disk w1 = Some (Json.dumps (JObj [(baseurl, JStr body)])) /\
    loaded w1 = Ok (JObj [(baseurl, JStr body)]).
Proof.
  intros Hd Hl Hw. rewrite CacheFacts.make_request_with_cache_eq.
  assert (E : loaded w = Ok (JObj Dict.empty)).
  { unfold loaded, read_file, json_loads. rewrite Hd. cbn [obind]. now rewrite Hl. }
  rewrite E. cbn [Dict.get Dict.empty]. cbv zeta. rewrite Hw.
  eexists. split; [reflexivity|]. split; [reflexivity|].
  apply CacheFacts.loaded_after_save. reflexivity.
Qed.

Lemma undecodable_cache_file_is_overwritten_witness :
  exists w1,
    make_request_with_cache "https://www.nps.gov/isro/index.htm" torn_world
    = (Ok (JStr (Pages.render Pages.isle_royale_page)), w1) /\
    disk w1 = Some (Json.dumps (JObj [("https://www.nps.gov/isro/index.htm",
                                       JStr (Pages.render Pages.isle_royale_page))])) /\
    loaded w1 = Ok (JObj [("https://www.nps.gov/isro/index.htm",
                           JStr (Pages.render Pages.isle_royale_page))]).
Proof.
  apply (undecodable_cache_file_is_overwritten "https://www.nps.gov/isro/index.htm"
           (String.substring 0 40 (Json.dumps (JObj example_store)))
           (Pages.render Pages.isle_royale_page) torn_world);
    reflexivity.
Defined.

(** X5. A request that fails on a miss raises out of
    [make_request_with_cache] after the request was sent and before
    anything is saved: the cache file is as it was, the failure is not
    remembered, and the next call for the URL asks the site again. *)
Theorem failed_request_is_not_cached (baseurl : string) (w : World) :
  in_store baseurl w = false ->
  (exists d, loaded w = Ok (JObj d)) ->
  web w baseurl = None ->
  exists w1,
    make_request_with_cache baseurl w = (Raise RequestException, w1) /\
    disk w1 = disk w /\
    requests w1 = (requests w ++ [page_request baseurl])%list /\
    forall web' api' body,
      web' baseurl = Some body ->
      exists w2,
        make_request_with_cache baseurl (upstream_changes web' api' w1)
        = (Ok (JStr body), w2) /\
        requests w2 = (requests w1 ++ [page_request baseurl])%list.
Proof.
  intros Hin [d Hl] Hw. rewrite CacheFacts.make_request_with_cache_eq.
  unfold in_store in Hin. rewrite Hl in Hin |- *. unfold Dict.mem in Hin.
  destruct (Dict.get baseurl d) eqn:E; [discriminate Hin|].
  cbv zeta. rewrite Hw. eexists. split; [reflexivity|].
  split; [reflexivity|]. split; [reflexivity|].
  intros web' api' body Hb. rewrite CacheFacts.make_request_with_cache_eq.
  rewrite (CacheFacts.loaded_disk _ w) by reflexivity. rewrite Hl, E.
  cbv zeta. cbn [web upstream_changes]. rewrite Hb.
  eexists. split; reflexivity.
Qed.

Lemma failed_request_is_not_cached_witness :
  exists w1,
    make_request_with_cache "https://www.nps.gov/isro/index.htm" offline_world
    = (Raise RequestException, w1) /\
    disk w1 = disk offline_world /\
    requests w1 =
      (requests offline_world ++ [page_request "https://www.nps.gov/isro/index.htm"])%list /\
    forall web' api' body,
      web' "https://www.nps.gov/isro/index.htm" = Some body ->
      exists w2,
        make_request_with_cache "https://www.nps.gov/isro/index.htm"
          (upstream_changes web' api' w1)
        = (Ok (JStr body), w2) /\
        requests w2 =
          (requests w1 ++ [page_request "https://www.nps.gov/isro/index.htm"])%list.
Proof.
  apply (failed_request_is_not_cached "https://www.nps.gov/isro/index.htm" offline_world).
  - reflexivity.
  - exists example_store. reflexivity.
  - reflexivity.
Defined.

(** *** The places lookup and the module-level dictionary *)

(** The API answers with one place for every origin. *)
Definition api_world : World :=
  {| disk := None; CACHE_DICT := Dict.empty; web := Pages.site_web;
     api := fun _ _ => Some places_doc; requests := []; stdout := [] |}.

(** Another site of the same postal code. *)
Definition isle_royale_office : NationalSite :=
  {| category := "No category"; name := "Isle Royale Visitor Center";
     address := "Houghton, MI"; zipcode := "49931"; phone := EmptyString |}.

(** X6. The result of [get_nearby_places] is cached in the process under
    the postal code alone.  After a lookup that returned, a lookup for any
    site with the same postal code, with any API key, returns the same
    document without a request and without a write, whatever the API would
    answer by then. *)
Theorem nearby_lookup_is_keyed_by_zipcode (API_KEY API_KEY' : string)
    (site_object site_object' : NationalSite) (w w1 : World) (doc : json)
    (web' : string -> option string) (api' : string -> Dict.dict json -> option json) :
  get_nearby_places API_KEY site_object w = (Ok doc, w1) ->
  zipcode site_object' = zipcode site_object ->
  exists w2,
    get_nearby_places API_KEY' site_object' (upstream_changes web' api' w1) = (Ok doc, w2) /\
    requests w2 = requests w1 /\ disk w2 = disk w1 /\ CACHE_DICT w2 = CACHE_DICT w1.
Proof.
  intros H Hz. rewrite NearbyFacts.get_nearby_places_eq in H.
  rewrite NearbyFacts.get_nearby_places_eq, Hz.
  destruct (Dict.get (zipcode site_object) (CACHE_DICT w)) as [x|] eqn:E.
  - pose proof (f_equal fst H) as H1. pose proof (f_equal snd H) as H2.
    cbn [fst snd] in H1, H2. injection H1 as <-. subst w1.
    cbn [CACHE_DICT upstream_changes print snd]. rewrite E.
    eexists. repeat split.
  - cbv zeta in H.
    destruct (api w places_url (places_params API_KEY site_object)) as [x|];
      [|discriminate H].
    pose proof (f_equal fst H) as H1. pose proof (f_equal snd H) as H2.
    cbn [fst snd] in H1, H2. injection H1 as <-. subst w1.
    cbn [CACHE_DICT upstream_changes save_cache write_file set_CACHE_DICT snd].
    rewrite CacheFacts.get_set_same.
    eexists. repeat split.
Qed.

Lemma nearby_lookup_is_keyed_by_zipcode_witness :
  exists w2,
    get_nearby_places "OTHER KEY" isle_royale_office
      (upstream_changes (fun _ => None) (fun _ _ => None)
         (snd (get_nearby_places "KEY" isle_royale api_world)))
    = (Ok places_doc, w2) /\
    requests w2 = requests (snd (get_nearby_places "KEY" isle_royale api_world)) /\
    disk w2 = disk (snd (get_nearby_places "KEY" isle_royale api_world)) /\
    CACHE_DICT w2 = CACHE_DICT (snd (get_nearby_places "KEY" isle_royale api_world)).
Proof.
  apply (nearby_lookup_is_keyed_by_zipcode "KEY" "OTHER KEY" isle_royale isle_royale_office
           api_world);
    reflexivity.
Defined.

(** X7. [get_nearby_places] only ever adds to the module-level
    [CACHE_DICT]: whether it returns or raises, every key that was there is
    still bound to the same document, and the document it returns is bound
    to the postal code afterwards. *)
Theorem nearby_lookup_only_adds (API_KEY : string) (site_object : NationalSite) (w : World) :
  (forall key doc,
     Dict.get key (CACHE_DICT w) = Some doc ->
     Dict.get key (CACHE_DICT (snd (get_nearby_places API_KEY site_object w))) = Some doc) /\
  (forall doc,
     fst (get_nearby_places API_KEY site_object w) = Ok doc ->
     Dict.get (zipcode site_object)
       (CACHE_DICT (snd (get_nearby_places API_KEY site_object w))) = Some doc).
Proof.
  rewrite NearbyFacts.get_nearby_places_eq.
  destruct (Dict.get (zipcode site_object) (CACHE_DICT w)) as [x|] eqn:E.
  - cbn [fst snd print CACHE_DICT]. split; [auto|].
    intros doc H. injection H as <-. exact E.
  - cbv zeta.
    destruct (api w places_url (places_params API_KEY site_object)) as [x|].
    + cbn [fst snd save_cache write_file set_CACHE_DICT CACHE_DICT]. split.
      * intros key doc H. rewrite CacheFacts.get_set_other; [exact H|].
        intros ->. congruence.
      * intros doc H. injection H as <-. apply CacheFacts.get_set_same.
    + cbn [fst snd send print CACHE_DICT]. split; [auto|]. intros doc H. discriminate H.
Qed.

(** X8. After a [get_nearby_places] that asked the API, the cache file
    holds the module-level [CACHE_DICT] and nothing else: every key of the
    file is a postal code looked up in this process, whatever the file held
    before. *)
Theorem nearby_miss_writes_the_process_store (API_KEY : string) (site_object : NationalSite)
    (w : World) (doc : json) :
  Dict.mem (zipcode site_object) (CACHE_DICT w) = false ->
  api w places_url (places_params API_KEY site_object) = Some doc ->
  Json.wf (JObj (CACHE_DICT w)) = true ->
  Json.wf doc = true ->
  let w1 := snd (get_nearby_places API_KEY site_object w) in
  CACHE_DICT w1 = Dict.set (zipcode site_object) doc (CACHE_DICT w) /\
  loaded w1 = Ok (JObj (CACHE_DICT w1)) /\
  forall key, stored key w1 = Dict.get key (CACHE_DICT w1).
Proof.
  intros Hm Ha Hwf Hdoc w1. unfold w1.
  rewrite NearbyFacts.get_nearby_places_eq. rewrite CacheFacts.mem_get in Hm.
  destruct (Dict.get (zipcode site_object) (CACHE_DICT w)); [discriminate Hm|].
  cbv zeta. rewrite Ha. cbn [snd].
  assert (E : loaded (snd (save_cache
                (JObj (Dict.set (zipcode site_object) doc (CACHE_DICT w)))
                (snd (set_CACHE_DICT (Dict.set (zipcode site_object) doc (CACHE_DICT w))
                        (send (NearbyFacts.places_request API_KEY site_object)
                           (snd (print "Fetching" w)))))))
              = Ok (JObj (Dict.set (zipcode site_object) doc (CACHE_DICT w)))).
  { apply CacheFacts.loaded_after_save. now apply CacheFacts.set_wf. }
  split; [reflexivity|]. split; [exact E|].
  intros key. unfold stored. now rewrite E.
Qed.

Lemma nearby_miss_writes_the_process_store_witness :
  let w1 := snd (get_nearby_places "KEY" isle_royale Pages.later_world) in
  CACHE_DICT w1
  = Dict.set (zipcode isle_royale) (JObj [("searchResults", JArr [])])
      (CACHE_DICT Pages.later_world) /\
  loaded w1 = Ok (JObj (CACHE_DICT w1)) /\
  forall key, stored key w1 = Dict.get key (CACHE_DICT w1).
Proof.
  apply (nearby_miss_writes_the_process_store "KEY" isle_royale Pages.later_world);
    reflexivity.
Defined.

(** *** The records of the sites *)

(** X9. The category, the name, the postal code and the telephone of every
    record that [get_site_instance] returns are stripped: none starts or
    ends with white space, so stripping them again changes nothing.  (The
    address is the two texts of the page as they are, joined by a comma.)
    The category is the stripped text of the designation in the title
    block of the page, or else the words [No category]. *)
Theorem site_fields_are_stripped (html_parser : string -> Soup.node) (site_url : string)
    (w w1 : World) (site : NationalSite) :
  get_site_instance html_parser site_url w = (Ok site, w1) ->
  PyStr.strip (category site) = category site /\
  PyStr.strip (name site) = name site /\
  PyStr.strip (zipcode site) = zipcode site /\
  PyStr.strip (phone site) = phone site /\
  exists html header,
    page_content w site_url = Ok (JStr html) /\
    header_of (html_parser html) = Some header /\
    category site =
      match Soup.find (Soup.class_ "Hero-designation") header with
      | Some designation => PyStr.strip (Soup.text designation)
      | None => "No category"
      end.
Proof.
  rewrite SiteFacts.get_site_instance_eq, ListingFacts.fetch_content. intros H.
  pose proof (f_equal fst H) as H1. cbn [fst] in H1. clear H.
  destruct (page_content w site_url) as [html|] eqn:Ec; [|discriminate H1].
  destruct html as [| | |html| |]; cbn [obind BeautifulSoup] in H1; try discriminate H1.
  unfold site_of_page in H1.
  destruct (Soup.find (Soup.class_ "Hero-titleContainer clearfix") (html_parser html))
    as [header|] eqn:Eh; cbn [find_in obind] in H1; [|discriminate H1].
  destruct (Soup.find (Soup.class_ "Hero-designation") header) as [designation|] eqn:Ed;
    destruct (Soup.find (Soup.class_ "vcard") (html_parser html)) as [footer|];
    cbn [find_in obind] in H1;
    repeat match type of H1 with
           | context [Soup.find ?c ?n] => destruct (Soup.find c n)
           end;
    cbn [text_of obind try_except] in H1; try discriminate H1;
    injection H1 as <-; cbn [category name zipcode phone];
    (split; [first [apply PyStrFacts.strip_idem | reflexivity]|]);
    (split; [apply PyStrFacts.strip_idem|]);
    (split; [apply PyStrFacts.strip_idem|]);
    (split; [apply PyStrFacts.strip_idem|]);
    exists html, header; (split; [reflexivity|]); (split; [exact Eh|]);
    rewrite Ed; reflexivity.
Qed.

Lemma site_fields_are_stripped_witness :
  PyStr.strip (category isle_royale) = category isle_royale /\
  PyStr.strip (name isle_royale) = name isle_royale /\
  PyStr.strip (zipcode isle_royale) = zipcode isle_royale /\
  PyStr.strip (phone isle_royale) = phone isle_royale /\
  exists html header,
    page_content Pages.cold_world "https://www.nps.gov/isro/index.htm" = Ok (JStr html) /\
    header_of (Pages.parser html) = Some header /\
    category isle_royale =
      match Soup.find (Soup.class_ "Hero-designation") header with
      | Some designation => PyStr.strip (Soup.text designation)
      | None => "No category"
      end.
Proof.
  apply (site_fields_are_stripped Pages.parser "https://www.nps.gov/isro/index.htm"
           Pages.cold_world
           (snd (get_site_instance Pages.parser "https://www.nps.gov/isro/index.htm"
                   Pages.cold_world))).
  reflexivity.
Defined.

(** *** The index of the states and the first prompt *)

(** X10. The result of [build_state_url_dict] has no entry but those of the
    anchors of the menu: every key is the text of an anchor in lower case
    (so it is its own lower case), bound to the base address followed by the
    [href] of that anchor.  Hence the lookup of the first prompt finds a
    state exactly when some anchor has the text of the query up to case. *)
Theorem state_dict_entries_are_anchors (html_parser : string -> Soup.node) (w w' : World)
    (state_dict : Dict.dict string) :
  build_state_url_dict html_parser w = (Ok state_dict, w') ->
  exists html links,
    page_content w index_url = Ok (JStr html) /\
    state_links (html_parser html) = Ok links /\
    (forall state url,
       Dict.get state state_dict = Some url ->
       PyStr.lower state = state /\
       exists link, In link links /\ binds link state url) /\
    (forall query,
       (exists url, lookup_state query state_dict = Some url) <->
       (exists link, In link links /\ string_lower link = Ok (PyStr.lower query))).
Proof.
  rewrite IndexFacts.build_state_url_dict_eq, ListingFacts.fetch_content. intros H.
  destruct (page_content w index_url) as [v|] eqn:Ec; [|discriminate H].
  destruct v as [| | |html| |]; cbn [fst obind BeautifulSoup] in H; try discriminate H.
  unfold state_dict_of_page in H.
  destruct (state_links (html_parser html)) as [links|] eqn:El;
    cbn [obind] in H; [|discriminate H].
  destruct (fold_outcome state_link Dict.empty links) as [d|] eqn:Ef; [|discriminate H].
  injection H as -> _.
  destruct (IndexFacts.fold_state_link links _ _ Ef) as (pairs & HF & ->).
  assert (Hentry : forall state url,
             Dict.get state (fold_left IndexFacts.assign pairs Dict.empty) = Some url ->
             exists link, In link links /\ binds link state url).
  { intros state url Hget.
    destruct (IndexMore.fold_assign_inv _ _ _ _ Hget) as [Hin|Hemp]; [|discriminate Hemp].
    destruct (IndexFacts.Forall2_In_right _ _ _ _ HF Hin) as (link & Hl & Hb).
    exists link. now split. }
  exists html, links.
  split; [reflexivity|]. split; [exact El|]. split.
  - intros state url Hget. destruct (Hentry state url Hget) as (link & Hl & Hb).
    split; [|now exists link].
    destruct Hb as [Hs _]. exact (IndexMore.string_lower_is_lower link state Hs).
  - intros query. unfold lookup_state. split.
    + intros [url Hget]. destruct (Hentry _ _ Hget) as (link & Hl & Hs & _).
      now exists link.
    + intros (link & Hl & Hs).
      destruct (IndexFacts.Forall2_In_left _ _ _ _ HF Hl) as ([k v] & Hp & Hk & Hv).
      cbn [fst snd] in Hk, Hv. rewrite Hs in Hk. injection Hk as <-.
      destruct (IndexFacts.fold_assign_bound pairs Dict.empty _ _ Hp) as (v' & _ & Hget).
      now exists v'.
Qed.

Lemma state_dict_entries_are_anchors_witness :
  exists html links,
    page_content Pages.cold_world index_url = Ok (JStr html) /\
    state_links (Pages.parser html) = Ok links /\
    (forall state url,
       Dict.get state
         [("michigan", "https://www.nps.gov/state/mi/index.htm");
          ("minnesota", "https://www.nps.gov/state/mn/index.htm")] = Some url ->
       PyStr.lower state = state /\
       exists link, In link links /\ binds link state url) /\
    (forall query,
       (exists url,
          lookup_state query
            [("michigan", "https://www.nps.gov/state/mi/index.htm");
             ("minnesota", "https://www.nps.gov/state/mn/index.htm")] = Some url) <->
       (exists link, In link links /\ string_lower link = Ok (PyStr.lower query))).
Proof.
  apply (state_dict_entries_are_anchors Pages.parser Pages.cold_world
           (snd (build_state_url_dict Pages.parser Pages.cold_world))).
  reflexivity.
Defined.

(** *** The second prompt *)

(** X11. The sites of the list and the numbers printed before them match:
    the answer that is the number of a site selects that site, a selection
    is always the site at the place the answer names, and the index is never
    out of range, whatever the answer and the list. *)
Theorem menu_selects_the_listed_site (num : string) (sites_dict : list NationalSite) :
  Menu.choose num sites_dict <> Menu.RaisesIndexError /\
  (forall place,
     Menu.choose num sites_dict = Menu.Place place ->
     exists i,
       nth_error sites_dict i = Some place /\
       Menu.int_of_numeric num = Some (N.of_nat (S i))) /\
  (forall i place,
     nth_error sites_dict i = Some place ->
     Menu.choose (Menu.item_number i) sites_dict = Menu.Place place).
Proof.
  split; [|split].
  - unfold Menu.choose.
    destruct (String.eqb (PyStr.lower num) "exit"); [discriminate|].
    destruct (String.eqb (PyStr.lower num) "back"); [discriminate|].
    destruct (Menu.isnumeric num); [|discriminate].
    destruct (Menu.int_of_numeric num) as [n|]; [|discriminate].
    destruct ((1 <=? n) && (n <=? N.of_nat (List.length sites_dict)))%N eqn:E;
      [|discriminate].
    apply andb_true_iff in E as [E1 E2].
    apply N.leb_le in E1. apply N.leb_le in E2.
    destruct (nth_error sites_dict (N.to_nat n - 1)) eqn:En; [discriminate|].
    apply nth_error_None in En. lia.
  - intros place. unfold Menu.choose.
    destruct (String.eqb (PyStr.lower num) "exit"); [discriminate|].
    destruct (String.eqb (PyStr.lower num) "back"); [discriminate|].
    destruct (Menu.isnumeric num); [|discriminate].
    destruct (Menu.int_of_numeric num) as [n|]; [|discriminate].
    destruct ((1 <=? n) && (n <=? N.of_nat (List.length sites_dict)))%N eqn:E;
      [|discriminate].
    apply andb_true_iff in E as [E1 _]. apply N.leb_le in E1.
    destruct (nth_error sites_dict (N.to_nat n - 1)) as [p|] eqn:En; [|discriminate].
    intros H. injection H as <-.
    exists (N.to_nat n - 1). split; [exact En|].
    f_equal. lia.
  - intros i place Hi. unfold Menu.choose.
    rewrite MenuFacts.int_of_item_number.
    rewrite MenuFacts.item_number_pos.
    destruct (MenuFacts.digits_not_word (Pos.to_uint (Pos.of_succ_nat i))
                (JsonFacts.to_uint_head _)) as (-> & -> & ->).
    assert (Hlt : i < List.length sites_dict).
    { apply nth_error_Some. congruence. }
    assert (E : ((1 <=? N.of_nat (S i)) && (N.of_nat (S i) <=? N.of_nat (List.length sites_dict)))%N
                = true).
    { apply andb_true_iff. split; apply N.leb_le; lia. }
    rewrite E.
    replace (N.to_nat (N.of_nat (S i)) - 1) with i by lia.
    now rewrite Hi.
Qed.

(** X12. An answer of numeric characters that are not all decimal digits (a
    superscript two, a fraction) passes [isnumeric], and [int] then raises
    [ValueError]: the program stops instead of printing the error line. *)
Theorem numeric_answer_can_raise (num : string) (sites_dict : list NationalSite) :
  Menu.isnumeric num = true ->
  Menu.isdecimal num = false ->
  Menu.choose num sites_dict = Menu.RaisesValueError.
Proof.
  intros Hn Hd. unfold Menu.choose.
  destruct (MenuFacts.numeric_not_word num Hn) as [-> ->]. rewrite Hn.
  unfold Menu.int_of_numeric.
  destruct num as [|c r]; [discriminate Hn|].
  unfold Menu.isdecimal in Hd. apply MenuFacts.uint_of_string_decimal in Hd.
  now rewrite Hd.
Qed.

Lemma numeric_answer_can_raise_witness :
  Menu.choose (String (ascii_of_N 178) EmptyString) michigan_sites = Menu.RaisesValueError.
Proof.
  apply (numeric_answer_can_raise (String (ascii_of_N 178) EmptyString) michigan_sites);
    reflexivity.
Defined.

(** *** Pages that are asked for again *)

(** What a world can become while the program calls its page functions
    and nothing else: any number of calls, each of which returns or raises,
    and between them any change of the site and of the API. *)
Inductive page_run (html_parser : string -> Soup.node) (w : World) : World -> Prop :=
| run_start : page_run html_parser w w
| run_call (c : page_call) (w' : World) :
    page_run html_parser w w' ->
    page_run html_parser w (snd (run_page_call html_parser c w'))
| run_upstream (web' : string -> option string)
    (api' : string -> Dict.dict json -> option json) (w' : World) :
    page_run html_parser w w' ->
    page_run html_parser w (upstream_changes web' api' w').

(** X13. Once the page of a site has been fetched, [get_site_instance]
    gives the same outcome for its URL, be it the record or the exception
    of a page that lacks a field, in every later call that only calls of
    the page functions separate from the fetch, whichever they are and
    whether they return or raise: the page comes from the cache file, no
    request is sent and nothing is written, whatever the site has become
    at any time.  (A lookup of nearby places in between is another matter:
    it rewrites the file from the module-level dictionary.) *)
Theorem site_outcome_is_repeated (html_parser : string -> Soup.node) (site_url : string)
    (w w1 w2 : World) (html : json) :
  make_request_with_cache site_url w = (Ok html, w1) ->
  page_run html_parser w1 w2 ->
  snd (get_site_instance html_parser site_url w) = w1 /\
  exists w3,
    get_site_instance html_parser site_url w2
    = (fst (get_site_instance html_parser site_url w), w3) /\
    requests w3 = requests w2 /\ disk w3 = disk w2.
Proof.
  intros H Hrun. split.
  - rewrite SiteFacts.get_site_instance_eq, H. reflexivity.
  - assert (Hs : stored site_url w2 = Some html).
    { induction Hrun as [|c w' _ IH|web' api' w' _ IH].
      - exact (StoreFacts.fetch_stores _ _ _ _ H).
      - rewrite <- (RevisitFacts.one_page_call html_parser c w').
        apply (StoreFacts.preserves_page_calls (fun w0 => stored site_url w0 = Some html));
          [|exact IH].
        intros url. apply StoreFacts.fetch_keeps_stored.
      - now rewrite (StoreFacts.stored_disk site_url _ w') by reflexivity. }
    rewrite (RevisitFacts.get_site_instance_hit html_parser _ _ _ Hs).
    rewrite SiteFacts.get_site_instance_eq, H. cbn [fst].
    eexists. split; [reflexivity|]. split; reflexivity.
Qed.

(** X13, on the contact page of Keweenaw, which has no telephone: the call
    raises, and raises again after the site has mended the page and the
    program has gone through the sites of Michigan, asked for a page that
    does not exist, and built the index. *)
Lemma site_outcome_is_repeated_witness :
  let w1 := snd (make_request_with_cache "https://www.nps.gov/kewe/contact.htm"
                   Pages.cold_world) in
  let w2 :=
    snd (run_page_call Pages.parser BuildIndex
           (snd (run_page_call Pages.parser (SiteInstance "https://www.nps.gov/nowhere.htm")
                   (snd (run_page_call Pages.parser
                           (SitesForState "https://www.nps.gov/state/mi/index.htm")
                           (upstream_changes
                              (fun url =>
                                 if String.eqb url "https://www.nps.gov/kewe/contact.htm"
                                 then Some (Pages.render Pages.keweenaw_page)
                                 else Pages.site_web url)
                              (fun _ _ => None) w1)))))) in
  snd (get_site_instance Pages.parser "https://www.nps.gov/kewe/contact.htm" Pages.cold_world)
  = w1 /\
  exists w3,
    get_site_instance Pages.parser "https://www.nps.gov/kewe/contact.htm" w2
    = (Raise AttributeError, w3) /\
    requests w3 = requests w2 /\ disk w3 = disk w2.
Proof.
  intros w1 w2.
  apply (site_outcome_is_repeated Pages.parser "https://www.nps.gov/kewe/contact.htm"
           Pages.cold_world w1 w2 (JStr (Pages.render Pages.no_phone_page))).
  - reflexivity.
  - unfold w2. do 3 apply run_call. apply run_upstream. apply run_start.
Defined.

(** X14. After [get_sites_for_state] has returned the sites of a state, a
    second call for the state returns the same list without a single
    request and without a write: the state page and every detail page are
    in the cache file, whatever the site has become. *)
Theorem second_traversal_is_served_from_the_file (html_parser : string -> Soup.node)
    (state_url : string) (w w1 : World) (sites : list NationalSite)
    (web' : string -> option string) (api' : string -> Dict.dict json -> option json) :
  get_sites_for_state html_parser state_url w = (Ok sites, w1) ->
  exists w2,
    get_sites_for_state html_parser state_url (upstream_changes web' api' w1)
    = (Ok sites, w2) /\
    requests w2 = requests w1 /\ disk w2 = disk w1.
Proof.
  unfold get_sites_for_state. unfold bind at 1 2 3. unfold lift at 1 2. intros H.
  destruct (make_request_with_cache state_url w) as [[v|e] w0] eqn:E; [|discriminate H].
  destruct v as [| | |html| |]; cbn [BeautifulSoup] in H; try discriminate H.
  destruct (parks_of_page (html_parser html)) as [parks|] eqn:Ep; [|discriminate H].
  destruct (RevisitFacts.loop_stores html_parser parks w0 w1 sites H)
    as (Hk & urls & Hu & HF).
  set (wB := upstream_changes web' api' w1).
  assert (Hs : stored state_url wB = Some (JStr html)).
  { unfold wB. rewrite (StoreFacts.stored_disk _ _ w1) by reflexivity.
    apply Hk. exact (StoreFacts.fetch_stores _ _ _ _ E). }
  destruct (RevisitFacts.loop_from_file html_parser parks
              (snd (print "Using cache" wB)) urls sites Hu) as (w2 & H2 & Hd & Hr).
  { eapply Forall2_impl; [|exact HF].
    intros u s0 (c & Hc & Hx). exists c. split; [|exact Hx].
    now rewrite (StoreFacts.stored_disk u _ w1) by reflexivity. }
  exists w2. split; [|split; [exact Hr | exact Hd]].
  unfold bind at 1 2 3. unfold lift at 1 2.
  rewrite (StoreFacts.fetch_hit state_url wB _ Hs). cbn [BeautifulSoup]. rewrite Ep.
  exact H2.
Qed.

Lemma second_traversal_is_served_from_the_file_witness :
  exists w2,
    get_sites_for_state Pages.parser "https://www.nps.gov/state/mi/index.htm"
      (upstream_changes (fun _ => None) (fun _ _ => None)
         (snd (get_sites_for_state Pages.parser "https://www.nps.gov/state/mi/index.htm"
                 Pages.cold_world)))
    = (Ok michigan_sites, w2) /\
    requests w2
    = requests (snd (get_sites_for_state Pages.parser
                       "https://www.nps.gov/state/mi/index.htm" Pages.cold_world)) /\
    disk w2
    = disk (snd (get_sites_for_state Pages.parser
                   "https://www.nps.gov/state/mi/index.htm" Pages.cold_world)).
Proof.
  apply (second_traversal_is_served_from_the_file Pages.parser
           "https://www.nps.gov/state/mi/index.htm" Pages.cold_world).
  vm_compute. reflexivity.
Defined.

(** *** Errors on the way *)



(** X15. [get_sites_for_state] returns all the sites or none.  Without the
    list container on the state page it raises [AttributeError]; with a
    container that has no heading it returns the empty list; in both cases
    the state page is the only page fetched.  And when some heading of the
    list has no anchor, or an anchor without [href], no list is returned,
    wherever the heading stands. *)
Theorem sites_all_or_nothing (html_parser : string -> Soup.node) (state_url html : string)
    (w w1 : World) :
  make_request_with_cache state_url w = (Ok (JStr html), w1) ->
  let soup := html_parser html in
  (Soup.find (Soup.attr_is "id" "list_parks") soup = None ->
   get_sites_for_state html_parser state_url w = (Raise AttributeError, w1)) /\
  (forall container,
     Soup.find (Soup.attr_is "id" "list_parks") soup = Some container ->
     Soup.find_all (Soup.tag "h3") container = [] ->
     get_sites_for_state html_parser state_url w = (Ok [], w1)) /\
  (forall parks park e,
     parks_of_page soup = Ok parks -> In park parks -> park_url park = Raise e ->
     forall sites, fst (get_sites_for_state html_parser state_url w) <> Ok sites).
Proof.
  intros H soup. subst soup.
  assert (E : get_sites_for_state html_parser state_url w =
              match parks_of_page (html_parser html) with
              | Ok parks =>
                  for_each (fun park =>
                              url <- lift (park_url park) ;;
                              get_site_instance html_parser url) parks w1
              | Raise e => (Raise e, w1)
              end).
  { unfold get_sites_for_state. unfold bind at 1 2 3. unfold lift at 1 2.
    rewrite H. reflexivity. }
  rewrite E. clear E.
  split; [|split].
  - intros Hc. unfold parks_of_page. rewrite Hc. reflexivity.
  - intros container Hc Hh. unfold parks_of_page. rewrite Hc.
    cbn [find_all_in]. rewrite Hh. reflexivity.
  - intros parks park e Hp Hin He sites.
    rewrite Hp.
    match goal with
    | |- fst (?loop w1) <> _ => destruct (loop w1) as [r w'] eqn:El
    end.
    cbn [fst]. intros ->.
    destruct (ListingFacts.sites_loop html_parser parks w1 w' sites El)
      as (_ & urls & Hu & _).
    destruct (NearbyFacts.for_each_pure_In _ _ _ park Hu Hin) as [u Hpu].
    congruence.
Qed.

Lemma sites_all_or_nothing_witness :
  let soup := Pages.parser (Pages.render Pages.index_page) in
  let w1 := snd (make_request_with_cache "https://www.nps.gov/index.htm" Pages.cold_world) in
  (Soup.find (Soup.attr_is "id" "list_parks") soup = None ->
   get_sites_for_state Pages.parser "https://www.nps.gov/index.htm" Pages.cold_world
   = (Raise AttributeError, w1)) /\
  (forall container,
     Soup.find (Soup.attr_is "id" "list_parks") soup = Some container ->
     Soup.find_all (Soup.tag "h3") container = [] ->
     get_sites_for_state Pages.parser "https://www.nps.gov/index.htm" Pages.cold_world
     = (Ok [], w1)) /\
  (forall parks park e,
     parks_of_page soup = Ok parks -> In park parks -> park_url park = Raise e ->
     forall sites,
       fst (get_sites_for_state Pages.parser "https://www.nps.gov/index.htm" Pages.cold_world)
       <> Ok sites).
Proof.
  apply (sites_all_or_nothing Pages.parser "https://www.nps.gov/index.htm"
           (Pages.render Pages.index_page) Pages.cold_world).
  vm_compute. reflexivity.
Defined.



(** *** The text of the cache file *)

(** X17. [save_cache] writes plain ASCII, whatever characters the keys and
    the pages hold: [json.dumps] is called with its defaults, which escape
    every other character. *)
Theorem cache_file_is_ascii (cache_dict : json) (w : World) :
  exists contents,
    disk (snd (save_cache cache_dict w)) = Some contents /\
    AsciiFacts.ascii_only contents = true.
Proof.
  exists (Json.dumps cache_dict). split; [reflexivity | apply AsciiFacts.dumps_ascii].
Qed.

(** X18. [build_state_url_dict] gives the whole index or none.  Without the
    menu container on the front page it raises [AttributeError]; with a menu
    that has no anchor it returns the empty dictionary; and when some
    anchor of the menu has no [href], or no single text, no dictionary is
    returned, wherever the anchor stands. *)
Theorem index_all_or_nothing (html_parser : string -> Soup.node) (html : string)
    (w w1 : World) :
  make_request_with_cache index_url w = (Ok (JStr html), w1) ->
  let soup := html_parser html in
  (Soup.find (Soup.tag_class "ul" "dropdown-menu SearchBar-keywordSearch") soup = None ->
   build_state_url_dict html_parser w = (Raise AttributeError, w1)) /\
  (state_links soup = Ok [] ->
   build_state_url_dict html_parser w = (Ok Dict.empty, w1)) /\
  (forall links link e,
     state_links soup = Ok links -> In link links ->
     href_of (Some link) = Raise e \/ string_lower link = Raise e ->
     forall state_dict, fst (build_state_url_dict html_parser w) <> Ok state_dict).
Proof.
  intros H soup. subst soup.
  rewrite IndexFacts.build_state_url_dict_eq, H. cbn [fst snd obind BeautifulSoup].
  unfold state_dict_of_page.
  split; [|split].
  - intros Hc. unfold state_links. rewrite Hc. reflexivity.
  - intros ->. reflexivity.
  - intros links link e -> Hin He state_dict. cbn [obind]. intros Hd.
    destruct (IndexFacts.fold_state_link links _ _ Hd) as (pairs & HF & _).
    destruct (IndexFacts.Forall2_In_left _ _ _ _ HF Hin)
      as (kv & _ & Hs & href & Hh & _).
    destruct He as [He|He]; congruence.
Qed.

Lemma index_all_or_nothing_witness :
  let soup := Pages.parser (Pages.render Pages.michigan_page) in
  let w := upstream_changes (fun _ => Some (Pages.render Pages.michigan_page))
             (fun _ _ => None) Pages.cold_world in
  let w1 := snd (make_request_with_cache index_url w) in
  (Soup.find (Soup.tag_class "ul" "dropdown-menu SearchBar-keywordSearch") soup = None ->
   build_state_url_dict Pages.parser w = (Raise AttributeError, w1)) /\
  (state_links soup = Ok [] ->
   build_state_url_dict Pages.parser w = (Ok Dict.empty, w1)) /\
  (forall links link e,
     state_links soup = Ok links -> In link links ->
     href_of (Some link) = Raise e \/ string_lower link = Raise e ->
     forall state_dict, fst (build_state_url_dict Pages.parser w) <> Ok state_dict).
Proof.
  apply (index_all_or_nothing Pages.parser (Pages.render Pages.michigan_page)
           (upstream_changes (fun _ => Some (Pages.render Pages.michigan_page))
              (fun _ _ => None) Pages.cold_world)).
  vm_compute. reflexivity.
Defined.
